(** * The synchronisation engine of public/js/api-service.js

    A shallow embedding of [ApiService] and [SyncManager] and the
    properties the design document states about them.

    Layout: JavaScript values and JSON text; the page's mutable world and a
    state-and-exception monad over it; [ApiService]; [SyncManager]; the
    event loop of one browsing context; the observations the theorems speak
    of; a concrete page with sample data; the theorems; and the theorems at
    work on the sample page. *)

From stdpp Require Import base option list strings gmap pretty.
From Stdlib Require Import ZArith Lia Ascii.

Set Warnings "-register-all".

Local Open Scope string_scope.
Local Open Scope Z_scope.

(** ** JavaScript numbers that are not timestamps

    Prices are IEEE doubles produced by [parseFloat]; their parsing and
    printing is the engine's business, not this file's.  The operations the
    source applies to them are collected in an interface.  Timestamps and
    version markers ([Date.now()], [parseInt]) are integers and are modelled
    by [Z] directly. *)
Class JsNumber (num : Type) := {
  num_zero : num;
  num_truthy : num -> bool;          (* false for 0, -0 and NaN *)
  num_isFinite : num -> bool;        (* false for NaN and the infinities *)
  num_toString : num -> string;      (* Number.prototype.toString *)
  parseFloat_string : string -> num  (* parseFloat of a string *)
}.

(** ** JavaScript values, as far as JSON and property access reach *)
Inductive jsval (num : Type) : Type :=
  | JUndefined
  | JNull
  | JBool (b : bool)
  | JNum (n : num)
  | JStr (s : string)
  | JArr (items : list (jsval num))
  | JObj (props : list (string * jsval num)).

Arguments JUndefined {num}.
Arguments JNull {num}.
Arguments JBool {num} b.
Arguments JNum {num} n.
Arguments JStr {num} s.
Arguments JArr {num} items.
Arguments JObj {num} props.

(** The outcome of running a piece of JavaScript: a value, or a thrown
    error identified by its [message]. *)
Inductive outcome (A : Type) : Type :=
  | Ret (a : A)
  | Throw (message : string).

Arguments Ret {A} a.
Arguments Throw {A} message.

Definition obind {A B} (o : outcome A) (k : A -> outcome B) : outcome B :=
  match o with
  | Ret a => k a
  | Throw e => Throw e
  end.

Notation "'letO' x <- o ; k" := (obind o (fun x => k))
  (at level 10, x name, o at level 99, k at level 200, only parsing).

Definition TypeError_null : string := "Cannot read properties of null".
Definition TypeError_undefined : string := "Cannot read properties of undefined".
Definition TypeError_not_a_function : string := "toString is not a function".
Definition TypeError_to_primitive : string := "Cannot convert object to primitive value".

(** [join sep l] is [Array.prototype.join] on strings. *)
Fixpoint join (sep : string) (l : list string) : string :=
  match l with
  | [] => ""
  | [x] => x
  | x :: rest => x +:+ sep +:+ join sep rest
  end.

(** Own properties of an object literal, in insertion order. *)
Fixpoint assoc_get {V : Type} (k : string) (l : list (string * V)) : option V :=
  match l with
  | [] => None
  | (k', v) :: rest => if decide (k = k') then Some v else assoc_get k rest
  end.

(** Assignment keeps the position of an existing key and appends a new one. *)
Fixpoint assoc_set {V : Type} (k : string) (v : V) (l : list (string * V))
  : list (string * V) :=
  match l with
  | [] => [(k, v)]
  | (k', v') :: rest =>
      if decide (k = k') then (k, v) :: rest else (k', v') :: assoc_set k v rest
  end.

(** JSON string quoting (QuoteJSONString) on byte strings. *)
Definition hex_digit (n : N) : ascii :=
  match n with
  | 0%N => "0" | 1%N => "1" | 2%N => "2" | 3%N => "3" | 4%N => "4"
  | 5%N => "5" | 6%N => "6" | 7%N => "7" | 8%N => "8" | 9%N => "9"
  | 10%N => "a" | 11%N => "b" | 12%N => "c" | 13%N => "d" | 14%N => "e"
  | _ => "f"
  end%char.

Definition dquote : string := String (ascii_of_N 34) EmptyString.

Definition escape_char (c : ascii) : string :=
  let n := N_of_ascii c in
  if (n =? 34)%N then "\" +:+ dquote
  else if (n =? 92)%N then "\\"
  else if (n =? 8)%N then "\b"
  else if (n =? 12)%N then "\f"
  else if (n =? 10)%N then "\n"
  else if (n =? 13)%N then "\r"
  else if (n =? 9)%N then "\t"
  else if (n <? 32)%N then
    "\u00" +:+ String (hex_digit (n / 16)) (String (hex_digit (n mod 16)) "")
  else String c "".

Fixpoint escape_chars (s : string) : string :=
  match s with
  | EmptyString => ""
  | String c rest => escape_char c +:+ escape_chars rest
  end.

Definition quote (s : string) : string := dquote +:+ escape_chars s +:+ dquote.

Section Values.
Context {num : Type} `{JsNumber num}.

Local Abbreviation value := (jsval num).

(** ToBoolean. *)
Definition truthy (v : value) : bool :=
  match v with
  | JUndefined | JNull => false
  | JBool b => b
  | JNum n => num_truthy n
  | JStr s => negb (String.eqb s "")
  | JArr _ | JObj _ => true
  end.

(** [a || b] *)
Definition js_or (a b : value) : value := if truthy a then a else b.

(** Whether a value can be converted to a primitive.  The values here
    come from JSON or are records built by the engine, so no property of an
    object is callable: an object that owns a [toString] property hides the
    inherited method, and its conversion throws.  An array is converted by
    joining its elements, so it converts when its elements (null and
    undefined apart) do. *)
Fixpoint convertible (v : value) : bool :=
  match v with
  | JObj props =>
      match assoc_get "toString" props with
      | Some _ => false
      | None => true
      end
  | JArr items =>
      (fix all (l : list value) : bool :=
         match l with
         | [] => true
         | JUndefined :: rest | JNull :: rest => all rest
         | x :: rest => convertible x && all rest
         end) items
  | _ => true
  end.

(** The text of a value that can be converted.  An array joins its
    elements with commas, printing null and undefined elements as nothing;
    a plain object prints as [[object Object]]. *)
Fixpoint toString (v : value) : string :=
  match v with
  | JUndefined => "undefined"
  | JNull => "null"
  | JBool true => "true"
  | JBool false => "false"
  | JNum n => num_toString n
  | JStr s => s
  | JArr items =>
      join "," ((fix each (l : list value) : list string :=
                   match l with
                   | [] => []
                   | JUndefined :: rest | JNull :: rest => "" :: each rest
                   | x :: rest => toString x :: each rest
                   end) items)
  | JObj _ => "[object Object]"
  end.

(** ToString, as a template literal, [parseFloat] and [new Error] apply
    it: a TypeError when the value cannot be converted. *)
Definition ToString (v : value) : outcome string :=
  if convertible v then Ret (toString v) else Throw TypeError_to_primitive.

(** [v.toString()]: the method call throws on null and undefined, and on
    an object whose own [toString] property hides the method; on an array
    it joins the elements. *)
Definition method_toString (v : value) : outcome string :=
  match v with
  | JUndefined => Throw TypeError_undefined
  | JNull => Throw TypeError_null
  | JObj props =>
      match assoc_get "toString" props with
      | Some _ => Throw TypeError_not_a_function
      | None => Ret (toString v)
      end
  | _ => ToString v
  end.

(** [parseFloat(v)] converts its argument to a string first. *)
Definition parseFloat (v : value) : outcome value :=
  letO text <- ToString v;
  Ret (JNum (parseFloat_string text)).

(** [v.k]: reading a property of null or undefined throws; a key that an
    object does not own, and any key of a primitive or an array that the
    source reads, is undefined. *)
Definition get_prop (v : value) (k : string) : outcome value :=
  match v with
  | JUndefined => Throw TypeError_undefined
  | JNull => Throw TypeError_null
  | JObj props => Ret (default JUndefined (assoc_get k props))
  | _ => Ret JUndefined
  end.

(** [v?.k] *)
Definition get_prop_opt (v : value) (k : string) : value :=
  match v with
  | JObj props => default JUndefined (assoc_get k props)
  | _ => JUndefined
  end.

(** [v.k = x] in sloppy mode: throws on null and undefined, is dropped on
    a primitive.  (A named property put on an array is invisible to
    [JSON.stringify] and is not represented.) *)
Definition set_prop (v : value) (k : string) (x : value) : outcome value :=
  match v with
  | JUndefined => Throw TypeError_undefined
  | JNull => Throw TypeError_null
  | JObj props => Ret (JObj (assoc_set k x props))
  | _ => Ret v
  end.

Definition isArray (v : value) : bool :=
  match v with JArr _ => true | _ => false end.

(** [JSON.stringify(v)]: [None] is the JavaScript [undefined] it returns
    for an undefined argument.  Inside an array undefined prints as null;
    inside an object an undefined property is left out; a number that is
    not finite prints as null. *)
Fixpoint stringify (v : value) : option string :=
  match v with
  | JUndefined => None
  | JNull => Some "null"
  | JBool true => Some "true"
  | JBool false => Some "false"
  | JNum n => Some (if num_isFinite n then num_toString n else "null")
  | JStr s => Some (quote s)
  | JArr items =>
      Some ("[" +:+
            join "," ((fix each (l : list value) : list string :=
                         match l with
                         | [] => []
                         | x :: rest => default "null" (stringify x) :: each rest
                         end) items)
            +:+ "]")
  | JObj props =>
      Some ("{" +:+
            join "," ((fix each (l : list (string * value)) : list string :=
                         match l with
                         | [] => []
                         | (k, x) :: rest =>
                             match stringify x with
                             | Some t => (quote k +:+ ":" +:+ t) :: each rest
                             | None => each rest
                             end
                         end) props)
            +:+ "}")
  end.

End Values.

(** ** [parseInt] on decimal and hexadecimal text

    [None] is NaN.  Leading white space and a sign are skipped, a [0x]
    prefix selects radix 16, and parsing stops at the first character that
    is not a digit.  The result here is the integer the digits denote; the
    source holds it as a double.  The two agree on magnitudes up to 2^53,
    where every integer is a double; beyond that the source rounds, and a
    statement that parses arbitrary text is made for [exactly_parsed]
    values only. *)
Definition is_space (c : ascii) : bool :=
  let n := N_of_ascii c in
  ((9 <=? n) && (n <=? 13) || (n =? 32))%N.

Fixpoint skip_space (s : string) : string :=
  match s with
  | String c rest => if is_space c then skip_space rest else s
  | EmptyString => s
  end.

Definition digit_val (c : ascii) : option Z :=
  let n := N_of_ascii c in
  if ((48 <=? n) && (n <=? 57))%N then Some (Z.of_N (n - 48)) else None.

Definition hex_val (c : ascii) : option Z :=
  let n := N_of_ascii c in
  if ((48 <=? n) && (n <=? 57))%N then Some (Z.of_N (n - 48))
  else if ((97 <=? n) && (n <=? 102))%N then Some (Z.of_N (n - 87))
  else if ((65 <=? n) && (n <=? 70))%N then Some (Z.of_N (n - 55))
  else None.

Fixpoint digits (val : ascii -> option Z) (radix : Z) (acc : option Z) (s : string)
  : option Z :=
  match s with
  | EmptyString => acc
  | String c rest =>
      match val c with
      | Some d => digits val radix (Some (radix * default 0 acc + d)) rest
      | None => acc
      end
  end.

Definition parseInt (s : string) : option Z :=
  let s1 := skip_space s in
  let '(negative, s2) :=
    match s1 with
    | String "-" rest => (true, rest)
    | String "+" rest => (false, rest)
    | _ => (false, s1)
    end in
  let magnitude :=
    match s2 with
    | String "0" (String "x" rest) | String "0" (String "X" rest) =>
        digits hex_val 16 None rest
    | _ => digits digit_val 10 None s2
    end in
  (fun z => if negative : bool then - z else z) <$> magnitude.

(** [parseInt(localStorage.getItem(k)) || 0]: an absent item is null, which
    parses to NaN; NaN and 0 are both falsy. *)
Definition parseInt_or_0 (item : option string) : Z :=
  default 0 (item ≫= parseInt).

(** The integers that a double holds exactly whatever their digits:
    those of magnitude up to 2^53.  Clock readings are among them. *)
Definition exactly_parsed (z : Z) : Prop := Z.abs z <= 2 ^ 53.

(** [n.toString()] for an integer. *)
Definition Z_toString (z : Z) : string := pretty z.


(** ** The page: constants of the hosting application

    [USE_API], [STORAGE_KEY] and [API_URL] are globals declared by the
    hosting page.  [storage_accepts] says whether a [setItem] on a Web
    Storage area holding the given items succeeds; when it does not the
    call throws (quota exceeded, storage disabled). *)
Class Host := {
  USE_API : bool;
  STORAGE_KEY : string;
  API_URL : string;
  storage_accepts : gmap string string -> string -> string -> bool
}.

Definition VERSION_KEY : string := "repairflow_data_version".
Definition SYNC_INTERVAL_MS : Z := 5000.
Definition QuotaExceededError : string := "QuotaExceededError".

Section Engine.
Context {num : Type} `{JsNumber num} `{Host}.

Local Abbreviation value := (jsval num).

(** An entry of [SyncManager.pendingChanges]. *)
Record change := {
  action : string;
  itemData : value;
  timestamp : Z
}.

(** The message [broadcastChange] posts on the channel. *)
Record message := {
  msg_action : string;
  version : Z;
  data : value;
  msg_timestamp : string
}.

(** A call of the browser's [fetch(url, config)]. *)
Record fetch_call := {
  url : string;
  method : string;
  headers : list (string * string);
  body : option string
}.

(** What [fetch] and [response.json()] can do: the promise rejects with
    an error, or resolves to a response whose body parses as JSON or makes
    [response.json()] reject. *)
Inductive response_body :=
  | BodyJson (v : value)
  | BodyBad (message : string).

Inductive fetch_outcome :=
  | NetError (message : string)
  | Response (status : Z) (payload : response_body).

(** Calls into the hosting application and the console. *)
Inductive host_effect :=
  | AuthLogout
  | AppRefresh
  | ToastInfo (text : string)
  | ConsoleLog (text : string)
  | ConsoleWarn (text : string).

(** Everything the engine reads or writes.  The last four fields record
    what the engine did to the outside: messages posted on the channel,
    [fetch] calls issued, calls into the host, and how many pulls are
    suspended at their [await]. *)
Record World := {
  token : option string;                 (* ApiService.token *)
  sessionStorage : gmap string string;
  channel : bool;                        (* SyncManager.channel is not null *)
  lastSyncTimestamp : Z;
  isSyncing : bool;
  pendingChanges : list change;
  localStorage : gmap string string;
  State_state : value;                   (* State._state *)
  posted : list message;
  fetched : list fetch_call;
  effects : list host_effect;
  pulls_in_flight : nat
}.

Definition with_token (t : option string) (w : World) : World :=
  {| token := t; sessionStorage := sessionStorage w; channel := channel w;
     lastSyncTimestamp := lastSyncTimestamp w; isSyncing := isSyncing w;
     pendingChanges := pendingChanges w; localStorage := localStorage w;
     State_state := State_state w; posted := posted w; fetched := fetched w;
     effects := effects w; pulls_in_flight := pulls_in_flight w |}.

Definition with_sessionStorage (m : gmap string string) (w : World) : World :=
  {| token := token w; sessionStorage := m; channel := channel w;
     lastSyncTimestamp := lastSyncTimestamp w; isSyncing := isSyncing w;
     pendingChanges := pendingChanges w; localStorage := localStorage w;
     State_state := State_state w; posted := posted w; fetched := fetched w;
     effects := effects w; pulls_in_flight := pulls_in_flight w |}.

Definition with_lastSyncTimestamp (v : Z) (w : World) : World :=
  {| token := token w; sessionStorage := sessionStorage w; channel := channel w;
     lastSyncTimestamp := v; isSyncing := isSyncing w;
     pendingChanges := pendingChanges w; localStorage := localStorage w;
     State_state := State_state w; posted := posted w; fetched := fetched w;
     effects := effects w; pulls_in_flight := pulls_in_flight w |}.

Definition with_isSyncing (b : bool) (w : World) : World :=
  {| token := token w; sessionStorage := sessionStorage w; channel := channel w;
     lastSyncTimestamp := lastSyncTimestamp w; isSyncing := b;
     pendingChanges := pendingChanges w; localStorage := localStorage w;
     State_state := State_state w; posted := posted w; fetched := fetched w;
     effects := effects w; pulls_in_flight := pulls_in_flight w |}.

Definition with_pendingChanges (q : list change) (w : World) : World :=
  {| token := token w; sessionStorage := sessionStorage w; channel := channel w;
     lastSyncTimestamp := lastSyncTimestamp w; isSyncing := isSyncing w;
     pendingChanges := q; localStorage := localStorage w;
     State_state := State_state w; posted := posted w; fetched := fetched w;
     effects := effects w; pulls_in_flight := pulls_in_flight w |}.

Definition with_localStorage (m : gmap string string) (w : World) : World :=
  {| token := token w; sessionStorage := sessionStorage w; channel := channel w;
     lastSyncTimestamp := lastSyncTimestamp w; isSyncing := isSyncing w;
     pendingChanges := pendingChanges w; localStorage := m;
     State_state := State_state w; posted := posted w; fetched := fetched w;
     effects := effects w; pulls_in_flight := pulls_in_flight w |}.

Definition with_State_state (v : value) (w : World) : World :=
  {| token := token w; sessionStorage := sessionStorage w; channel := channel w;
     lastSyncTimestamp := lastSyncTimestamp w; isSyncing := isSyncing w;
     pendingChanges := pendingChanges w; localStorage := localStorage w;
     State_state := v; posted := posted w; fetched := fetched w;
     effects := effects w; pulls_in_flight := pulls_in_flight w |}.

Definition with_posted (l : list message) (w : World) : World :=
  {| token := token w; sessionStorage := sessionStorage w; channel := channel w;
     lastSyncTimestamp := lastSyncTimestamp w; isSyncing := isSyncing w;
     pendingChanges := pendingChanges w; localStorage := localStorage w;
     State_state := State_state w; posted := l; fetched := fetched w;
     effects := effects w; pulls_in_flight := pulls_in_flight w |}.

Definition with_fetched (l : list fetch_call) (w : World) : World :=
  {| token := token w; sessionStorage := sessionStorage w; channel := channel w;
     lastSyncTimestamp := lastSyncTimestamp w; isSyncing := isSyncing w;
     pendingChanges := pendingChanges w; localStorage := localStorage w;
     State_state := State_state w; posted := posted w; fetched := l;
     effects := effects w; pulls_in_flight := pulls_in_flight w |}.

Definition with_effects (l : list host_effect) (w : World) : World :=
  {| token := token w; sessionStorage := sessionStorage w; channel := channel w;
     lastSyncTimestamp := lastSyncTimestamp w; isSyncing := isSyncing w;
     pendingChanges := pendingChanges w; localStorage := localStorage w;
     State_state := State_state w; posted := posted w; fetched := fetched w;
     effects := l; pulls_in_flight := pulls_in_flight w |}.

Definition with_pulls_in_flight (n : nat) (w : World) : World :=
  {| token := token w; sessionStorage := sessionStorage w; channel := channel w;
     lastSyncTimestamp := lastSyncTimestamp w; isSyncing := isSyncing w;
     pendingChanges := pendingChanges w; localStorage := localStorage w;
     State_state := State_state w; posted := posted w; fetched := fetched w;
     effects := effects w; pulls_in_flight := n |}.

(** ** Computations: state passing with thrown errors

    A thrown error keeps the writes made before it. *)
Definition M (A : Type) : Type := World -> outcome A * World.

Definition ret {A} (a : A) : M A := fun w => (Ret a, w).
Definition throw {A} (message : string) : M A := fun w => (Throw message, w).

Definition bind {A B} (c : M A) (k : A -> M B) : M B :=
  fun w =>
    match c w with
    | (Ret a, w') => k a w'
    | (Throw e, w') => (Throw e, w')
    end.

Definition lift {A} (o : outcome A) : M A := fun w => (o, w).
Definition gets {A} (f : World -> A) : M A := fun w => (Ret (f w), w).
Definition modify (f : World -> World) : M unit := fun w => (Ret tt, f w).

(** [try { body } catch (error) { handler error.message }] *)
Definition try_catch {A} (body : M A) (handler : string -> M A) : M A :=
  fun w =>
    match body w with
    | (Ret a, w') => (Ret a, w')
    | (Throw e, w') => handler e w'
    end.

(** [try { body } finally { final }] where [final] does not throw. *)
Definition try_finally {A} (body : M A) (final : World -> World) : M A :=
  fun w => let '(r, w') := body w in (r, final w').

Definition when (b : bool) (c : M unit) : M unit := if b then c else ret tt.

Definition run {A} (c : M A) (w : World) : World := (c w).2.
Definition result {A} (c : M A) (w : World) : outcome A := (c w).1.

Notation "'do' x <- c ; k" := (bind c (fun x => k))
  (at level 10, x name, c at level 99, k at level 200, only parsing).
Notation "c ;; k" := (bind c (fun _ => k))
  (at level 100, k at level 200, right associativity, only parsing).

(** Host and console calls only leave a trace. *)
Definition effect (e : host_effect) : M unit :=
  modify (fun w => with_effects (effects w ++ [e]) w).

(** [localStorage.setItem(k, v)] *)
Definition localStorage_setItem (k v : string) : M unit :=
  fun w =>
    if storage_accepts (localStorage w) k v
    then (Ret tt, with_localStorage (<[k := v]> (localStorage w)) w)
    else (Throw QuotaExceededError, w).

Definition localStorage_getItem (k : string) : M (option string) :=
  gets (fun w => localStorage w !! k).

Definition sessionStorage_setItem (k v : string) : M unit :=
  fun w =>
    if storage_accepts (sessionStorage w) k v
    then (Ret tt, with_sessionStorage (<[k := v]> (sessionStorage w)) w)
    else (Throw QuotaExceededError, w).

Definition sessionStorage_removeItem (k : string) : M unit :=
  modify (fun w => with_sessionStorage (delete k (sessionStorage w)) w).

(** ** ApiService *)

Definition ApiService_init : M unit :=
  modify (fun w => with_token (sessionStorage w !! "auth_token") w).

Definition setToken (t : string) : M unit :=
  modify (with_token (Some t)) ;;
  sessionStorage_setItem "auth_token" t.

Definition clearToken : M unit :=
  modify (with_token None) ;;
  sessionStorage_removeItem "auth_token".

(** [if (this.token)]: null and the empty string are falsy. *)
Definition has_token (w : World) : bool :=
  match token w with
  | Some t => negb (String.eqb t "")
  | None => false
  end.

Definition getHeaders : M (list (string * string)) :=
  do t <- gets token;
  do held <- gets has_token;
  ret (("Content-Type", "application/json") ::
       (if held : bool then [("Authorization", "Bearer " +:+ default "" t)] else [])).

(** The [options] the callers of [request] pass: a method and maybe a body. *)
Record options := {
  opt_method : string;
  opt_body : option string
}.

Definition response_ok (status : Z) : bool := (200 <=? status) && (status <=? 299).

(** [request] up to its [await fetch(url, config)]: the headers are built
    and the call is issued. *)
Definition request_begin (endpoint : string) (o : options) : M unit :=
  do hs <- getHeaders;
  modify (fun w =>
    with_fetched (fetched w ++ [ {| url := API_URL +:+ endpoint;
                                    method := opt_method o;
                                    headers := hs;
                                    body := opt_body o |} ]) w).

(** [request] from the moment the promise of [fetch] settles. *)
Definition request_resume (fo : fetch_outcome) : M value :=
  try_catch
    match fo with
    | NetError e => throw e
    | Response status payload =>
        if status =? 401 then
          clearToken ;;
          effect AuthLogout ;;
          throw "Session expired. Please login again."
        else if negb (response_ok status) then
          let error :=
            match payload with
            | BodyJson v => v
            | BodyBad _ => JObj [("error", JStr "Request failed")]
            end in
          do e <- lift (get_prop error "error");
          do text <- lift (ToString (js_or e (JStr "Request failed")));
          throw text
        else
          match payload with
          | BodyJson v => ret v
          | BodyBad e => throw e
          end
    end
    (fun e =>
       if String.eqb e "Failed to fetch" then
         effect (ConsoleWarn "Network error - using local fallback") ;;
         ret JNull
       else throw e).

Definition request (fo : fetch_outcome) (endpoint : string) (o : options) : M value :=
  request_begin endpoint o ;;
  request_resume fo.

Definition get (fo : fetch_outcome) (endpoint : string) : M value :=
  request fo endpoint {| opt_method := "GET"; opt_body := None |}.

Definition post (fo : fetch_outcome) (endpoint : string) (d : value) : M value :=
  request fo endpoint {| opt_method := "POST"; opt_body := stringify d |}.

Definition put (fo : fetch_outcome) (endpoint : string) (d : value) : M value :=
  request fo endpoint {| opt_method := "PUT"; opt_body := stringify d |}.

Definition delete_ (fo : fetch_outcome) (endpoint : string) : M value :=
  request fo endpoint {| opt_method := "DELETE"; opt_body := None |}.

(** ** SyncManager *)

(** [init], with the timers and listeners it installs left to the event
    loop below.  [has_BroadcastChannel] is ['BroadcastChannel' in window]. *)
Definition init (has_BroadcastChannel : bool) (now : Z) : M unit :=
  modify (fun w =>
    {| token := token w; sessionStorage := sessionStorage w;
       channel := has_BroadcastChannel || channel w;
       lastSyncTimestamp := lastSyncTimestamp w; isSyncing := isSyncing w;
       pendingChanges := pendingChanges w; localStorage := localStorage w;
       State_state := State_state w; posted := posted w; fetched := fetched w;
       effects := effects w; pulls_in_flight := pulls_in_flight w |}) ;;
  do stored <- localStorage_getItem VERSION_KEY;
  when (match stored with Some t => String.eqb t "" | None => true end)
       (localStorage_setItem VERSION_KEY (Z_toString now)) ;;
  do stored' <- localStorage_getItem VERSION_KEY;
  modify (with_lastSyncTimestamp (parseInt_or_0 stored')) ;;
  effect (ConsoleLog "SyncManager initialized").

(** [now] is the reading of [Date.now()], [iso] the text of
    [new Date().toISOString()]. *)
Definition broadcastChange (now : Z) (iso : string) (act : string) (d : value)
  : M unit :=
  localStorage_setItem VERSION_KEY (Z_toString now) ;;
  modify (with_lastSyncTimestamp now) ;;
  do open <- gets channel;
  when open
    (modify (fun w =>
       with_posted (posted w ++ [ {| msg_action := act; version := now;
                                     data := d; msg_timestamp := iso |} ]) w)).

Definition handleSyncMessage (m : message) : M unit :=
  do last <- gets lastSyncTimestamp;
  when (last <? version m)
    (effect (ConsoleLog "Sync received from another tab") ;;
     modify (with_lastSyncTimestamp (version m)) ;;
     effect AppRefresh ;;
     effect (ToastInfo "Data updated from another tab")).

Definition handleStorageChange (key : string) (newValue : option string) : M unit :=
  when (String.eqb key VERSION_KEY)
    (let newVersion := parseInt_or_0 newValue in
     do last <- gets lastSyncTimestamp;
     when (last <? newVersion)
       (effect (ConsoleLog "Storage sync detected") ;;
        modify (with_lastSyncTimestamp newVersion) ;;
        effect AppRefresh ;;
        effect (ToastInfo "Data synchronized"))).

(** The listener [init] installs for the window's storage event. *)
Definition on_storage (key : string) (newValue : option string) : M unit :=
  when (String.eqb key "repairflow_erp_data" || String.eqb key VERSION_KEY)
    (handleStorageChange key newValue).

(** Modelled from the spec: [State.get()], whose module is not part of
    these sources.  The snapshot is "the full local copy of one synchronized
    collection", held in memory by the context; [State.get()] hands out the
    object in [State._state], whose [inventory] property holds the records. *)
Definition State_get : M value := gets State_state.

Definition field (o : value) (k : string) : M value := lift (get_prop o k).

(** The callback of [inventory.map] in [pullFromServer]: one server row
    becomes one local record. *)
Definition local_item (item : value) : outcome value :=
  letO id <- get_prop item "id";
  letO id_text <- method_toString id;
  letO type <- get_prop item "type";
  letO brand <- get_prop item "brand";
  letO model <- get_prop item "model";
  letO serial <- get_prop item "serial";
  letO source <- get_prop item "source";
  letO seller <- get_prop item "seller";
  letO buy_price <- get_prop item "buy_price";
  letO buy <- parseFloat buy_price;
  letO base_sell_price <- get_prop item "base_sell_price";
  letO base_sell <- parseFloat base_sell_price;
  letO current_price <- get_prop item "current_price";
  letO current <- parseFloat current_price;
  letO sold_price <- get_prop item "sold_price";
  letO sell <- (if truthy sold_price then parseFloat sold_price else Ret JNull);
  letO status <- get_prop item "status";
  letO visual_grade <- get_prop item "visual_grade";
  letO specs <- get_prop item "specs";
  letO created_at <- get_prop item "created_at";
  letO warranty_months <- get_prop item "warranty_months";
  letO warranty_expires <- get_prop item "warranty_expires";
  letO sold_date <- get_prop item "sold_date";
  letO sold_to <- get_prop item "sold_to";
  letO price_override_reason <- get_prop item "price_override_reason";
  Ret (JObj [
    ("id", JStr id_text);
    ("type", type);
    ("brand", brand);
    ("model", model);
    ("serial", serial);
    ("source", source);
    ("seller", js_or seller (JStr ""));
    ("buy", buy);
    ("base_sell_price", base_sell);
    ("current_price", current);
    ("sell", sell);
    ("status", status);
    ("visual", visual_grade);
    ("specs", js_or specs (JStr ""));
    ("date", created_at);
    ("warranty_months", js_or warranty_months (JNum num_zero));
    ("warranty_expires", warranty_expires);
    ("sold_date", sold_date);
    ("sold_to", sold_to);
    ("price_override",
       if truthy price_override_reason
       then JObj [("reason", price_override_reason)]
       else JNull)
  ]).

Fixpoint map_local_item (rows : list value) : outcome (list value) :=
  match rows with
  | [] => Ret []
  | item :: rest =>
      letO x <- local_item item;
      letO xs <- map_local_item rest;
      Ret (x :: xs)
  end.

Definition array_items (v : value) : list value :=
  match v with JArr items => items | _ => [] end.

(** [a !== b] on results of [JSON.stringify]. *)
Definition text_differs (a b : option string) : bool :=
  if decide (a = b) then false else true.

(** [localStorage.setItem(k, JSON.stringify(v))]: an undefined text is
    stored as the word undefined. *)
Definition text_arg (t : option string) : string := default "undefined" t.

Definition may_pull (w : World) : bool :=
  USE_API && has_token w && negb (isSyncing w).

(** [pullFromServer] up to its [await]: the guard, the flag, and the
    request for the inventory. *)
Definition pullFromServer_begin : M unit :=
  do allowed <- gets may_pull;
  if negb allowed : bool then ret tt
  else
    modify (with_isSyncing true) ;;
    request_begin "/api/inventory" {| opt_method := "GET"; opt_body := None |} ;;
    modify (fun w => with_pulls_in_flight (S (pulls_in_flight w)) w).

(** [pullFromServer] from the moment its request settles with [fo]. *)
Definition pullFromServer_resume (fo : fetch_outcome) (now : Z) (iso : string)
  : M unit :=
  modify (fun w => with_pulls_in_flight (pred (pulls_in_flight w)) w) ;;
  try_finally
    (try_catch
       (do inventory <- request_resume fo;
        when (truthy inventory && isArray inventory)
          (do localInventory <- lift (map_local_item (array_items inventory));
           do state <- State_get;
           do current <- field state "inventory";
           when (text_differs (stringify current) (stringify (JArr localInventory)))
             (do state' <- lift (set_prop state "inventory" (JArr localInventory));
              modify (with_State_state state') ;;
              localStorage_setItem STORAGE_KEY (text_arg (stringify state')) ;;
              broadcastChange now iso "inventory_sync" (JObj []) ;;
              effect (ConsoleLog "Inventory synced from server"))))
       (fun e => effect (ConsoleWarn ("Failed to pull from server: " +:+ e))))
    (with_isSyncing false).

(** A pull that is not interleaved with anything else. *)
Definition pullFromServer (fo : fetch_outcome) (now : Z) (iso : string) : M unit :=
  do allowed <- gets may_pull;
  if negb allowed : bool then ret tt
  else pullFromServer_begin ;; pullFromServer_resume fo now iso.

(** [checkForUpdates] up to the [await] inside the pull it may start. *)
Definition checkForUpdates : M unit :=
  do stored <- localStorage_getItem VERSION_KEY;
  let currentVersion := parseInt_or_0 stored in
  do last <- gets lastSyncTimestamp;
  when (last <? currentVersion)
    (effect (ConsoleLog "Updates detected on tab focus") ;;
     modify (with_lastSyncTimestamp currentVersion) ;;
     effect AppRefresh) ;;
  do held <- gets has_token;
  when (USE_API && held) pullFromServer_begin.

(** The three requests of [pushToServer]'s [switch].  The arguments of each
    call are evaluated first (reading a property of a null [itemData]
    throws), then the request is sent.  An action that matches no case
    sends nothing and leaves [result] undefined. *)
Definition add_payload (itemData : value) : outcome value :=
  letO type <- get_prop itemData "type";
  letO brand <- get_prop itemData "brand";
  letO model <- get_prop itemData "model";
  letO serial <- get_prop itemData "serial";
  letO source <- get_prop itemData "source";
  letO seller <- get_prop itemData "seller";
  letO buy <- get_prop itemData "buy";
  letO base_sell_price <- get_prop itemData "base_sell_price";
  letO current_price <- get_prop itemData "current_price";
  letO visual <- get_prop itemData "visual";
  letO specs <- get_prop itemData "specs";
  Ret (JObj [
    ("type", type);
    ("brand", brand);
    ("model", model);
    ("serial", serial);
    ("source", source);
    ("seller", seller);
    ("buy_price", buy);
    ("base_sell_price", base_sell_price);
    ("current_price", js_or current_price base_sell_price);
    ("visual_grade", visual);
    ("specs", specs);
    ("status", JStr "available")
  ]).

Definition update_endpoint (itemData : value) : outcome string :=
  letO id <- get_prop itemData "id";
  letO text <- ToString id;
  Ret ("/api/inventory/" +:+ text).

Definition update_payload (itemData : value) : outcome value :=
  letO current_price <- get_prop itemData "current_price";
  letO status <- get_prop itemData "status";
  letO sell <- get_prop itemData "sell";
  letO sold_date <- get_prop itemData "sold_date";
  letO sold_to <- get_prop itemData "sold_to";
  letO warranty_months <- get_prop itemData "warranty_months";
  letO warranty_expires <- get_prop itemData "warranty_expires";
  letO price_override <- get_prop itemData "price_override";
  Ret (JObj [
    ("current_price", current_price);
    ("status", status);
    ("sold_price", sell);
    ("sold_date", sold_date);
    ("sold_to", sold_to);
    ("warranty_months", warranty_months);
    ("warranty_expires", warranty_expires);
    ("price_override_reason", get_prop_opt price_override "reason")
  ]).

Definition sell_endpoint (itemData : value) : outcome string :=
  letO id <- get_prop itemData "id";
  letO text <- ToString id;
  Ret ("/api/inventory/" +:+ text +:+ "/sell").

Definition sell_payload (itemData : value) : outcome value :=
  letO sell <- get_prop itemData "sell";
  letO sold_to <- get_prop itemData "sold_to";
  letO warranty_months <- get_prop itemData "warranty_months";
  Ret (JObj [
    ("sold_price", sell);
    ("sold_to", sold_to);
    ("warranty_months", warranty_months)
  ]).

Definition push_add (fo : fetch_outcome) (itemData : value) : M value :=
  do payload <- lift (add_payload itemData);
  do result <- post fo "/api/inventory" payload;
  effect (ConsoleLog "Inventory item pushed to server") ;;
  ret result.

Definition push_update (fo : fetch_outcome) (itemData : value) : M value :=
  do endpoint <- lift (update_endpoint itemData);
  do payload <- lift (update_payload itemData);
  do result <- put fo endpoint payload;
  effect (ConsoleLog "Inventory item updated on server") ;;
  ret result.

Definition push_sell (fo : fetch_outcome) (itemData : value) : M value :=
  do endpoint <- lift (sell_endpoint itemData);
  do payload <- lift (sell_payload itemData);
  do result <- post fo endpoint payload;
  effect (ConsoleLog "Item sold synced to server") ;;
  ret result.

Definition may_push (w : World) : bool := USE_API && has_token w.

(** [fo] is how the request of this push settles, [now] the reading of
    [Date.now()] in the [catch] block. *)
Definition pushToServer (fo : fetch_outcome) (now : Z) (act : string)
    (item : value) : M value :=
  do allowed <- gets may_push;
  if negb allowed : bool then ret JNull
  else
    try_catch
      (if String.eqb act "add" then push_add fo item
       else if String.eqb act "update" then push_update fo item
       else if String.eqb act "sell" then push_sell fo item
       else ret JUndefined)
      (fun e =>
         effect (ConsoleWarn ("Failed to push to server: " +:+ e)) ;;
         modify (fun w =>
           with_pendingChanges
             (pendingChanges w ++ [ {| action := act; itemData := item;
                                       timestamp := now |} ]) w) ;;
         ret JNull).

(** What the outside does to one push of a drain: how its request settles
    and what the clock reads if the push fails. *)
Definition push_env : Type := fetch_outcome * Z.

(** The [for ... of] loop of [retryPendingChanges]; [i] counts the changes
    already taken. *)
Fixpoint for_changes (env : nat -> push_env) (i : nat) (changes : list change)
  : M unit :=
  match changes with
  | [] => ret tt
  | c :: rest =>
      pushToServer (env i).1 (env i).2 (action c) (itemData c) ;;
      for_changes env (S i) rest
  end.

Definition retryPendingChanges (env : nat -> push_env) : M unit :=
  do changes <- gets pendingChanges;
  match changes with
  | [] => ret tt
  | _ =>
      modify (with_pendingChanges []) ;;
      for_changes env 0%nat changes
  end.

(** ** The event loop of one context

    JavaScript runs one handler at a time; a handler that awaits gives the
    loop back.  A pull is therefore two events: the trigger that runs
    [pullFromServer] to its [await], and the settling of its request.  The
    storage event reports a write that another context of the device has
    already made to the shared [localStorage]. *)
Inductive event :=
  | LocalMutation (now : Z) (iso : string) (act : string) (d : value)
  | ChannelMessage (m : message)
  | StorageEvent (key : string) (newValue : option string)
  | VisibilityVisible
  | TimerTick
  | PullSettled (fo : fetch_outcome) (now : Z) (iso : string).

Definition other_context_wrote (key : string) (newValue : option string)
    (w : World) : World :=
  with_localStorage
    match newValue with
    | Some v => <[key := v]> (localStorage w)
    | None => delete key (localStorage w)
    end w.

Definition handle (e : event) : M unit :=
  match e with
  | LocalMutation now iso act d => broadcastChange now iso act d
  | ChannelMessage m => handleSyncMessage m
  | StorageEvent key newValue =>
      modify (other_context_wrote key newValue) ;;
      on_storage key newValue
  | VisibilityVisible => checkForUpdates
  | TimerTick => pullFromServer_begin
  | PullSettled fo now iso =>
      do n <- gets pulls_in_flight;
      match n with
      | O => ret tt
      | S _ => pullFromServer_resume fo now iso
      end
  end.

Definition step (w : World) (e : event) : World := run (handle e) w.

Definition run_events (w : World) (es : list event) : World := foldl step w es.

End Engine.

Arguments World : clear implicits.
Arguments change : clear implicits.
Arguments message : clear implicits.
Arguments response_body : clear implicits.
Arguments fetch_outcome : clear implicits.
Arguments push_env : clear implicits.
Arguments event : clear implicits.
Arguments M : clear implicits.

(** * What the theorems speak of

    Observations of the world and of the engine's computations, and the
    parts of the engine's functions that the theorems name. *)

Section Observations.
Context {num : Type} {numbers : JsNumber num} {page : Host}.

Local Abbreviation value := (jsval num).

(** ** Frame reasoning

    [keeps f c]: running [c] leaves the observation [f] of the world as it
    was, whether [c] returns or throws. *)
Definition keeps {A B} (f : World num -> B) (c : M num A) : Prop :=
  forall w, f (c w).2 = f w.

(** ** The body of a settling pull

    What [pullFromServer] does with the value its request returned. *)
Definition store_inventory (now : Z) (iso : string) (inventory : value) : M num unit :=
  when (truthy inventory && isArray inventory)
    (bind (lift (map_local_item (array_items inventory))) (fun localInventory =>
     bind State_get (fun state =>
     bind (field state "inventory") (fun current =>
     when (text_differs (stringify current) (stringify (JArr localInventory)))
       (bind (lift (set_prop state "inventory" (JArr localInventory))) (fun state' =>
        bind (modify (with_State_state state')) (fun _ =>
        bind (localStorage_setItem STORAGE_KEY (text_arg (stringify state'))) (fun _ =>
        bind (broadcastChange now iso "inventory_sync" (JObj [])) (fun _ =>
        effect (ConsoleLog "Inventory synced from server")))))))))).

(** What the engine holds of the snapshot. *)
Definition local_records (w : World num) : outcome value :=
  get_prop (State_state w) "inventory".

Definition pull_warning (e : string) (w : World num) : World num :=
  with_effects (effects w ++ [ConsoleWarn ("Failed to pull from server: " +:+ e)]) w.

(** The records a response carries for the pull: the rows of a success
    response whose body is an array, mapped to local records. *)
Definition pulled_records (fo : fetch_outcome num) : option (list value) :=
  match fo with
  | Response status (BodyJson (JArr rows)) =>
      if response_ok status then
        match map_local_item rows with
        | Ret items => Some items
        | Throw _ => None
        end
      else None
  | _ => None
  end.

(** The snapshot, its version and the channel, as persistent state. *)
Definition persistent_unchanged (w w' : World num) : Prop :=
  localStorage w' = localStorage w /\
  lastSyncTimestamp w' = lastSyncTimestamp w /\
  posted w' = posted w.

(** The request a pull sends. *)
Definition inventory_call (w : World num) : fetch_call :=
  {| url := API_URL +:+ "/api/inventory";
     method := "GET";
     headers := ("Content-Type", "application/json") ::
                (if has_token w
                 then [("Authorization", "Bearer " +:+ default "" (token w))]
                 else []);
     body := None |}.

(** ** Single flight

    The flag and the count of suspended pulls agree: one pull is suspended
    exactly when [isSyncing] is set, none otherwise. *)
Definition single_flight (w : World num) : Prop :=
  pulls_in_flight w = if isSyncing w then 1%nat else 0%nat.

Definition flight (w : World num) : bool * nat := (isSyncing w, pulls_in_flight w).

(** The part of [checkForUpdates] before the pull it may start. *)
Definition check_version : M num unit :=
  bind (localStorage_getItem VERSION_KEY) (fun stored =>
  bind (gets (@lastSyncTimestamp num)) (fun last =>
  when (last <? parseInt_or_0 stored)
    (bind (effect (ConsoleLog "Updates detected on tab focus")) (fun _ =>
     bind (modify (with_lastSyncTimestamp (parseInt_or_0 stored))) (fun _ =>
     effect AppRefresh))))).

Definition session_expired : string := "Session expired. Please login again.".

(** What the engine can still send: the credential, the suspended pulls
    and the requests sent so far. *)
Definition sending (w : World num) : option string * nat * list fetch_call :=
  (token w, pulls_in_flight w, fetched w).

(** No credential and no pull suspended. *)
Definition halted (w : World num) : Prop :=
  token w = None /\ pulls_in_flight w = 0%nat.

(** The request [pushToServer] sends for an action, once its arguments
    are evaluated: method, endpoint, payload, and the line it logs. *)
Record push_request := {
  pr_method : string;
  pr_endpoint : string;
  pr_payload : value;
  pr_log : string
}.

Definition submission (act : string) (item : value) : outcome (option push_request) :=
  if String.eqb act "add" then
    letO payload <- add_payload item;
    Ret (Some {| pr_method := "POST"; pr_endpoint := "/api/inventory";
                 pr_payload := payload;
                 pr_log := "Inventory item pushed to server" |})
  else if String.eqb act "update" then
    letO endpoint <- update_endpoint item;
    letO payload <- update_payload item;
    Ret (Some {| pr_method := "PUT"; pr_endpoint := endpoint;
                 pr_payload := payload;
                 pr_log := "Inventory item updated on server" |})
  else if String.eqb act "sell" then
    letO endpoint <- sell_endpoint item;
    letO payload <- sell_payload item;
    Ret (Some {| pr_method := "POST"; pr_endpoint := endpoint;
                 pr_payload := payload;
                 pr_log := "Item sold synced to server" |})
  else Ret None.

Definition headers_of (w : World num) : list (string * string) :=
  ("Content-Type", "application/json") ::
  (if has_token w then [("Authorization", "Bearer " +:+ default "" (token w))] else []).

Definition call_for (hs : list (string * string)) (r : push_request) : fetch_call :=
  {| url := API_URL +:+ pr_endpoint r; method := pr_method r;
     headers := hs; body := stringify (pr_payload r) |}.

(** The world after the [catch] block of [pushToServer]. *)
Definition push_failed (e : string) (now : Z) (act : string) (item : value)
    (w : World num) : World num :=
  with_pendingChanges
    (pendingChanges w ++ [ {| action := act; itemData := item; timestamp := now |} ])
    (with_effects (effects w ++ [ConsoleWarn ("Failed to push to server: " +:+ e)]) w).


(** A request is rejected: an error status other than 401 and a body
    that is not JSON. *)
Definition rejects (fo : fetch_outcome num) : Prop :=
  exists status m,
    fo = Response status (BodyBad m) /\
    (status =? 401) = false /\ response_ok status = false.

(** The request a queued change stands for, if its action is one of the
    three the engine knows and its item data can be read. *)
Definition expected_call (hs : list (string * string)) (c : change num)
  : option fetch_call :=
  match submission (action c) (itemData c) with
  | Ret (Some r) => Some (call_for hs r)
  | _ => None
  end.

Definition drain_times (env : nat -> push_env num) (n : nat) (w : World num)
  : World num :=
  Nat.iter n (run (retryPendingChanges env)) w.

(** The reading of the clock an event assigns to the version, if it
    assigns one: the reading of a local mutation whose marker storage
    takes, and the reading of a settling pull that is waited for, brings
    records that print differently from the local ones, and has both its
    writes taken by storage.  The reading of a pull that fails or is
    rejected, and of a mutation whose marker storage refuses, is not used. *)
Definition stamp_used (w : World num) (e : event num) : option Z :=
  match e with
  | LocalMutation now _ _ _ =>
      if storage_accepts (localStorage w) VERSION_KEY (Z_toString now)
      then Some now else None
  | PullSettled fo now _ =>
      match pulls_in_flight w, pulled_records fo, local_records w with
      | S _, Some items, Ret cur =>
          if text_differs (stringify cur) (stringify (JArr items)) then
            match set_prop (State_state w) "inventory" (JArr items) with
            | Ret state' =>
                let text := text_arg (stringify state') in
                if storage_accepts (localStorage w) STORAGE_KEY text
                   && storage_accepts (<[STORAGE_KEY := text]> (localStorage w))
                        VERSION_KEY (Z_toString now)
                then Some now else None
            | Throw _ => None
            end
          else None
      | _, _, _ => None
      end
  | _ => None
  end.

(** Along the run of [es] from [w], no reading used as a stamp is behind
    the version the context holds when the stamp is taken. *)
Fixpoint stamps_not_behind (w : World num) (es : list (event num)) : Prop :=
  match es with
  | [] => True
  | e :: rest =>
      match stamp_used w e with
      | Some now => lastSyncTimestamp w <= now
      | None => True
      end /\ stamps_not_behind (step w e) rest
  end.

(** A candidate snapshot as the design document speaks of it: records with
    a version marker.  The response to the inventory request is the array
    of rows; the marker has no place in it. *)
Record candidate := {
  cand_version : Z;
  cand_rows : list value
}.

Definition deliver (c : candidate) : fetch_outcome num :=
  Response 200 (BodyJson (JArr (cand_rows c))).

End Observations.

Arguments candidate : clear implicits.
Arguments push_request : clear implicits.

(** * Further observations

    What the further properties below speak of. *)

(** The part of [parseInt] after white space and sign: the digits, in
    radix 16 after a [0x] prefix and in radix 10 otherwise. *)
Definition parseInt_magnitude (s2 : string) : option Z :=
  match s2 with
  | String "0" (String "x" rest) | String "0" (String "X" rest) =>
      digits hex_val 16 None rest
  | _ => digits digit_val 10 None s2
  end.

(** One of the characters 0 to 9. *)
Definition digit_char (c : ascii) : Prop :=
  exists d, (d < 10)%N /\ c = pretty_N_char d.

Section MoreObservations.
Context {num : Type} {numbers : JsNumber num} {page : Host}.

Local Abbreviation value := (jsval num).

(** What the synchronisation keeps between calls, the credential apart. *)
Definition sync_state (w : World num) :=
  (localStorage w, lastSyncTimestamp w, isSyncing w, pendingChanges w,
   State_state w, posted w, channel w, pulls_in_flight w).

(** The call [request] issues for an endpoint and its options. *)
Definition request_call (w : World num) (endpoint : string) (o : options)
  : fetch_call :=
  {| url := API_URL +:+ endpoint; method := opt_method o;
     headers := headers_of w; body := opt_body o |}.



(** The message an accepted pull posts. *)
Definition inventory_sync (now : Z) (iso : string) : message num :=
  {| msg_action := "inventory_sync"; version := now; data := JObj [];
     msg_timestamp := iso |}.

(** A world in which nothing has happened yet. *)
Definition blank_world : World num :=
  {| token := None; sessionStorage := ∅; channel := false;
     lastSyncTimestamp := 0; isSyncing := false; pendingChanges := [];
     localStorage := ∅; State_state := JUndefined; posted := []; fetched := [];
     effects := []; pulls_in_flight := 0 |}.

(** What [request] makes of the way its [fetch] settles: the value it
    returns or the error it throws.  The world has no part in it. *)
Definition settled (fo : fetch_outcome num) : outcome value :=
  result (request_resume fo) blank_world.

(** The entry [pushToServer] puts in the queue when its request throws. *)
Definition queued_again (c : change num) (now : Z) : change num :=
  {| action := action c; itemData := itemData c; timestamp := now |}.

(** The changes of a drained queue that are queued again: those whose
    request threw, in their order, stamped with the time of the failure.
    [i] counts the changes already taken. *)
Fixpoint requeued (env : nat -> push_env num) (i : nat) (q : list (change num))
  : list (change num) :=
  match q with
  | [] => []
  | c :: rest =>
      match settled (env i).1 with
      | Throw _ => [queued_again c (env i).2]
      | Ret _ => []
      end ++ requeued env (S i) rest
  end.

(** What a queued change is, its time stamp apart. *)
Definition change_key (c : change num) : string * value := (action c, itemData c).

(** A queued change that stands for a request. *)
Definition sendable (c : change num) : Prop :=
  exists r, submission (action c) (itemData c) = Ret (Some r).

(** What a push leaves alone whatever happens to its request. *)
Definition beside_push (w : World num) :=
  (localStorage w, lastSyncTimestamp w, isSyncing w, State_state w, posted w,
   channel w, pulls_in_flight w).

(** A call that carries a bearer token. *)
Definition authorized (c : fetch_call) : Prop :=
  exists t, t <> "" /\ In ("Authorization", "Bearer " +:+ t) (headers c).

End MoreObservations.

(** ** A concrete page

    The integer fragment of JavaScript numbers ([None] is NaN): enough to
    run the engine on rows whose prices are whole numbers. *)
Definition parseFloat_integer (s : string) : option Z :=
  let s1 := skip_space s in
  let '(negative, s2) :=
    match s1 with
    | String "-" rest => (true, rest)
    | String "+" rest => (false, rest)
    | _ => (false, s1)
    end in
  (fun z => if negative : bool then - z else z) <$> digits digit_val 10 None s2.

Definition integer_numbers : JsNumber (option Z) := {|
  num_zero := Some 0;
  num_truthy := fun n => match n with Some z => negb (z =? 0) | None => false end;
  num_isFinite := fun n => match n with Some _ => true | None => false end;
  num_toString := fun n => match n with Some z => Z_toString z | None => "NaN" end;
  parseFloat_string := parseFloat_integer
|}.

(** A page that talks to the server and whose storage never fills up. *)
Definition online_page : Host := {|
  USE_API := true;
  STORAGE_KEY := "repairflow_erp_data";
  API_URL := "";
  storage_accepts := fun _ _ _ => true
|}.

(** Sample data: a row of the inventory as the server sends it, the
    local record the pull makes of it, a change of the queue, and a world
    with a token, an open channel, the given records and the given
    version in memory and in storage. *)
Definition server_row (id : Z) (model : string) (price : Z) : jsval (option Z) :=
  JObj [
    ("id", JNum (Some id)); ("type", JStr "phone"); ("brand", JStr "Apple");
    ("model", JStr model); ("serial", JStr "SN-1"); ("source", JStr "trade-in");
    ("seller", JNull); ("buy_price", JNum (Some price));
    ("base_sell_price", JNum (Some (price + 50)));
    ("current_price", JNum (Some (price + 50))); ("sold_price", JNull);
    ("status", JStr "available"); ("visual_grade", JStr "A"); ("specs", JNull);
    ("created_at", JStr "2024-05-01"); ("warranty_months", JNull);
    ("warranty_expires", JNull); ("sold_date", JNull); ("sold_to", JNull);
    ("price_override_reason", JNull)
  ].

Definition local_record (row : jsval (option Z)) : jsval (option Z) :=
  match @local_item (option Z) integer_numbers row with
  | Ret item => item
  | Throw _ => JNull
  end.

Definition sample_change (act : string) (id : Z) (model : string) (t : Z)
  : change (option Z) :=
  {| action := act; itemData := local_record (server_row id model 100);
     timestamp := t |}.

Definition sample_world (records : list (jsval (option Z))) (v : Z)
    (queue : list (change (option Z))) : World (option Z) :=
  {| token := Some "tok";
     sessionStorage := {[ "auth_token" := "tok" ]};
     channel := true;
     lastSyncTimestamp := v;
     isSyncing := false;
     pendingChanges := queue;
     localStorage := {[ VERSION_KEY := Z_toString v ]};
     State_state := JObj [("inventory", JArr records)];
     posted := [];
     fetched := [];
     effects := [];
     pulls_in_flight := 0 |}.

Definition rowA : jsval (option Z) := server_row 1 "iPhone A" 100.
Definition rowC : jsval (option Z) := server_row 3 "iPhone C" 300.

(** The local snapshot holds record C at version 3000. *)
Definition world_C : World (option Z) := sample_world [local_record rowC] 3000 [].

(** A candidate older than the local snapshot, with other records. *)
Definition stale_candidate : candidate (option Z) :=
  {| cand_version := 2500; cand_rows := [rowA] |}.

(** A candidate with the records the local snapshot already has. *)
Definition same_candidate : candidate (option Z) :=
  {| cand_version := 3000; cand_rows := [rowC] |}.

Definition iso_time : string := "2024-05-02T10:00:00.000Z".

(** Two changes wait in the queue. *)
Definition queue_AC : list (change (option Z)) :=
  [sample_change "add" 1 "iPhone A" 2000; sample_change "update" 3 "iPhone C" 2100].

Definition world_queue : World (option Z) := sample_world [] 3000 queue_AC.

Definition one_change : change (option Z) := sample_change "add" 1 "iPhone A" 2000.

Definition world_one : World (option Z) := sample_world [] 3000 [one_change].

(** The server answers every request with 200 and a JSON body. *)
Definition always_ok : nat -> push_env (option Z) :=
  fun _ => (Response 200 (BodyJson (JObj [("id", JNum (Some 7))])), 4000).

(** The server answers every request with 500 and no JSON. *)
Definition always_500 : nat -> push_env (option Z) :=
  fun _ => (Response 500 (BodyBad "Unexpected token"), 4000).

(** The requests the two queued changes stand for. *)
Definition calls_AC : list fetch_call :=
  omap (@expected_call (option Z) integer_numbers online_page
          (headers_of world_queue)) queue_AC.

(** A message from another tab, stamped 5000. *)
Definition message_5000 : message (option Z) :=
  {| msg_action := "inventory_add"; version := 5000; data := JObj [];
     msg_timestamp := iso_time |}.

(** A tick starts a pull; ticks and a visibility event arrive while it is
    suspended; it settles; another tick starts the next one. *)
Definition busy_events : list (event (option Z)) :=
  [TimerTick; TimerTick; VisibilityVisible; TimerTick;
   PullSettled (deliver stale_candidate) 3100 iso_time; TimerTick].

(** The network is down: [fetch] rejects as Chrome does. *)
Definition network_down : nat -> push_env (option Z) :=
  fun _ => (NetError "Failed to fetch", 4000).

(** ** More pages and data *)

(** A page that keeps everything local. *)
Definition offline_page : Host := {|
  USE_API := false;
  STORAGE_KEY := "repairflow_erp_data";
  API_URL := "";
  storage_accepts := fun _ _ _ => true
|}.

(** A page whose storage has no room for the snapshot: only the version
    marker can be written. *)
Definition full_page : Host := {|
  USE_API := true;
  STORAGE_KEY := "repairflow_erp_data";
  API_URL := "";
  storage_accepts := fun _ k _ => String.eqb k VERSION_KEY
|}.

(** The first request of a drain is rejected, the others succeed. *)
Definition first_rejected : nat -> push_env (option Z) :=
  fun i =>
    match i with
    | O => (Response 500 (BodyBad "Unexpected token"), 4000)
    | S _ => (Response 200 (BodyJson (JObj [("id", JNum (Some 7))])), 4100)
    end.

(** The session has expired on the server. *)
Definition always_401 : nat -> push_env (option Z) :=
  fun _ => (Response 401 (BodyJson (JObj [("error", JStr "Unauthorized")])), 4000).

(** Two changes wait in the queue and nobody is logged in. *)
Definition world_logged_out : World (option Z) := with_token None world_queue.

(** Another tab has stored the marker 5000 while this one was hidden. *)
Definition world_behind : World (option Z) :=
  other_context_wrote VERSION_KEY (Some (Z_toString 5000)) world_C.

(** The server refuses a request and says why. *)
Definition duplicate_serial : response_body (option Z) :=
  BodyJson (JObj [("error", JStr "Serial already exists")]).

Definition post_options : options := {| opt_method := "POST"; opt_body := Some "{}" |}.






(** * Properties *)

Section Properties.
Context {num : Type} {numbers : JsNumber num} {page : Host}.

Local Abbreviation value := (jsval num).
Local Abbreviation keeps := (@keeps num _ _).

#[local] Arguments stringify : simpl never.
#[local] Arguments toString : simpl never.
#[local] Arguments Z_toString : simpl never.

Lemma keeps_ret {A B} (f : World num -> B) (a : A) : keeps f (ret a).
Proof. intros w; reflexivity. Qed.

Lemma keeps_throw {A B} (f : World num -> B) e : keeps f (throw (A := A) e).
Proof. intros w; reflexivity. Qed.

Lemma keeps_lift {A B} (f : World num -> B) (o : outcome A) : keeps f (lift o).
Proof. intros w; reflexivity. Qed.

Lemma keeps_gets {A B} (f : World num -> B) (g : World num -> A) : keeps f (gets g).
Proof. intros w; reflexivity. Qed.

Lemma keeps_modify {B} (f : World num -> B) (g : World num -> World num) :
  (forall w, f (g w) = f w) -> keeps f (modify g).
Proof. intros Hg w; apply Hg. Qed.

Lemma keeps_bind {A B C} (f : World num -> C) (c : M num A) (k : A -> M num B) :
  keeps f c -> (forall a, keeps f (k a)) -> keeps f (bind c k).
Proof.
  intros Hc Hk w. unfold bind.
  specialize (Hc w). destruct (c w) as [[a|e] w']; simpl in *.
  - rewrite Hk. exact Hc.
  - exact Hc.
Qed.

Lemma keeps_try_catch {A B} (f : World num -> B) (c : M num A) (h : string -> M num A) :
  keeps f c -> (forall e, keeps f (h e)) -> keeps f (try_catch c h).
Proof.
  intros Hc Hh w. unfold try_catch.
  specialize (Hc w). destruct (c w) as [[a|e] w']; simpl in *.
  - exact Hc.
  - rewrite Hh. exact Hc.
Qed.

Lemma keeps_try_finally {A B} (f : World num -> B) (c : M num A) g :
  keeps f c -> (forall w, f (g w) = f w) -> keeps f (try_finally c g).
Proof.
  intros Hc Hg w. unfold try_finally.
  specialize (Hc w). destruct (c w) as [r w']; simpl in *.
  rewrite Hg. exact Hc.
Qed.

Lemma keeps_when {B} (f : World num -> B) (b : bool) (c : M num unit) :
  keeps f c -> keeps f (when b c).
Proof. intros Hc. destruct b; [exact Hc | apply keeps_ret]. Qed.

Lemma keeps_effect {B} (f : World num -> B) (e : host_effect) :
  (forall l w, f (with_effects l w) = f w) -> keeps f (effect e).
Proof. intros Hf w. apply Hf. Qed.

Lemma keeps_localStorage_setItem {B} (f : World num -> B) k v :
  (forall m w, f (with_localStorage m w) = f w) ->
  keeps f (localStorage_setItem k v).
Proof.
  intros Hf w. unfold localStorage_setItem.
  destruct (storage_accepts _ _ _); simpl; [apply Hf | reflexivity].
Qed.

Lemma keeps_localStorage_getItem {B} (f : World num -> B) k :
  keeps f (localStorage_getItem k).
Proof. intros w; reflexivity. Qed.

Lemma keeps_sessionStorage_removeItem {B} (f : World num -> B) k :
  (forall m w, f (with_sessionStorage m w) = f w) ->
  keeps f (sessionStorage_removeItem k).
Proof. intros Hf w. apply Hf. Qed.

Create HintDb engine.

#[local] Hint Unfold
  pullFromServer pullFromServer_begin pullFromServer_resume checkForUpdates
  handleStorageChange handleSyncMessage broadcastChange on_storage handle
  request request_begin request_resume getHeaders clearToken State_get field
  get post put pushToServer push_add push_update push_sell retryPendingChanges
  : engine.

(** One step of a frame proof: peel a combinator, split a branch, or open
    the definition of an engine function. *)
Ltac keeps_step :=
  lazymatch goal with
  | |- keeps _ (bind _ _) => apply keeps_bind; [ | intros ? ]
  | |- keeps _ (ret _) => apply keeps_ret
  | |- keeps _ (throw _) => apply keeps_throw
  | |- keeps _ (lift _) => apply keeps_lift
  | |- keeps _ (gets _) => apply keeps_gets
  | |- keeps _ (modify _) => apply keeps_modify; intros; reflexivity
  | |- keeps _ (try_catch _ _) => apply keeps_try_catch; [ | intros ? ]
  | |- keeps _ (try_finally _ _) => apply keeps_try_finally; [ | intros; reflexivity ]
  | |- keeps _ (when _ _) => apply keeps_when
  | |- keeps _ (effect _) => apply keeps_effect; intros; reflexivity
  | |- keeps _ (localStorage_setItem _ _) =>
      apply keeps_localStorage_setItem; intros; reflexivity
  | |- keeps _ (localStorage_getItem _) => apply keeps_localStorage_getItem
  | |- keeps _ (sessionStorage_removeItem _) =>
      apply keeps_sessionStorage_removeItem; intros; reflexivity
  | |- keeps _ (if ?b then _ else _) => destruct b
  | |- keeps _ (match ?x with _ => _ end) => destruct x
  | |- keeps _ _ => progress autounfold with engine
  end.

Ltac keeps_auto := repeat keeps_step.

(** ** What a settling request touches *)

Lemma request_resume_keeps_localStorage fo :
  keeps (@localStorage num) (request_resume fo).
Proof. keeps_auto. Qed.

Lemma request_resume_keeps_lastSyncTimestamp fo :
  keeps (@lastSyncTimestamp num) (request_resume fo).
Proof. keeps_auto. Qed.

Lemma request_resume_keeps_fetched fo : keeps (@fetched num) (request_resume fo).
Proof. keeps_auto. Qed.

(** ** Frame properties of a settling pull *)

Lemma resume_clears_isSyncing (w : World num) fo now iso :
  isSyncing (run (pullFromServer_resume fo now iso) w) = false.
Proof.
  unfold run, pullFromServer_resume, bind, modify, try_finally; simpl.
  destruct (try_catch _ _ _); reflexivity.
Qed.

Lemma resume_keeps_fetched fo now iso :
  keeps (@fetched num) (pullFromServer_resume fo now iso).
Proof. keeps_auto. Qed.

(** ** What a settling request returns *)

Lemma response_ok_not_401 status : response_ok status = true -> (status =? 401) = false.
Proof. unfold response_ok. intros Hok. apply andb_prop in Hok. lia. Qed.

Lemma request_resume_ok status v (w : World num) :
  response_ok status = true ->
  request_resume (Response status (BodyJson v)) w = (Ret v, w).
Proof.
  intros Hok. unfold request_resume, try_catch.
  rewrite (response_ok_not_401 _ Hok), Hok. reflexivity.
Qed.

Lemma request_resume_401 payload (w : World num) :
  request_resume (Response 401 payload) w
  = (Throw "Session expired. Please login again.",
     with_effects (effects w ++ [AuthLogout])
       (with_sessionStorage (delete "auth_token" (sessionStorage w))
          (with_token None w))).
Proof. reflexivity. Qed.

Lemma request_resume_network_failure (w : World num) :
  request_resume (NetError "Failed to fetch") w
  = (Ret JNull,
     with_effects (effects w ++ [ConsoleWarn "Network error - using local fallback"]) w).
Proof. reflexivity. Qed.

(** A request returns either null, after a network failure, or the JSON
    body of a response with a success status. *)
Lemma request_resume_returns fo (w w' : World num) v :
  request_resume fo w = (Ret v, w') ->
  v = JNull \/
  exists status, fo = Response status (BodyJson v) /\ response_ok status = true.
Proof.
  unfold request_resume, try_catch, bind, lift, throw, ret, clearToken, effect,
    modify, sessionStorage_removeItem.
  intros Hrun.
  destruct fo as [e | status payload]; simpl in Hrun.
  - destruct (String.eqb e "Failed to fetch"); simpl in Hrun; [left | ]; congruence.
  - destruct (status =? 401); simpl in Hrun; [discriminate | ].
    destruct (response_ok status) eqn:Hok; simpl in Hrun.
    + destruct payload as [body | e]; simpl in Hrun.
      * right. exists status. split; [congruence | exact Hok].
      * destruct (String.eqb e "Failed to fetch"); simpl in Hrun; [left | ]; congruence.
    + destruct (get_prop _ "error") as [x | e]; simpl in Hrun;
        [destruct (ToString _) as [text | e]; simpl in Hrun | ];
        match type of Hrun with
        | context [String.eqb ?m "Failed to fetch"] =>
            destruct (String.eqb m "Failed to fetch"); simpl in Hrun
        end; first [left; congruence | discriminate].
Qed.

Lemma pullFromServer_resume_unfold fo now iso :
  pullFromServer_resume fo now iso
  = bind (modify (fun w => with_pulls_in_flight (pred (pulls_in_flight w)) w)) (fun _ =>
    try_finally
      (try_catch
         (bind (request_resume fo) (store_inventory now iso))
         (fun e => effect (ConsoleWarn ("Failed to pull from server: " +:+ e))))
      (with_isSyncing false)).
Proof. reflexivity. Qed.

Lemma text_differs_false a b : text_differs a b = false <-> a = b.
Proof. unfold text_differs. destruct (decide (a = b)); split; congruence. Qed.

Lemma text_differs_true a b : text_differs a b = true <-> a <> b.
Proof. unfold text_differs. destruct (decide (a = b)); split; congruence. Qed.

(** Identical text: nothing at all happens. *)
Lemma store_inventory_same now iso rows items cur (w : World num) :
  map_local_item rows = Ret items ->
  local_records w = Ret cur ->
  stringify cur = stringify (JArr items) ->
  store_inventory now iso (JArr rows) w = (Ret tt, w).
Proof.
  unfold local_records. intros Hmap Hcur Hsame.
  unfold store_inventory, when, bind, lift, State_get, field, gets; simpl.
  rewrite Hmap; simpl. rewrite Hcur; simpl.
  apply text_differs_false in Hsame. rewrite Hsame. reflexivity.
Qed.

Lemma assoc_get_set {V} k (v : V) l : assoc_get k (assoc_set k v l) = Some v.
Proof.
  induction l as [ | [k' v'] l IH]; simpl.
  - destruct (decide (k = k)); congruence.
  - destruct (decide (k = k')) as [Heq | Hne]; simpl.
    + destruct (decide (k = k)); congruence.
    + destruct (decide (k = k')); [contradiction | exact IH].
Qed.

(** Assigning a property that could be read does not throw; on an object
    the property then reads back. *)
Lemma set_prop_after_get (v x y : value) k :
  get_prop v k = Ret x ->
  exists v', set_prop v k y = Ret v' /\
             (forall props, v = JObj props -> get_prop v' k = Ret y).
Proof.
  destruct v; simpl; intros Hget; try discriminate;
    try solve [eexists; split; [reflexivity | intros ? [=]]].
  eexists; split; [reflexivity | ].
  intros ? _. simpl. rewrite assoc_get_set. reflexivity.
Qed.

(** Different text, storage willing: the records are replaced, both keys
    are written, the version is the clock reading, and the change is
    announced on the channel. *)
Lemma store_inventory_accept now iso rows items cur state' (w : World num) :
  map_local_item rows = Ret items ->
  local_records w = Ret cur ->
  stringify cur <> stringify (JArr items) ->
  set_prop (State_state w) "inventory" (JArr items) = Ret state' ->
  storage_accepts (localStorage w) STORAGE_KEY (text_arg (stringify state')) = true ->
  storage_accepts (<[STORAGE_KEY := text_arg (stringify state')]> (localStorage w))
    VERSION_KEY (Z_toString now) = true ->
  let w' := (store_inventory now iso (JArr rows) w).2 in
  (store_inventory now iso (JArr rows) w).1 = Ret tt /\
  State_state w' = state' /\
  localStorage w'
  = <[VERSION_KEY := Z_toString now]>
      (<[STORAGE_KEY := text_arg (stringify state')]> (localStorage w)) /\
  lastSyncTimestamp w' = now /\
  posted w'
  = (posted w ++ (if channel w
                  then [ {| msg_action := "inventory_sync"; version := now;
                            data := JObj []; msg_timestamp := iso |} ]
                  else []))%list.
Proof.
  unfold local_records. intros Hmap Hcur Hdiff Hset Hacc1 Hacc2.
  unfold store_inventory, broadcastChange, localStorage_setItem, effect, when,
    bind, lift, State_get, field, gets, modify, ret; simpl.
  rewrite Hmap; simpl. rewrite Hcur; simpl.
  apply text_differs_true in Hdiff. rewrite Hdiff.
  rewrite Hset; simpl. rewrite Hacc1; simpl. rewrite Hacc2; simpl.
  destruct (channel w); simpl; repeat split; try reflexivity.
  symmetry; apply app_nil_r.
Qed.

(** Whatever the request returned: either the stored snapshot, the
    version and the channel are as before, or the value was an array of
    rows whose records print differently from the local ones. *)
Lemma store_inventory_cases now iso inventory (w : World num) :
  let w' := (store_inventory now iso inventory w).2 in
  (localStorage w' = localStorage w /\
   lastSyncTimestamp w' = lastSyncTimestamp w /\
   posted w' = posted w) \/
  (exists rows items cur,
      inventory = JArr rows /\ map_local_item rows = Ret items /\
      local_records w = Ret cur /\
      stringify cur <> stringify (JArr items)).
Proof.
  unfold local_records, store_inventory.
  destruct (isArray inventory) eqn:Harr.
  - destruct inventory as [ | | b | n | t | rows | props];
      try (simpl in Harr; discriminate).
    unfold when, bind, lift, State_get, field, gets; simpl.
    destruct (map_local_item rows) as [items | e] eqn:Hmap; simpl;
      [ | left; repeat split; reflexivity].
    destruct (get_prop (State_state w) "inventory") as [cur | e]; simpl;
      [ | left; repeat split; reflexivity].
    destruct (text_differs (stringify cur) (stringify (JArr items))) eqn:Hdiff;
      [ | left; repeat split; reflexivity].
    right. exists rows, items, cur. apply text_differs_true in Hdiff. auto.
  - rewrite andb_false_r. left; repeat split; reflexivity.
Qed.

(** ** A settling pull, in one equation *)

Lemma resume_after_request fo now iso (w : World num) :
  run (pullFromServer_resume fo now iso) w
  = with_isSyncing false
      match request_resume fo (with_pulls_in_flight (pred (pulls_in_flight w)) w) with
      | (Ret v, w2) =>
          match store_inventory now iso v w2 with
          | (Ret _, w3) => w3
          | (Throw e, w3) => pull_warning e w3
          end
      | (Throw e, w2) => pull_warning e w2
      end.
Proof.
  unfold run. rewrite pullFromServer_resume_unfold.
  unfold bind at 1. unfold modify at 1. unfold try_finally, try_catch.
  unfold bind at 1.
  destruct (request_resume fo _) as [[v | e] w2]; simpl.
  - destruct (store_inventory now iso v w2) as [[u | e] w3]; reflexivity.
  - reflexivity.
Qed.

Lemma pulled_records_Some fo items :
  pulled_records fo = Some items ->
  exists status rows,
    fo = Response status (BodyJson (JArr rows)) /\
    response_ok status = true /\ map_local_item rows = Ret items.
Proof.
  unfold pulled_records. intros Hp.
  destruct fo as [ | status [v | ]]; try discriminate.
  destruct v as [ | | | | | rows | ]; try discriminate.
  destruct (response_ok status) eqn:Hok; try discriminate.
  destruct (map_local_item rows) as [xs | ] eqn:Hmap; try discriminate.
  exists status, rows. repeat split; congruence.
Qed.

Lemma resume_same_content fo now iso items cur (w : World num) :
  pulled_records fo = Some items ->
  local_records w = Ret cur ->
  stringify cur = stringify (JArr items) ->
  run (pullFromServer_resume fo now iso) w
  = with_isSyncing false (with_pulls_in_flight (pred (pulls_in_flight w)) w).
Proof.
  intros Hp Hcur Hsame.
  destruct (pulled_records_Some _ _ Hp) as (status & rows & -> & Hok & Hmap).
  rewrite resume_after_request, (request_resume_ok _ _ _ Hok).
  rewrite (store_inventory_same now iso rows items cur); auto.
Qed.

Lemma resume_write_needs_difference fo now iso (w : World num) :
  ~ persistent_unchanged w (run (pullFromServer_resume fo now iso) w) ->
  exists items cur,
    pulled_records fo = Some items /\ local_records w = Ret cur /\
    stringify cur <> stringify (JArr items).
Proof.
  rewrite resume_after_request. unfold persistent_unchanged.
  set (w1 := with_pulls_in_flight _ w).
  pose proof (request_resume_keeps_localStorage fo w1) as Hls.
  pose proof (request_resume_keeps_lastSyncTimestamp fo w1) as Hts.
  assert (posted (request_resume fo w1).2 = posted w1) as Hpo
      by (apply (ltac:(keeps_auto) : keeps (@posted num) (request_resume fo))).
  assert (State_state (request_resume fo w1).2 = State_state w1) as Hst
      by (apply (ltac:(keeps_auto) : keeps (@State_state num) (request_resume fo))).
  destruct (request_resume fo w1) as [[v | e] w2] eqn:Hreq; simpl in *.
  - intros Hchanged.
    destruct (store_inventory_cases now iso v w2) as [(H1 & H2 & H3) | Hacc].
    + exfalso. apply Hchanged.
      destruct (store_inventory now iso v w2) as [[u | e] w3]; simpl in *;
        rewrite H1, H2, H3, Hls, Hts, Hpo; auto.
    + destruct Hacc as (rows & items & cur & -> & Hmap & Hcur & Hdiff).
      exists items, cur. repeat split; auto.
      * destruct (request_resume_returns _ _ _ _ Hreq) as [Hnull | (status & -> & Hok)];
          [discriminate | ].
        simpl. rewrite Hok, Hmap. reflexivity.
      * unfold local_records in *. rewrite <- Hcur, Hst. reflexivity.
  - intros Hchanged. exfalso. apply Hchanged. rewrite Hls, Hts, Hpo. auto.
Qed.

(** ** Starting a pull *)

Lemma begin_blocked (w : World num) :
  may_pull w = false -> pullFromServer_begin w = (Ret tt, w).
Proof.
  intros Hno. unfold pullFromServer_begin, bind, gets. rewrite Hno. reflexivity.
Qed.

Lemma begin_starts (w : World num) :
  may_pull w = true ->
  pullFromServer_begin w
  = (Ret tt,
     with_pulls_in_flight (S (pulls_in_flight w))
       (with_fetched (fetched w ++ [inventory_call w]) (with_isSyncing true w))).
Proof.
  intros Hyes. unfold pullFromServer_begin, bind, gets. rewrite Hyes. reflexivity.
Qed.

Lemma may_pull_false_when_syncing (w : World num) :
  isSyncing w = true -> may_pull w = false.
Proof. unfold may_pull. intros ->. apply andb_false_r. Qed.

Lemma may_pull_false_without_token (w : World num) :
  token w = None -> may_pull w = false.
Proof.
  unfold may_pull, has_token. intros ->. rewrite andb_false_r. reflexivity.
Qed.

Lemma pullFromServer_run fo now iso (w : World num) :
  may_pull w = true ->
  run (pullFromServer fo now iso) w
  = run (pullFromServer_resume fo now iso) (run pullFromServer_begin w).
Proof.
  intros Hyes. unfold run, pullFromServer. unfold bind at 1. unfold gets at 1.
  rewrite Hyes. simpl. unfold bind at 1. rewrite (begin_starts w Hyes). reflexivity.
Qed.

Lemma pull_same_content fo now iso items cur (w : World num) :
  pulled_records fo = Some items ->
  local_records w = Ret cur ->
  stringify cur = stringify (JArr items) ->
  persistent_unchanged w (run (pullFromServer fo now iso) w) /\
  State_state (run (pullFromServer fo now iso) w) = State_state w.
Proof.
  intros Hp Hcur Hsame. destruct (may_pull w) eqn:Hpull.
  - rewrite (pullFromServer_run _ _ _ _ Hpull).
    assert (run pullFromServer_begin w
            = with_pulls_in_flight (S (pulls_in_flight w))
                (with_fetched (fetched w ++ [inventory_call w])
                   (with_isSyncing true w))) as ->
        by (unfold run; rewrite (begin_starts w Hpull); reflexivity).
    set (w1 := with_pulls_in_flight _ _).
    rewrite (resume_same_content fo now iso items cur w1 Hp Hcur Hsame).
    unfold persistent_unchanged. simpl. auto.
  - unfold run, pullFromServer, bind, gets. rewrite Hpull. simpl.
    unfold persistent_unchanged. auto.
Qed.

(** C4. Idempotence of pull: when a pull settles with records whose JSON
    text equals that of the local records, nothing is written to storage,
    the version is not changed and no message is posted, and the same
    holds of a whole pull from its start; conversely a settling pull that
    writes storage, changes the version or posts a message carried
    records whose text differs from the local ones. *)
Theorem pull_idempotent :
  (forall (w : World num) fo now iso items cur,
      pulled_records fo = Some items ->
      local_records w = Ret cur ->
      stringify cur = stringify (JArr items) ->
      let w' := run (pullFromServer_resume fo now iso) w in
      persistent_unchanged w w' /\ State_state w' = State_state w) /\
  (forall (w : World num) fo now iso items cur,
      pulled_records fo = Some items ->
      local_records w = Ret cur ->
      stringify cur = stringify (JArr items) ->
      let w' := run (pullFromServer fo now iso) w in
      persistent_unchanged w w' /\ State_state w' = State_state w) /\
  (forall (w : World num) fo now iso,
      ~ persistent_unchanged w (run (pullFromServer_resume fo now iso) w) ->
      exists items cur,
        pulled_records fo = Some items /\ local_records w = Ret cur /\
        stringify cur <> stringify (JArr items)).
Proof.
  split; [ | split].
  - intros w fo now iso items cur Hp Hcur Hsame w'. subst w'.
    rewrite (resume_same_content fo now iso items cur w Hp Hcur Hsame).
    unfold persistent_unchanged. simpl. auto.
  - intros w fo now iso items cur Hp Hcur Hsame. cbv zeta.
    apply (pull_same_content fo now iso items cur w Hp Hcur Hsame).
  - intros w fo now iso. apply resume_write_needs_difference.
Qed.

(** C10. A pull that starts sets [isSyncing]; when its request settles,
    whatever the outcome and whatever the world has become meanwhile,
    [isSyncing] is false again. *)
Theorem pull_always_clears_isSyncing (w : World num) :
  may_pull w = true ->
  isSyncing (run pullFromServer_begin w) = true /\
  (forall (w1 : World num) fo now iso,
      isSyncing (run (pullFromServer_resume fo now iso) w1) = false) /\
  (forall fo now iso, isSyncing (run (pullFromServer fo now iso) w) = false).
Proof.
  intros Hyes. split; [ | split].
  - unfold run. rewrite (begin_starts w Hyes). reflexivity.
  - intros w1 fo now iso. apply resume_clears_isSyncing.
  - intros fo now iso. rewrite (pullFromServer_run _ _ _ _ Hyes).
    apply resume_clears_isSyncing.
Qed.

Lemma single_flight_flight (w w' : World num) :
  flight w' = flight w -> single_flight w -> single_flight w'.
Proof. unfold flight, single_flight. intros [= -> ->]. auto. Qed.

Lemma begin_single_flight (w : World num) :
  single_flight w -> single_flight (run pullFromServer_begin w).
Proof.
  intros Hsf. unfold run. destruct (may_pull w) eqn:Hpull.
  - rewrite (begin_starts w Hpull). unfold single_flight in *; simpl.
    unfold may_pull in Hpull. destruct (isSyncing w).
    + rewrite andb_false_r in Hpull. discriminate.
    + rewrite Hsf. reflexivity.
  - rewrite (begin_blocked w Hpull). exact Hsf.
Qed.

Lemma store_inventory_keeps_pulls_in_flight now iso v :
  keeps (@pulls_in_flight num) (store_inventory now iso v).
Proof. unfold store_inventory. keeps_auto. Qed.

Lemma resume_pulls_in_flight fo now iso (w : World num) :
  pulls_in_flight (run (pullFromServer_resume fo now iso) w) = pred (pulls_in_flight w).
Proof.
  rewrite resume_after_request.
  set (w1 := with_pulls_in_flight _ w).
  assert (pulls_in_flight (request_resume fo w1).2 = pulls_in_flight w1) as Hreq
      by (apply (ltac:(keeps_auto) : keeps (@pulls_in_flight num) (request_resume fo))).
  destruct (request_resume fo w1) as [[v | e] w2]; simpl in *.
  - pose proof (store_inventory_keeps_pulls_in_flight now iso v w2) as Hst.
    destruct (store_inventory now iso v w2) as [[u | e] w3]; simpl in *;
      rewrite Hst, Hreq; reflexivity.
  - rewrite Hreq. reflexivity.
Qed.

Lemma resume_single_flight fo now iso (w : World num) :
  single_flight w -> single_flight (run (pullFromServer_resume fo now iso) w).
Proof.
  unfold single_flight. intros Hsf.
  rewrite resume_pulls_in_flight, resume_clears_isSyncing, Hsf.
  destruct (isSyncing w); reflexivity.
Qed.

Lemma broadcastChange_keeps_flight now iso act d :
  keeps flight (broadcastChange now iso act d).
Proof. keeps_auto. Qed.

Lemma handleSyncMessage_keeps_flight m : keeps flight (handleSyncMessage m).
Proof. keeps_auto. Qed.

Lemma on_storage_keeps_flight key newValue : keeps flight (on_storage key newValue).
Proof. keeps_auto. Qed.

Lemma checkForUpdates_run (w : World num) :
  run checkForUpdates w
  = let w1 := run check_version w in
    if USE_API && has_token w1 then run pullFromServer_begin w1 else w1.
Proof.
  unfold run, checkForUpdates, check_version, bind, gets, when, localStorage_getItem.
  simpl.
  destruct (lastSyncTimestamp w <? parseInt_or_0 (localStorage w !! VERSION_KEY));
    simpl; destruct USE_API; simpl; try reflexivity;
    match goal with |- context [has_token ?x] => destruct (has_token x) end;
    reflexivity.
Qed.

Lemma check_version_keeps_flight : keeps flight check_version.
Proof. unfold check_version. keeps_auto. Qed.

Lemma step_single_flight (w : World num) e :
  single_flight w -> single_flight (step w e).
Proof.
  intros Hsf. destruct e as [now iso act d | m | key newValue | | | fo now iso].
  - eapply single_flight_flight; [ | exact Hsf].
    apply broadcastChange_keeps_flight.
  - eapply single_flight_flight; [ | exact Hsf].
    apply handleSyncMessage_keeps_flight.
  - eapply single_flight_flight; [ | exact Hsf].
    unfold step, run, handle. unfold bind at 1. unfold modify at 1.
    rewrite on_storage_keeps_flight. reflexivity.
  - unfold step, handle. rewrite checkForUpdates_run. simpl.
    assert (single_flight (run check_version w)) as Hsf1
        by (eapply single_flight_flight; [apply check_version_keeps_flight | exact Hsf]).
    destruct (USE_API && has_token (run check_version w));
      [apply begin_single_flight | ]; exact Hsf1.
  - apply begin_single_flight, Hsf.
  - unfold step, handle. unfold run, bind at 1, gets at 1.
    destruct (pulls_in_flight w) eqn:Hn; [exact Hsf | ].
    apply resume_single_flight, Hsf.
Qed.

Lemma run_events_single_flight es (w : World num) :
  single_flight w -> single_flight (run_events w es).
Proof.
  revert w. induction es as [ | e es IH]; intros w Hsf; simpl.
  - exact Hsf.
  - apply IH, step_single_flight, Hsf.
Qed.

Lemma single_flight_at_most_one (w : World num) :
  single_flight w -> (pulls_in_flight w <= 1)%nat.
Proof. unfold single_flight. intros ->. destruct (isSyncing w); lia. Qed.

(** C5. Single-flight pulls: while a pull is in progress a timer tick or
    an explicit call of [pullFromServer] changes nothing, and a visibility
    event issues no request; hence, from a state in which the flag and
    the suspended pulls agree, after any sequence of events at most one
    pull is suspended at its request, and one is exactly when [isSyncing]
    is set. *)
Theorem single_flight_pulls (w : World num) (es : list (event num)) :
  single_flight w ->
  (isSyncing w = true ->
     step w TimerTick = w /\
     fetched (step w VisibilityVisible) = fetched w /\
     pulls_in_flight (step w VisibilityVisible) = pulls_in_flight w) /\
  (pulls_in_flight (run_events w es) <= 1)%nat /\
  single_flight (run_events w es).
Proof.
  intros Hsf. split; [ | split].
  - intros Hbusy. split; [ | split].
    + unfold step, handle, run.
      rewrite (begin_blocked w (may_pull_false_when_syncing w Hbusy)). reflexivity.
    + unfold step, handle. rewrite checkForUpdates_run. simpl.
      pose proof (check_version_keeps_flight w) as Hfl.
      injection Hfl as Hsync _.
      assert (fetched (run check_version w) = fetched w) as Hfe
          by (apply (ltac:(unfold check_version; keeps_auto)
                     : keeps (@fetched num) check_version)).
      unfold run in *.
      destruct (USE_API && has_token (check_version w).2); [ | exact Hfe].
      rewrite (begin_blocked _ (may_pull_false_when_syncing _
                 (eq_trans Hsync Hbusy))).
      exact Hfe.
    + unfold step, handle. rewrite checkForUpdates_run. simpl.
      pose proof (check_version_keeps_flight w) as Hfl.
      injection Hfl as Hsync Hpif.
      unfold run in *.
      destruct (USE_API && has_token (check_version w).2); [ | exact Hpif].
      rewrite (begin_blocked _ (may_pull_false_when_syncing _
                 (eq_trans Hsync Hbusy))).
      exact Hpif.
  - apply single_flight_at_most_one, run_events_single_flight, Hsf.
  - apply run_events_single_flight, Hsf.
Qed.

(** ** Expired credentials *)

Lemma halted_sending (w w' : World num) :
  sending w' = sending w -> halted w -> halted w' /\ fetched w' = fetched w.
Proof. unfold sending, halted. intros [= -> -> ->]. auto. Qed.

Lemma has_token_None (w : World num) : token w = None -> has_token w = false.
Proof. unfold has_token. intros ->. reflexivity. Qed.

Lemma broadcastChange_keeps_sending now iso act d :
  keeps sending (broadcastChange now iso act d).
Proof. keeps_auto. Qed.

Lemma handleSyncMessage_keeps_sending m : keeps sending (handleSyncMessage m).
Proof. keeps_auto. Qed.

Lemma on_storage_keeps_sending key newValue :
  keeps sending (on_storage key newValue).
Proof. keeps_auto. Qed.

Lemma check_version_keeps_sending : keeps sending check_version.
Proof. unfold check_version. keeps_auto. Qed.

Lemma step_halted (w : World num) e :
  halted w -> halted (step w e) /\ fetched (step w e) = fetched w.
Proof.
  intros Hh. pose proof Hh as [Htok Hpif].
  destruct e as [now iso act d | m | key newValue | | | fo now iso].
  - apply halted_sending; [ | exact Hh].
    apply broadcastChange_keeps_sending.
  - apply halted_sending; [ | exact Hh].
    apply handleSyncMessage_keeps_sending.
  - apply halted_sending; [ | exact Hh].
    unfold step, run, handle. unfold bind at 1. unfold modify at 1.
    rewrite on_storage_keeps_sending.
    reflexivity.
  - unfold step, handle. rewrite checkForUpdates_run. simpl.
    destruct (halted_sending w (run check_version w)) as [Hh1 Hfe1];
      [ apply check_version_keeps_sending
      | exact Hh | ].
    rewrite (has_token_None _ (proj1 Hh1)), andb_false_r.
    split; [exact Hh1 | exact Hfe1].
  - unfold step, handle, run.
    rewrite (begin_blocked w (may_pull_false_without_token w Htok)).
    split; [exact Hh | reflexivity].
  - unfold step, handle, run, bind, gets. simpl.
    rewrite Hpif. simpl. split; [exact Hh | reflexivity].
Qed.

Lemma run_events_halted es (w : World num) :
  halted w -> halted (run_events w es) /\ fetched (run_events w es) = fetched w.
Proof.
  revert w. induction es as [ | e es IH]; intros w Hh; simpl.
  - auto.
  - destruct (step_halted w e Hh) as [Hh1 Hfe1].
    destruct (IH _ Hh1) as [Hh2 Hfe2]. split; [exact Hh2 | congruence].
Qed.

Lemma pushToServer_without_token fo now act item (w : World num) :
  token w = None -> pushToServer fo now act item w = (Ret JNull, w).
Proof.
  intros Htok. unfold pushToServer, bind, gets, may_push.
  rewrite (has_token_None w Htok), andb_false_r. reflexivity.
Qed.

Lemma request_401 payload endpoint o (w : World num) :
  let c := request (Response 401 payload) endpoint o in
  result c w = Throw session_expired /\
  token (run c w) = None /\
  sessionStorage (run c w) !! "auth_token" = None /\
  effects (run c w) = (effects w ++ [AuthLogout])%list /\
  exists call, fetched (run c w) = (fetched w ++ [call])%list.
Proof.
  unfold result, run, request, request_begin, getHeaders, bind, gets, modify, ret.
  cbv zeta. rewrite request_resume_401. simpl.
  repeat split; try reflexivity.
  - apply lookup_delete_eq.
  - eexists. reflexivity.
Qed.

(** C9. Auth-expired handling: a request answered with status 401 is sent
    once, clears the token in memory and in session storage, calls
    [Auth.logout()] and throws the session-expired error; a pull that
    settles with 401 does the same and leaves the context halted; and
    while no token is held and no pull is suspended, no event of the
    context sends a request and no push does. *)
Theorem auth_expired_handling :
  (forall (w : World num) payload endpoint o,
      let c := request (Response 401 payload) endpoint o in
      result c w = Throw session_expired /\
      token (run c w) = None /\
      sessionStorage (run c w) !! "auth_token" = None /\
      effects (run c w) = (effects w ++ [AuthLogout])%list /\
      exists call, fetched (run c w) = (fetched w ++ [call])%list) /\
  (forall (w : World num) payload now iso,
      single_flight w ->
      let w' := run (pullFromServer_resume (Response 401 payload) now iso) w in
      halted w' /\ fetched w' = fetched w /\ In AuthLogout (effects w')) /\
  (forall (w : World num) es,
      halted w ->
      halted (run_events w es) /\ fetched (run_events w es) = fetched w) /\
  (forall (w : World num) fo now act item,
      token w = None -> pushToServer fo now act item w = (Ret JNull, w)).
Proof.
  split; [ | split; [ | split]].
  - intros w payload endpoint o. apply request_401.
  - intros w payload now iso Hsf w'. subst w'.
    pose proof (single_flight_at_most_one w Hsf) as Hle.
    rewrite resume_after_request, request_resume_401. unfold halted; simpl.
    repeat split; try reflexivity.
    + lia.
    + apply in_or_app. left. apply in_or_app. right. left. reflexivity.
  - intros w es. apply run_events_halted.
  - intros w fo now act item. apply pushToServer_without_token.
Qed.

(** ** One push *)

Lemma request_run fo endpoint o (w : World num) :
  request fo endpoint o w
  = request_resume fo
      (with_fetched (fetched w ++ [ {| url := API_URL +:+ endpoint;
                                       method := opt_method o;
                                       headers := headers_of w;
                                       body := opt_body o |} ]) w).
Proof. reflexivity. Qed.

Lemma pushToServer_run fo now act item (w : World num) :
  may_push w = true ->
  pushToServer fo now act item w
  = match submission act item with
    | Throw e => (Ret JNull, push_failed e now act item w)
    | Ret None => (Ret JUndefined, w)
    | Ret (Some r) =>
        match request_resume fo
                (with_fetched (fetched w ++ [call_for (headers_of w) r]) w) with
        | (Ret v, w2) => (Ret v, with_effects (effects w2 ++ [ConsoleLog (pr_log r)]) w2)
        | (Throw e, w2) => (Ret JNull, push_failed e now act item w2)
        end
    end.
Proof.
  intros Hpush. unfold pushToServer. unfold bind at 1. unfold gets at 1.
  rewrite Hpush. simpl. unfold try_catch, submission.
  destruct (String.eqb act "add"); [ | destruct (String.eqb act "update");
                                       [ | destruct (String.eqb act "sell") ] ].
  - unfold push_add, post. unfold bind at 1. unfold lift at 1.
    destruct (add_payload item) as [payload | e]; simpl; [ | reflexivity].
    unfold bind at 1. rewrite request_run. unfold call_for; simpl.
    destruct (request_resume fo _) as [[v | e] w2]; reflexivity.
  - unfold push_update, put. unfold bind at 1. unfold lift at 1.
    destruct (update_endpoint item) as [endpoint | e]; simpl; [ | reflexivity].
    unfold bind at 1. unfold lift at 1.
    destruct (update_payload item) as [payload | e]; simpl; [ | reflexivity].
    unfold bind at 1. rewrite request_run. unfold call_for; simpl.
    destruct (request_resume fo _) as [[v | e] w2]; reflexivity.
  - unfold push_sell, post. unfold bind at 1. unfold lift at 1.
    destruct (sell_endpoint item) as [endpoint | e]; simpl; [ | reflexivity].
    unfold bind at 1. unfold lift at 1.
    destruct (sell_payload item) as [payload | e]; simpl; [ | reflexivity].
    unfold bind at 1. rewrite request_run. unfold call_for; simpl.
    destruct (request_resume fo _) as [[v | e] w2]; reflexivity.
  - reflexivity.
Qed.

(** X1. What [request] returns.  When it returns at all, the value is
    either the JSON body of a response with a success status, or null.
    It does return the body of every response with a success status whose
    body parses, and it returns null when [fetch] fails with the message
    [Failed to fetch]; a [fetch] that fails with another message makes it
    throw that message. *)
Theorem request_contract endpoint o (w : World num) :
  (forall fo v,
      result (request fo endpoint o) w = Ret v ->
      v = JNull \/
      exists status, fo = Response status (BodyJson v) /\ response_ok status = true) /\
  (forall status v,
      response_ok status = true ->
      result (request (Response status (BodyJson v)) endpoint o) w = Ret v) /\
  result (request (NetError "Failed to fetch") endpoint o) w = Ret JNull /\
  (forall e,
      e <> "Failed to fetch" ->
      result (request (NetError e) endpoint o) w = Throw e).
Proof.
  unfold result. split; [ | split; [ | split]].
  - intros fo v. rewrite request_run.
    destruct (request_resume fo _) as [r w'] eqn:Hreq. simpl. intros ->.
    exact (request_resume_returns _ _ _ _ Hreq).
  - intros status v Hok. rewrite request_run, (request_resume_ok _ _ _ Hok).
    reflexivity.
  - reflexivity.
  - intros e Hne. rewrite request_run.
    unfold request_resume, try_catch, throw.
    apply String.eqb_neq in Hne. rewrite Hne. reflexivity.
Qed.

(** ** Draining the queue *)

Lemma push_success status v now act item r (w : World num) :
  may_push w = true ->
  submission act item = Ret (Some r) ->
  response_ok status = true ->
  pushToServer (Response status (BodyJson v)) now act item w
  = (Ret v,
     with_effects (effects w ++ [ConsoleLog (pr_log r)])
       (with_fetched (fetched w ++ [call_for (headers_of w) r]) w)).
Proof.
  intros Hpush Hsub Hok.
  rewrite (pushToServer_run _ _ _ _ _ Hpush), Hsub, (request_resume_ok _ _ _ Hok).
  reflexivity.
Qed.



(** ** Failed pushes *)

Lemma request_resume_rejected status m (w : World num) :
  (status =? 401) = false ->
  response_ok status = false ->
  request_resume (Response status (BodyBad m)) w = (Throw "Request failed", w).
Proof.
  intros H401 Hok. unfold request_resume, try_catch. rewrite H401, Hok. reflexivity.
Qed.

Lemma push_rejected fo e now act item r (w : World num) :
  may_push w = true ->
  submission act item = Ret (Some r) ->
  (forall w1 : World num, request_resume fo w1 = (Throw e, w1)) ->
  pushToServer fo now act item w
  = (Ret JNull,
     push_failed e now act item
       (with_fetched (fetched w ++ [call_for (headers_of w) r]) w)).
Proof.
  intros Hpush Hsub Hfo.
  rewrite (pushToServer_run _ _ _ _ _ Hpush), Hsub, Hfo. reflexivity.
Qed.

Lemma push_lost_on_network_failure now act item r (w : World num) :
  may_push w = true ->
  submission act item = Ret (Some r) ->
  pendingChanges (run (pushToServer (NetError "Failed to fetch") now act item) w)
  = pendingChanges w.
Proof.
  intros Hpush Hsub. unfold run.
  rewrite (pushToServer_run _ _ _ _ _ Hpush), Hsub, request_resume_network_failure.
  reflexivity.
Qed.

(** A drain of a queue holding one change whose request is rejected: the
    change is back in the queue, stamped with the time of the failure, and
    the engine may push again. *)
Lemma failing_drain_requeues env (c : change num) r (w : World num) :
  may_push w = true ->
  pendingChanges w = [c] ->
  submission (action c) (itemData c) = Ret (Some r) ->
  rejects (env 0%nat).1 ->
  let w' := run (retryPendingChanges env) w in
  pendingChanges w'
  = [ {| action := action c; itemData := itemData c; timestamp := (env 0%nat).2 |} ] /\
  may_push w' = true.
Proof.
  intros Hpush Hq Hsub (status & m & Hfo & H401 & Hok) w'. subst w'.
  unfold run, retryPendingChanges, bind, gets, modify. rewrite Hq.
  cbv iota beta. simpl for_changes. unfold bind. rewrite Hfo.
  rewrite (push_rejected _ "Request failed" _ _ _ r); auto.
  intros w1. apply request_resume_rejected; assumption.
Qed.

Lemma failing_drains_never_drop env (c : change num) r n (w : World num) :
  may_push w = true ->
  pendingChanges w = [c] ->
  submission (action c) (itemData c) = Ret (Some r) ->
  rejects (env 0%nat).1 ->
  let w' := drain_times env n w in
  (exists t, pendingChanges w'
             = [ {| action := action c; itemData := itemData c; timestamp := t |} ]) /\
  may_push w' = true.
Proof.
  intros Hpush Hq Hsub Hrej. induction n as [ | n [[t IHq] IHp]]; simpl.
  - split; [ | exact Hpush]. exists (timestamp c). rewrite Hq. destruct c; reflexivity.
  - destruct (failing_drain_requeues env _ r _ IHp IHq Hsub Hrej) as [Hq' Hp'].
    split; [ | exact Hp']. eexists. exact Hq'.
Qed.


(** ** Version markers *)

Lemma broadcastChange_run now iso act d (w : World num) :
  run (broadcastChange now iso act d) w
  = if storage_accepts (localStorage w) VERSION_KEY (Z_toString now)
    then
      with_posted
        (posted w ++ (if channel w
                      then [ {| msg_action := act; version := now; data := d;
                                msg_timestamp := iso |} ]
                      else []))
        (with_lastSyncTimestamp now
           (with_localStorage (<[VERSION_KEY := Z_toString now]> (localStorage w)) w))
    else w.
Proof.
  unfold run, broadcastChange, localStorage_setItem, bind, gets, modify, when, ret.
  destruct (storage_accepts _ _ _); simpl; [ | reflexivity].
  destruct (channel w); simpl; [reflexivity | ].
  rewrite app_nil_r. destruct w; reflexivity.
Qed.

(** C2, as the code has it.  The marker [broadcastChange] issues is the
    reading of the clock it takes, unchanged: it is what the context
    keeps, what is stored under the version key and what the message
    carries.  It therefore exceeds the marker the context held, or the
    one in storage, exactly when the reading does. *)
Theorem broadcastChange_stamps_clock (w : World num) now iso act d :
  storage_accepts (localStorage w) VERSION_KEY (Z_toString now) = true ->
  let w' := run (broadcastChange now iso act d) w in
  lastSyncTimestamp w' = now /\
  localStorage w' !! VERSION_KEY = Some (Z_toString now) /\
  (channel w = true ->
     posted w' = (posted w ++ [ {| msg_action := act; version := now; data := d;
                                   msg_timestamp := iso |} ])%list) /\
  (lastSyncTimestamp w < lastSyncTimestamp w' <-> lastSyncTimestamp w < now) /\
  (parseInt_or_0 (localStorage w !! VERSION_KEY) < lastSyncTimestamp w'
   <-> parseInt_or_0 (localStorage w !! VERSION_KEY) < now).
Proof.
  intros Hacc w'. subst w'. rewrite broadcastChange_run, Hacc. simpl.
  repeat split; try tauto.
  - apply lookup_insert_eq.
  - intros ->. reflexivity.
Qed.

Lemma broadcastChange_lastSync now iso act d (w : World num) :
  lastSyncTimestamp (run (broadcastChange now iso act d) w) = lastSyncTimestamp w \/
  lastSyncTimestamp (run (broadcastChange now iso act d) w) = now.
Proof.
  rewrite broadcastChange_run.
  destruct (storage_accepts _ _ _); simpl; auto.
Qed.

Lemma store_inventory_lastSync now iso v (w : World num) :
  lastSyncTimestamp (store_inventory now iso v w).2 = lastSyncTimestamp w \/
  lastSyncTimestamp (store_inventory now iso v w).2 = now.
Proof.
  remember (store_inventory now iso v w) as rw eqn:Hrw.
  unfold store_inventory, when, bind, lift, State_get, field, gets, modify, effect,
    localStorage_setItem in Hrw.
  destruct (truthy v && isArray v); simpl in Hrw; [ | subst rw; auto].
  destruct (map_local_item (array_items v)); simpl in Hrw; [ | subst rw; auto].
  destruct (get_prop (State_state w) "inventory"); simpl in Hrw; [ | subst rw; auto].
  destruct (text_differs _ _); simpl in Hrw; [ | subst rw; auto].
  destruct (set_prop _ _ _); simpl in Hrw; [ | subst rw; auto].
  destruct (storage_accepts _ _ _); simpl in Hrw; [ | subst rw; auto].
  match type of Hrw with
  | context [broadcastChange now iso ?a ?d ?x] =>
      pose proof (broadcastChange_lastSync now iso a d x) as Hb;
      unfold run in Hb; destruct (broadcastChange now iso a d x) as [[u | e] w3]
  end; subst rw; simpl in *; exact Hb.
Qed.

Lemma resume_lastSync fo now iso (w : World num) :
  lastSyncTimestamp (run (pullFromServer_resume fo now iso) w) = lastSyncTimestamp w \/
  lastSyncTimestamp (run (pullFromServer_resume fo now iso) w) = now.
Proof.
  rewrite resume_after_request.
  set (w1 := with_pulls_in_flight _ w).
  pose proof (request_resume_keeps_lastSyncTimestamp fo w1) as Hreq.
  destruct (request_resume fo w1) as [[v | e] w2]; simpl in *.
  - pose proof (store_inventory_lastSync now iso v w2) as Hst.
    destruct (store_inventory now iso v w2) as [[u | e] w3]; simpl in *;
      rewrite Hreq in Hst; exact Hst.
  - left. exact Hreq.
Qed.

(** ** Version monotonicity *)

Lemma handleSyncMessage_grows m (w : World num) :
  lastSyncTimestamp w <= lastSyncTimestamp (run (handleSyncMessage m) w).
Proof.
  unfold run, handleSyncMessage, bind, gets, when, effect, modify, ret.
  destruct (lastSyncTimestamp w <? version m) eqn:Hlt; simpl; lia.
Qed.

Lemma on_storage_grows key newValue (w : World num) :
  lastSyncTimestamp w <= lastSyncTimestamp (run (on_storage key newValue) w).
Proof.
  unfold run, on_storage, handleStorageChange, bind, gets, when, effect, modify, ret.
  destruct (_ || _); simpl; [ | lia].
  destruct (String.eqb key VERSION_KEY); simpl; [ | lia].
  destruct (lastSyncTimestamp w <? parseInt_or_0 newValue) eqn:Hlt; simpl; lia.
Qed.

Lemma check_version_grows (w : World num) :
  lastSyncTimestamp w <= lastSyncTimestamp (run check_version w).
Proof.
  unfold run, check_version, localStorage_getItem, bind, gets, when, effect, modify.
  simpl.
  destruct (lastSyncTimestamp w <? _) eqn:Hlt; simpl; lia.
Qed.

Lemma begin_keeps_lastSyncTimestamp :
  keeps (@lastSyncTimestamp num) pullFromServer_begin.
Proof. keeps_auto. Qed.

Lemma store_inventory_not_rows now iso v (w : World num) :
  isArray v = false -> store_inventory now iso v w = (Ret tt, w).
Proof.
  intros Harr. unfold store_inventory. rewrite Harr, andb_false_r. reflexivity.
Qed.

Lemma store_inventory_bad_rows now iso rows e (w : World num) :
  map_local_item rows = Throw e ->
  store_inventory now iso (JArr rows) w = (Throw e, w).
Proof.
  intros Hmap. unfold store_inventory, when, bind, lift. simpl.
  rewrite Hmap. reflexivity.
Qed.

(** A settling pull changes the version only when it is accepted and
    storage takes both its writes. *)
Lemma store_inventory_stamps now iso v (w : World num) :
  lastSyncTimestamp (store_inventory now iso v w).2 = lastSyncTimestamp w \/
  exists rows items cur state',
    v = JArr rows /\ map_local_item rows = Ret items /\
    local_records w = Ret cur /\
    text_differs (stringify cur) (stringify (JArr items)) = true /\
    set_prop (State_state w) "inventory" (JArr items) = Ret state' /\
    storage_accepts (localStorage w) STORAGE_KEY (text_arg (stringify state')) = true /\
    storage_accepts (<[STORAGE_KEY := text_arg (stringify state')]> (localStorage w))
      VERSION_KEY (Z_toString now) = true.
Proof.
  destruct (isArray v) eqn:Harr;
    [ | left; rewrite store_inventory_not_rows; [reflexivity | exact Harr] ].
  destruct v as [ | | | | | rows | ]; try discriminate.
  destruct (map_local_item rows) as [items | e] eqn:Hmap;
    [ | left; rewrite (store_inventory_bad_rows _ _ _ _ _ Hmap); reflexivity].
  remember (store_inventory now iso (JArr rows) w) as rw eqn:Hrw.
  unfold store_inventory, when, bind, lift, State_get, field, gets, modify, effect,
    localStorage_setItem in Hrw.
  simpl in Hrw. rewrite Hmap in Hrw. simpl in Hrw.
  unfold local_records.
  destruct (get_prop (State_state w) "inventory") as [cur | e] eqn:Hcur;
    simpl in Hrw; [ | subst rw; auto].
  destruct (text_differs (stringify cur) (stringify (JArr items))) eqn:Hdiff;
    simpl in Hrw; [ | subst rw; auto].
  destruct (set_prop (State_state w) "inventory" (JArr items)) as [state' | e] eqn:Hset;
    simpl in Hrw; [ | subst rw; auto].
  destruct (storage_accepts (localStorage w) STORAGE_KEY (text_arg (stringify state')))
    eqn:Hacc1; simpl in Hrw; [ | subst rw; auto].
  destruct (storage_accepts
              (<[STORAGE_KEY := text_arg (stringify state')]> (localStorage w))
              VERSION_KEY (Z_toString now)) eqn:Hacc2.
  - right. exists rows, items, cur, state'. repeat split; auto.
  - left. unfold broadcastChange, localStorage_setItem, bind in Hrw. simpl in Hrw.
    rewrite Hacc2 in Hrw. subst rw. reflexivity.
Qed.

Lemma resume_stamps fo now iso (w : World num) :
  lastSyncTimestamp (run (pullFromServer_resume fo now iso) w) = lastSyncTimestamp w \/
  exists items cur state',
    pulled_records fo = Some items /\
    local_records w = Ret cur /\
    text_differs (stringify cur) (stringify (JArr items)) = true /\
    set_prop (State_state w) "inventory" (JArr items) = Ret state' /\
    storage_accepts (localStorage w) STORAGE_KEY (text_arg (stringify state')) = true /\
    storage_accepts (<[STORAGE_KEY := text_arg (stringify state')]> (localStorage w))
      VERSION_KEY (Z_toString now) = true.
Proof.
  rewrite resume_after_request.
  set (w1 := with_pulls_in_flight _ w).
  pose proof (request_resume_keeps_lastSyncTimestamp fo w1) as Hts.
  pose proof (request_resume_keeps_localStorage fo w1) as Hls.
  assert (State_state (request_resume fo w1).2 = State_state w1) as Hst
      by (apply (ltac:(keeps_auto) : keeps (@State_state num) (request_resume fo))).
  destruct (request_resume fo w1) as [[v | e] w2] eqn:Hreq; simpl in *;
    [ | left; exact Hts].
  destruct (store_inventory_stamps now iso v w2)
    as [Hsame | (rows & items & cur & state' & -> & Hmap & Hcur & Hdiff & Hset &
                 Hacc1 & Hacc2)].
  - left. destruct (store_inventory now iso v w2) as [[u | e] w3]; simpl in *;
      rewrite Hsame; exact Hts.
  - right. exists items, cur, state'.
    destruct (request_resume_returns _ _ _ _ Hreq) as [Hnull | (status & -> & Hok)];
      [discriminate | ].
    unfold local_records in *. rewrite Hst in Hcur, Hset. rewrite Hls in Hacc1, Hacc2.
    split; [simpl; rewrite Hok, Hmap; reflexivity | ].
    split; [exact Hcur | ]. split; [exact Hdiff | ]. split; [exact Hset | ].
    split; [exact Hacc1 | exact Hacc2].
Qed.

Lemma step_grows (w : World num) e :
  match stamp_used w e with
  | Some now => lastSyncTimestamp w <= now
  | None => True
  end ->
  lastSyncTimestamp w <= lastSyncTimestamp (step w e).
Proof.
  destruct e as [now iso act d | m | key newValue | | | fo now iso]; simpl;
    intros Hstamp.
  - unfold step, handle. rewrite broadcastChange_run.
    destruct (storage_accepts _ _ _); simpl; lia.
  - apply handleSyncMessage_grows.
  - unfold step, handle, run. unfold bind at 1. unfold modify at 1.
    apply (on_storage_grows key newValue (other_context_wrote key newValue w)).
  - unfold step, handle. rewrite checkForUpdates_run. cbv zeta.
    pose proof (check_version_grows w) as Hcv.
    destruct (USE_API && has_token (run check_version w)); [ | exact Hcv].
    unfold run at 1. rewrite begin_keeps_lastSyncTimestamp. exact Hcv.
  - unfold step, handle, run. rewrite begin_keeps_lastSyncTimestamp. lia.
  - unfold step, handle, run, bind, gets.
    destruct (pulls_in_flight w) as [ | n]; simpl; [lia | ].
    destruct (resume_stamps fo now iso w)
      as [Heq | (items & cur & state' & Hp & Hcur & Hdiff & Hset & Hacc1 & Hacc2)].
    + unfold run in Heq. rewrite Heq. lia.
    + rewrite Hp, Hcur, Hdiff, Hset in Hstamp. cbv zeta in Hstamp.
      rewrite Hacc1, Hacc2 in Hstamp. simpl in Hstamp.
      destruct (resume_lastSync fo now iso w) as [Heq | Heq];
        unfold run in Heq; rewrite Heq; lia.
Qed.

Lemma run_events_grows es (w : World num) :
  stamps_not_behind w es ->
  lastSyncTimestamp w <= lastSyncTimestamp (run_events w es).
Proof.
  revert w. induction es as [ | e es IH]; intros w Hst; simpl in *.
  - lia.
  - destruct Hst as [He Hrest].
    pose proof (step_grows w e He). pose proof (IH _ Hrest). lia.
Qed.

Lemma stamps_not_behind_app es1 es2 (w : World num) :
  stamps_not_behind w (es1 ++ es2) ->
  stamps_not_behind (run_events w es1) es2.
Proof.
  revert w. induction es1 as [ | e es1 IH]; intros w Hst; simpl in *.
  - exact Hst.
  - apply IH, Hst.
Qed.

(** C3, as the code has it.  Along any sequence of local mutations,
    channel messages, storage events, visibility events, timer ticks and
    settling pulls in which no reading of the clock that is used as a
    stamp (by a local mutation whose marker storage takes, or by an
    accepted pull whose writes storage takes) is behind the version the
    context holds at that moment, [lastSyncTimestamp] never decreases: its
    value after any prefix is at most its value after the whole sequence.
    Readings that are not used, as those of failed or rejected pulls, are
    free. *)
Theorem lastSyncTimestamp_monotone (w : World num) es1 es2 :
  stamps_not_behind w (es1 ++ es2) ->
  lastSyncTimestamp (run_events w es1)
  <= lastSyncTimestamp (run_events w (es1 ++ es2)).
Proof.
  intros Hst. unfold run_events. rewrite foldl_app.
  apply run_events_grows, stamps_not_behind_app, Hst.
Qed.

(** ** Acceptance of a pull *)

(** A pull whose records print differently from the local ones. *)
Lemma store_inventory_differs now iso rows items cur state' (w : World num) :
  map_local_item rows = Ret items ->
  local_records w = Ret cur ->
  stringify cur <> stringify (JArr items) ->
  set_prop (State_state w) "inventory" (JArr items) = Ret state' ->
  store_inventory now iso (JArr rows) w
  = let text := text_arg (stringify state') in
    let w1 := with_State_state state' w in
    if storage_accepts (localStorage w) STORAGE_KEY text
    then
      let w2 := with_localStorage (<[STORAGE_KEY := text]> (localStorage w)) w1 in
      if storage_accepts (<[STORAGE_KEY := text]> (localStorage w))
           VERSION_KEY (Z_toString now)
      then
        let w3 := run (broadcastChange now iso "inventory_sync" (JObj [])) w2 in
        (Ret tt,
         with_effects (effects w3 ++ [ConsoleLog "Inventory synced from server"]) w3)
      else (Throw QuotaExceededError, w2)
    else (Throw QuotaExceededError, w1).
Proof.
  unfold local_records. intros Hmap Hcur Hdiff Hset.
  destruct w as [tok ses ch last syncing q ls st po fe ef pif]. simpl in Hcur, Hset.
  unfold store_inventory, when, bind, lift, State_get, field, gets. simpl.
  rewrite Hmap. simpl. rewrite Hcur. simpl.
  apply text_differs_true in Hdiff. rewrite Hdiff.
  cbv zeta. unfold run, broadcastChange, localStorage_setItem, bind, gets, modify,
    when, effect, ret. simpl.
  rewrite Hset. simpl.
  destruct (storage_accepts ls STORAGE_KEY _); [ | reflexivity].
  simpl.
  destruct (storage_accepts _ VERSION_KEY _); [ | reflexivity].
  destruct ch; reflexivity.
Qed.

(** C1, as the code has it.  When a pull settles with a candidate, the
    candidate is rejected, with storage, version, channel and records as
    they were, when its records print like the local ones.  A candidate
    whose records print differently is accepted whatever its marker: the
    records in memory are replaced; if local storage takes both writes,
    both storage keys are written and the version becomes the reading of
    the clock at that moment; if storage refuses the snapshot, storage,
    version and channel stay as they were; if it refuses only the marker,
    the snapshot is stored and the version and the channel stay as they
    were. *)
Theorem pull_accepts_by_content (w : World num) (c : candidate num) now iso items cur :
  map_local_item (cand_rows c) = Ret items ->
  local_records w = Ret cur ->
  let w' := run (pullFromServer_resume (deliver c) now iso) w in
  (stringify cur = stringify (JArr items) ->
     persistent_unchanged w w' /\ State_state w' = State_state w) /\
  (stringify cur <> stringify (JArr items) ->
     forall state',
       set_prop (State_state w) "inventory" (JArr items) = Ret state' ->
       let text := text_arg (stringify state') in
       State_state w' = state' /\
       (storage_accepts (localStorage w) STORAGE_KEY text = true ->
        storage_accepts (<[STORAGE_KEY := text]> (localStorage w))
          VERSION_KEY (Z_toString now) = true ->
        localStorage w'
        = <[VERSION_KEY := Z_toString now]> (<[STORAGE_KEY := text]> (localStorage w)) /\
        lastSyncTimestamp w' = now) /\
       (storage_accepts (localStorage w) STORAGE_KEY text = false ->
        persistent_unchanged w w') /\
       (storage_accepts (localStorage w) STORAGE_KEY text = true ->
        storage_accepts (<[STORAGE_KEY := text]> (localStorage w))
          VERSION_KEY (Z_toString now) = false ->
        localStorage w' = <[STORAGE_KEY := text]> (localStorage w) /\
        lastSyncTimestamp w' = lastSyncTimestamp w /\
        posted w' = posted w)).
Proof.
  intros Hmap Hcur w'. subst w'.
  assert (pulled_records (deliver c) = Some items) as Hp
      by (unfold pulled_records, deliver; simpl; rewrite Hmap; reflexivity).
  split.
  - intros Hsame.
    rewrite (resume_same_content _ now iso items cur w Hp Hcur Hsame).
    unfold persistent_unchanged. simpl. auto.
  - intros Hdiff state' Hset text.
    rewrite resume_after_request. unfold deliver.
    rewrite (request_resume_ok 200 _ _ eq_refl).
    set (w1 := with_pulls_in_flight _ w).
    rewrite (store_inventory_differs now iso (cand_rows c) items cur state' w1
               Hmap Hcur Hdiff Hset).
    cbv zeta. change (localStorage w1) with (localStorage w). fold text.
    destruct (storage_accepts (localStorage w) STORAGE_KEY text) eqn:Hacc1.
    + destruct (storage_accepts (<[STORAGE_KEY := text]> (localStorage w))
                  VERSION_KEY (Z_toString now)) eqn:Hacc2.
      * rewrite broadcastChange_run. simpl. rewrite Hacc2. simpl.
        split; [reflexivity | ]. split; [intros _ _; split; reflexivity | ].
        split; [intros [=] | intros _ [=]].
      * simpl.
        split; [reflexivity | ]. split; [intros _ [=] | ].
        split; [intros [=] | intros _ _; repeat split; reflexivity].
    + unfold persistent_unchanged. simpl.
      split; [reflexivity | ]. split; [intros [=] | ].
      split; [intros _; repeat split; reflexivity | intros [=]].
Qed.

(** * Further properties *)

(** ** Version markers as text *)

Ltac digit_cases d H :=
  let Hc := fresh "Hcases" in
  assert (d = 0 \/ d = 1 \/ d = 2 \/ d = 3 \/ d = 4 \/ d = 5 \/ d = 6 \/ d = 7 \/
          d = 8 \/ d = 9)%N as Hc by lia;
  clear H;
  repeat (destruct Hc as [-> | Hc]); [ .. | subst d].

Lemma digit_val_pretty_N_char d :
  (d < 10)%N -> digit_val (pretty_N_char d) = Some (Z.of_N d).
Proof. intros Hd. digit_cases d Hd; reflexivity. Qed.

Lemma digits_pretty_N_go x : forall s,
  digits digit_val 10 None (pretty_N_go x s)
  = if decide (x = 0)%N then digits digit_val 10 None s
    else digits digit_val 10 (Some (Z.of_N x)) s.
Proof.
  induction (N.lt_wf_0 x) as [x _ IH]. intros s.
  destruct (decide (x = 0)%N) as [-> | Hx].
  - rewrite pretty_N_go_0. reflexivity.
  - rewrite pretty_N_go_step by lia.
    rewrite IH by (apply N.div_lt; lia).
    pose proof (N.mod_lt x 10 ltac:(lia)) as Hmod.
    pose proof (N.div_mod x 10 ltac:(lia)) as Hdm.
    destruct (decide (x `div` 10 = 0)%N) as [Hq | Hq]; simpl;
      rewrite (digit_val_pretty_N_char _ Hmod); simpl; f_equal; f_equal; lia.
Qed.

Lemma pretty_N_go_shape x : forall s,
  (0 < x)%N ->
  exists c r, digit_char c /\ pretty_N_go x s = String c r /\
              (r = s \/ exists c' r', digit_char c' /\ r = String c' r').
Proof.
  induction (N.lt_wf_0 x) as [x _ IH]. intros s Hx.
  rewrite pretty_N_go_step by lia.
  pose proof (N.mod_lt x 10 ltac:(lia)) as Hmod.
  destruct (decide (x `div` 10 = 0)%N) as [Hq | Hq].
  - rewrite Hq, pretty_N_go_0. eexists _, _. split; [eexists; eauto | ]. split; eauto.
  - assert (x `div` 10 < x)%N as Hlt by (apply N.div_lt; lia).
    assert (0 < x `div` 10)%N as Hpos by (apply N.neq_0_lt_0; exact Hq).
    destruct (IH _ Hlt (String (pretty_N_char (x `mod` 10)) s) Hpos)
      as (c & r & Hc & Heq & Hr).
    exists c, r. split; [exact Hc | ]. split; [exact Heq | ]. right.
    destruct Hr as [-> | Hr]; [ | exact Hr].
    eexists _, _. split; [eexists; eauto | reflexivity].
Qed.

Lemma parseInt_magnitude_decimal c r :
  digit_char c ->
  (r = "" \/ exists c' r', digit_char c' /\ r = String c' r') ->
  parseInt_magnitude (String c r) = digits digit_val 10 None (String c r).
Proof.
  intros (d & Hd & ->) Hr.
  digit_cases d Hd; try reflexivity.
  destruct Hr as [-> | (c' & r' & (d' & Hd' & ->) & ->)]; [reflexivity | ].
  digit_cases d' Hd'; reflexivity.
Qed.

Lemma fmap_same (m : option Z) : (fun z : Z => z) <$> m = m.
Proof. destruct m; reflexivity. Qed.

Lemma parseInt_unsigned c r :
  digit_char c -> parseInt (String c r) = parseInt_magnitude (String c r).
Proof.
  intros (d & Hd & ->).
  digit_cases d Hd; unfold parseInt; simpl skip_space; cbv beta iota zeta;
    rewrite fmap_same; reflexivity.
Qed.

Lemma parseInt_negative t :
  parseInt (String "-" t) = Z.opp <$> parseInt_magnitude t.
Proof. reflexivity. Qed.

Lemma parseInt_pretty_N_go x :
  (0 < x)%N ->
  parseInt (pretty_N_go x "") = Some (Z.of_N x) /\
  parseInt_magnitude (pretty_N_go x "") = Some (Z.of_N x).
Proof.
  intros Hx.
  destruct (pretty_N_go_shape x "" Hx) as (c & r & Hc & Heq & Hr).
  pose proof (digits_pretty_N_go x "") as Hd.
  rewrite Heq in *.
  rewrite (parseInt_unsigned c r Hc), (parseInt_magnitude_decimal c r Hc Hr), Hd.
  destruct (decide (x = 0)%N); [lia | auto].
Qed.

(** The text of an integer parses back to it. *)
Lemma parseInt_Z_toString z : parseInt (Z_toString z) = Some z.
Proof.
  destruct z as [ | p | p].
  - reflexivity.
  - apply (parseInt_pretty_N_go (Npos p)). reflexivity.
  - change (Z_toString (Z.neg p)) with (String "-" (pretty_N_go (Npos p) "")).
    rewrite parseInt_negative.
    rewrite (proj2 (parseInt_pretty_N_go (Npos p) eq_refl)). reflexivity.
Qed.

Lemma parseInt_or_0_Z_toString z : parseInt_or_0 (Some (Z_toString z)) = z.
Proof. unfold parseInt_or_0. simpl. rewrite parseInt_Z_toString. reflexivity. Qed.

(** ** The credential *)

(** X2. The token round trip through session storage: [setToken] always
    holds the token in memory; when session storage takes it, a reload
    ([ApiService.init]) finds it again, and when storage refuses it,
    [setToken] throws and a reload falls back on what was stored before;
    after [clearToken] no token is held, before or after a reload. *)
Theorem token_survives_reload (w : World num) t :
  let w1 := run (setToken t) w in
  token w1 = Some t /\
  (if storage_accepts (sessionStorage w) "auth_token" t
   then result (setToken t) w = Ret tt /\
        token (run ApiService_init w1) = Some t
   else result (setToken t) w = Throw QuotaExceededError /\
        token (run ApiService_init w1) = sessionStorage w !! "auth_token") /\
  token (run clearToken w1) = None /\
  token (run ApiService_init (run clearToken w1)) = None.
Proof.
  unfold run, result, setToken, clearToken, ApiService_init, sessionStorage_setItem,
    sessionStorage_removeItem, bind, modify. simpl.
  destruct (storage_accepts (sessionStorage w) "auth_token" t) eqn:Hacc; simpl;
    rewrite ?Hacc; simpl; repeat split;
    try reflexivity; try apply lookup_insert_eq; try apply lookup_delete_eq.
Qed.

(** ** Requests *)

Lemma request_sync_state fo endpoint o : keeps sync_state (request fo endpoint o).
Proof. keeps_auto. Qed.

Lemma request_resume_keeps_credential fo (w : World num) :
  (forall payload, fo <> Response 401 payload) ->
  token (request_resume fo w).2 = token w /\
  sessionStorage (request_resume fo w).2 = sessionStorage w.
Proof.
  intros Hfo.
  unfold request_resume, try_catch, bind, lift, throw, ret, effect, modify.
  destruct fo as [e | status payload]; simpl.
  - destruct (String.eqb e "Failed to fetch"); auto.
  - destruct (status =? 401) eqn:H401.
    + exfalso. apply (Hfo payload). f_equal. lia.
    + destruct (negb (response_ok status)); simpl.
      * destruct (get_prop _ "error"); simpl;
          [destruct (ToString _); simpl | ];
          match goal with
          | |- context [String.eqb ?m "Failed to fetch"] =>
              destruct (String.eqb m "Failed to fetch")
          end; auto.
      * destruct payload as [v | e]; simpl; auto.
        destruct (String.eqb e "Failed to fetch"); auto.
Qed.

(** X3. [request] issues exactly one [fetch], to [API_URL] followed by
    the endpoint, with the caller's method and body and the headers of the
    moment; it touches nothing the synchronisation keeps; and it leaves the
    credential alone unless the response has status 401. *)
Theorem request_sends_once fo endpoint o (w : World num) :
  let w' := run (request fo endpoint o) w in
  fetched w' = (fetched w ++ [request_call w endpoint o])%list /\
  sync_state w' = sync_state w /\
  ((forall payload, fo <> Response 401 payload) ->
   token w' = token w /\ sessionStorage w' = sessionStorage w).
Proof.
  cbv zeta. split; [ | split].
  - unfold run. rewrite request_run, request_resume_keeps_fetched. reflexivity.
  - apply request_sync_state.
  - intros Hfo. unfold run. rewrite request_run.
    destruct (request_resume_keeps_credential fo
                (with_fetched (fetched w ++ [request_call w endpoint o]) w) Hfo)
      as [Htok Hses].
    unfold request_call in *. rewrite Htok, Hses. auto.
Qed.

(** X4. The error of a response whose status is neither a success nor
    401.  A body that is not JSON gives the message [Request failed]; so
    does a JSON object without an [error]; an object with a text under
    [error] gives that text; a JSON [null] makes reading [error] throw.
    One text is special: an [error] reading [Failed to fetch] is taken for
    a network failure, and [request] returns null instead of throwing. *)
Theorem request_error_text status endpoint o (w : World num) :
  (status =? 401) = false ->
  response_ok status = false ->
  let failing body := result (request (Response status body) endpoint o) w in
  (forall m, failing (BodyBad m) = Throw "Request failed") /\
  (forall props,
      assoc_get "error" props = None ->
      failing (BodyJson (JObj props)) = Throw "Request failed") /\
  (forall props msg,
      assoc_get "error" props = Some (JStr msg) ->
      msg <> "" -> msg <> "Failed to fetch" ->
      failing (BodyJson (JObj props)) = Throw msg) /\
  (forall props,
      assoc_get "error" props = Some (JStr "Failed to fetch") ->
      failing (BodyJson (JObj props)) = Ret JNull) /\
  failing (BodyJson JNull) = Throw TypeError_null.
Proof.
  intros H401 Hok failing. subst failing. cbv beta.
  unfold result. setoid_rewrite request_run.
  unfold request_resume, try_catch, bind, lift, throw, ret, effect, modify.
  rewrite H401, Hok. simpl.
  split; [ | split; [ | split; [ | split]]].
  - intros m. reflexivity.
  - intros props ->. reflexivity.
  - intros props msg -> Hne Hnf. simpl. unfold js_or. simpl.
    apply String.eqb_neq in Hne. rewrite Hne. simpl.
    change (toString (JStr msg)) with msg.
    apply String.eqb_neq in Hnf. rewrite Hnf. reflexivity.
  - intros props ->. reflexivity.
  - reflexivity.
Qed.

(** ** Notifications that carry nothing new *)

Lemma with_localStorage_same (w : World num) : with_localStorage (localStorage w) w = w.
Proof. destruct w; reflexivity. Qed.

Lemma check_version_current (w : World num) :
  parseInt_or_0 (localStorage w !! VERSION_KEY) <= lastSyncTimestamp w ->
  check_version w = (Ret tt, w).
Proof.
  intros Hle. unfold check_version, localStorage_getItem, bind, gets, when. simpl.
  destruct (lastSyncTimestamp w <? _) eqn:Hlt; [lia | reflexivity].
Qed.

Lemma handleSyncMessage_stale m (w : World num) :
  version m <= lastSyncTimestamp w -> handleSyncMessage m w = (Ret tt, w).
Proof.
  intros Hle. unfold handleSyncMessage, bind, gets, when. simpl.
  destruct (lastSyncTimestamp w <? version m) eqn:Hlt; [lia | reflexivity].
Qed.

Lemma on_storage_stale key newValue (w : World num) :
  parseInt_or_0 newValue <= lastSyncTimestamp w ->
  on_storage key newValue w = (Ret tt, w).
Proof.
  intros Hle. unfold on_storage, handleStorageChange, bind, gets, when. simpl.
  destruct (_ || _); [ | reflexivity].
  destruct (String.eqb key VERSION_KEY); [ | reflexivity].
  destruct (lastSyncTimestamp w <? parseInt_or_0 newValue) eqn:Hlt; [lia | reflexivity].
Qed.

Lemma on_storage_other_key key newValue (w : World num) :
  key <> VERSION_KEY -> on_storage key newValue w = (Ret tt, w).
Proof.
  intros Hne. unfold on_storage, handleStorageChange, when.
  apply String.eqb_neq in Hne. rewrite Hne.
  destruct (_ || _); reflexivity.
Qed.

Lemma handleSyncMessage_newer m (w : World num) :
  lastSyncTimestamp w < version m ->
  run (handleSyncMessage m) w
  = with_effects (effects w ++ [ConsoleLog "Sync received from another tab";
                                AppRefresh;
                                ToastInfo "Data updated from another tab"])
      (with_lastSyncTimestamp (version m) w).
Proof.
  intros Hlt. unfold run, handleSyncMessage, bind, gets, when, effect, modify. simpl.
  destruct (lastSyncTimestamp w <? version m) eqn:Hltb; [ | lia].
  simpl. rewrite <- !app_assoc. reflexivity.
Qed.

Lemma on_storage_newer v (w : World num) :
  lastSyncTimestamp w < v ->
  run (on_storage VERSION_KEY (Some (Z_toString v))) w
  = with_effects (effects w ++ [ConsoleLog "Storage sync detected";
                                AppRefresh;
                                ToastInfo "Data synchronized"])
      (with_lastSyncTimestamp v w).
Proof.
  intros Hlt.
  unfold run, on_storage, handleStorageChange, bind, gets, when, effect, modify.
  rewrite parseInt_or_0_Z_toString. simpl.
  destruct (lastSyncTimestamp w <? v) eqn:Hltb; [ | lia].
  simpl. rewrite <- !app_assoc. reflexivity.
Qed.

Lemma begin_keeps_effects : keeps (@effects num) pullFromServer_begin.
Proof. keeps_auto. Qed.

Lemma Z_toString_not_empty v : String.eqb (Z_toString v) "" = false.
Proof.
  apply String.eqb_neq. intros Hempty.
  pose proof (parseInt_Z_toString v) as Hparse.
  rewrite Hempty in Hparse. discriminate.
Qed.

(** X5. What [broadcastChange] stores reads back as the marker it kept:
    the text under the version key parses to the clock reading.  Hence the
    context is never refreshed by its own change: a visibility check, a
    storage event carrying that text and a channel message carrying that
    version all find nothing newer. *)
Theorem own_broadcast_reads_back (w : World num) now iso act d :
  storage_accepts (localStorage w) VERSION_KEY (Z_toString now) = true ->
  let w' := run (broadcastChange now iso act d) w in
  parseInt_or_0 (localStorage w' !! VERSION_KEY) = lastSyncTimestamp w' /\
  lastSyncTimestamp w' = now /\
  lastSyncTimestamp (run checkForUpdates w') = now /\
  effects (run checkForUpdates w') = effects w' /\
  run (on_storage VERSION_KEY (Some (Z_toString now))) w' = w' /\
  run (handleSyncMessage {| msg_action := act; version := now; data := d;
                            msg_timestamp := iso |}) w' = w'.
Proof.
  intros Hacc w'. subst w'. rewrite broadcastChange_run, Hacc.
  set (w1 := with_posted _ _).
  assert (parseInt_or_0 (localStorage w1 !! VERSION_KEY) = now) as Hread.
  { subst w1. simpl. rewrite lookup_insert_eq. apply parseInt_or_0_Z_toString. }
  assert (lastSyncTimestamp w1 = now) as Hlast by reflexivity.
  assert (run check_version w1 = w1) as Hcheck
      by (unfold run; rewrite check_version_current; [reflexivity | lia]).
  split; [congruence | ]. split; [exact Hlast | ].
  split; [ | split; [ | split]].
  - rewrite checkForUpdates_run. cbv zeta. rewrite Hcheck.
    destruct (USE_API && has_token w1); [ | exact Hlast].
    unfold run. rewrite begin_keeps_lastSyncTimestamp. exact Hlast.
  - rewrite checkForUpdates_run. cbv zeta. rewrite Hcheck.
    destruct (USE_API && has_token w1); [ | reflexivity].
    unfold run. apply begin_keeps_effects.
  - unfold run. rewrite on_storage_stale; [reflexivity | ].
    rewrite parseInt_or_0_Z_toString. lia.
  - unfold run. rewrite handleSyncMessage_stale; [reflexivity | simpl; lia].
Qed.

(** X6. A change made in another context reaches this one twice, as a
    channel message and as a storage event for the version key.  Whichever
    comes first, the context takes the version and refreshes the view once;
    the second notification finds nothing newer. *)
Theorem sibling_notified_once (w : World num) m :
  lastSyncTimestamp w < version m ->
  let by_storage := StorageEvent VERSION_KEY (Some (Z_toString (version m))) in
  let w1 := run_events w [ChannelMessage m; by_storage] in
  let w2 := run_events w [by_storage; ChannelMessage m] in
  lastSyncTimestamp w1 = version m /\
  lastSyncTimestamp w2 = version m /\
  effects w1 = (effects w ++ [ConsoleLog "Sync received from another tab";
                              AppRefresh;
                              ToastInfo "Data updated from another tab"])%list /\
  effects w2 = (effects w ++ [ConsoleLog "Storage sync detected";
                              AppRefresh;
                              ToastInfo "Data synchronized"])%list /\
  localStorage w1 = <[VERSION_KEY := Z_toString (version m)]> (localStorage w) /\
  localStorage w2 = localStorage w1.
Proof.
  intros Hlt. cbv zeta. unfold run_events. simpl foldl.
  unfold step, handle.
  rewrite (handleSyncMessage_newer m w Hlt).
  assert (forall (c : M num unit) (x : World num),
             run (bind (modify (other_context_wrote VERSION_KEY
                                  (Some (Z_toString (version m))))) (fun _ => c)) x
             = run c (other_context_wrote VERSION_KEY
                        (Some (Z_toString (version m))) x)) as Hwrote
      by reflexivity.
  rewrite !Hwrote.
  set (w1 := with_effects _ (with_lastSyncTimestamp (version m) w)).
  assert (run (on_storage VERSION_KEY (Some (Z_toString (version m))))
              (other_context_wrote VERSION_KEY (Some (Z_toString (version m))) w1)
          = other_context_wrote VERSION_KEY (Some (Z_toString (version m))) w1) as ->.
  { unfold run. rewrite on_storage_stale; [reflexivity | ].
    rewrite parseInt_or_0_Z_toString. simpl. lia. }
  rewrite (on_storage_newer (version m)) by exact Hlt.
  set (w2 := with_effects _ (with_lastSyncTimestamp (version m) _)).
  assert (run (handleSyncMessage m) w2 = w2) as ->
      by (unfold run; rewrite handleSyncMessage_stale; [reflexivity | simpl; lia]).
  repeat split; reflexivity.
Qed.

(** ** Starting a context *)

Lemma init_run bc now (w : World num) :
  init bc now w
  = let w0 := {| token := token w; sessionStorage := sessionStorage w;
                 channel := bc || channel w;
                 lastSyncTimestamp := lastSyncTimestamp w; isSyncing := isSyncing w;
                 pendingChanges := pendingChanges w; localStorage := localStorage w;
                 State_state := State_state w; posted := posted w;
                 fetched := fetched w; effects := effects w;
                 pulls_in_flight := pulls_in_flight w |} in
    let started (w1 : World num) :=
      (Ret tt,
       with_effects (effects w1 ++ [ConsoleLog "SyncManager initialized"])
         (with_lastSyncTimestamp (parseInt_or_0 (localStorage w1 !! VERSION_KEY)) w1)) in
    if match localStorage w !! VERSION_KEY with
       | Some t => String.eqb t ""
       | None => true
       end
    then
      if storage_accepts (localStorage w) VERSION_KEY (Z_toString now)
      then started (with_localStorage
                      (<[VERSION_KEY := Z_toString now]> (localStorage w)) w0)
      else (Throw QuotaExceededError, w0)
    else started w0.
Proof.
  unfold init, bind, modify, localStorage_getItem, localStorage_setItem, gets, when,
    effect, ret. simpl.
  destruct (match localStorage w !! VERSION_KEY with
            | Some t => String.eqb t ""
            | None => true
            end); simpl; [ | reflexivity].
  destruct (storage_accepts _ _ _); reflexivity.
Qed.

(** X7. [SyncManager.init] establishes the version of a context.  If
    storage holds the marker another context wrote, an integer that a
    double holds exactly, the context starts at that marker and storage is
    not written.  If storage holds no marker (or an empty one), the reading
    of the clock is stored and becomes the version; should storage refuse
    it, [init] throws with the version untouched.  Whenever [init] returns
    and the stored marker parses to an integer that a double holds exactly,
    that integer is the version of the context. *)
Theorem init_establishes_version (w : World num) bc now :
  let w' := run (init bc now) w in
  channel w' = bc || channel w /\
  (forall v,
      exactly_parsed v ->
      localStorage w !! VERSION_KEY = Some (Z_toString v) ->
      localStorage w' = localStorage w /\ lastSyncTimestamp w' = v) /\
  (localStorage w !! VERSION_KEY = None \/ localStorage w !! VERSION_KEY = Some "" ->
   if storage_accepts (localStorage w) VERSION_KEY (Z_toString now)
   then localStorage w' = <[VERSION_KEY := Z_toString now]> (localStorage w) /\
        lastSyncTimestamp w' = now
   else result (init bc now) w = Throw QuotaExceededError /\
        localStorage w' = localStorage w /\
        lastSyncTimestamp w' = lastSyncTimestamp w) /\
  (result (init bc now) w = Ret tt ->
   exactly_parsed (parseInt_or_0 (localStorage w' !! VERSION_KEY)) ->
   lastSyncTimestamp w' = parseInt_or_0 (localStorage w' !! VERSION_KEY)).
Proof.
  cbv zeta. unfold run, result. rewrite init_run. cbv zeta.
  split; [ | split; [ | split]].
  - destruct (match localStorage w !! VERSION_KEY with
              | Some t => String.eqb t ""
              | None => true
              end); [ | reflexivity].
    destruct (storage_accepts _ _ _); reflexivity.
  - intros v _ Hv. rewrite Hv, Z_toString_not_empty. simpl. rewrite Hv.
    split; [reflexivity | apply parseInt_or_0_Z_toString].
  - intros [-> | ->]; simpl;
      (destruct (storage_accepts _ _ _); simpl;
       [ rewrite lookup_insert_eq; split; [reflexivity | apply parseInt_or_0_Z_toString]
       | auto ]).
  - destruct (match localStorage w !! VERSION_KEY with
              | Some t => String.eqb t ""
              | None => true
              end); [ | intros _ _; reflexivity].
    destruct (storage_accepts _ _ _); simpl; [intros _ _; reflexivity | discriminate].
Qed.

(** ** Rows and records *)


Lemma method_toString_Ret (v : value) t :
  method_toString v = Ret t -> t = toString v /\ v <> JNull /\ v <> JUndefined.
Proof.
  unfold method_toString, ToString.
  destruct v as [ | | b | n | s | l | props]; try discriminate;
    try (destruct (convertible _); [ | discriminate]);
    try (destruct (assoc_get "toString" props); [discriminate | ]);
    intros [= <-]; repeat split; discriminate.
Qed.



(** What a mapped row looks like. *)
Lemma local_item_Ret (row x : value) :
  local_item row = Ret x ->
  exists props idv buy base_sell current sell,
    row = JObj props /\
    assoc_get "id" props = Some idv /\
    method_toString idv = Ret (toString idv) /\
    parseFloat (default JUndefined (assoc_get "buy_price" props)) = Ret buy /\
    parseFloat (default JUndefined (assoc_get "base_sell_price" props)) = Ret base_sell /\
    parseFloat (default JUndefined (assoc_get "current_price" props)) = Ret current /\
    (if truthy (default JUndefined (assoc_get "sold_price" props))
     then parseFloat (default JUndefined (assoc_get "sold_price" props))
     else Ret JNull) = Ret sell /\
    local_item row
    = Ret (JObj [
        ("id", JStr (toString idv));
        ("type", default JUndefined (assoc_get "type" props));
        ("brand", default JUndefined (assoc_get "brand" props));
        ("model", default JUndefined (assoc_get "model" props));
        ("serial", default JUndefined (assoc_get "serial" props));
        ("source", default JUndefined (assoc_get "source" props));
        ("seller", js_or (default JUndefined (assoc_get "seller" props)) (JStr ""));
        ("buy", buy);
        ("base_sell_price", base_sell);
        ("current_price", current);
        ("sell", sell);
        ("status", default JUndefined (assoc_get "status" props));
        ("visual", default JUndefined (assoc_get "visual_grade" props));
        ("specs", js_or (default JUndefined (assoc_get "specs" props)) (JStr ""));
        ("date", default JUndefined (assoc_get "created_at" props));
        ("warranty_months",
           js_or (default JUndefined (assoc_get "warranty_months" props))
                 (JNum num_zero));
        ("warranty_expires", default JUndefined (assoc_get "warranty_expires" props));
        ("sold_date", default JUndefined (assoc_get "sold_date" props));
        ("sold_to", default JUndefined (assoc_get "sold_to" props));
        ("price_override",
           if truthy (default JUndefined (assoc_get "price_override_reason" props))
           then JObj [("reason",
                       default JUndefined (assoc_get "price_override_reason" props))]
           else JNull)
      ]).
Proof.
  intros Hrow.
  destruct row as [ | | b | n | s | l | props]; try discriminate.
  unfold local_item in *. cbn [get_prop obind] in *.
  destruct (assoc_get "id" props) as [idv | ] eqn:Hid; [ | discriminate].
  cbn [default] in *. change (id idv) with idv in *.
  destruct (method_toString idv) as [t | e] eqn:Htext; [ | discriminate].
  destruct (method_toString_Ret idv t Htext) as (-> & _ & _).
  cbn [obind] in *.
  destruct (parseFloat (default JUndefined (assoc_get "buy_price" props)))
    as [buy | e] eqn:Hbuy; [ | discriminate].
  cbn [obind] in *.
  destruct (parseFloat (default JUndefined (assoc_get "base_sell_price" props)))
    as [base_sell | e] eqn:Hbase; [ | discriminate].
  cbn [obind] in *.
  destruct (parseFloat (default JUndefined (assoc_get "current_price" props)))
    as [current | e] eqn:Hcur; [ | discriminate].
  cbn [obind] in *.
  destruct (if truthy (default JUndefined (assoc_get "sold_price" props))
            then parseFloat (default JUndefined (assoc_get "sold_price" props))
            else Ret JNull) as [sell | e] eqn:Hsell; [ | discriminate].
  exists props, idv, buy, base_sell, current, sell.
  repeat split; try reflexivity; assumption.
Qed.


(** ** What a settling pull does to memory and storage *)

(** The body of the pull on rows that map to records, when the snapshot
    in memory is an object. *)
Lemma store_inventory_rows now iso rows items props (w : World num) :
  map_local_item rows = Ret items ->
  State_state w = JObj props ->
  store_inventory now iso (JArr rows) w
  = if text_differs (stringify (default JUndefined (assoc_get "inventory" props)))
                    (stringify (JArr items))
    then
      let state' := JObj (assoc_set "inventory" (JArr items) props) in
      let w1 := with_State_state state' w in
      if storage_accepts (localStorage w) STORAGE_KEY (text_arg (stringify state'))
      then
        let w2 := with_localStorage
                    (<[STORAGE_KEY := text_arg (stringify state')]> (localStorage w))
                    w1 in
        if storage_accepts (localStorage w2) VERSION_KEY (Z_toString now)
        then
          let w3 := run (broadcastChange now iso "inventory_sync" (JObj [])) w2 in
          (Ret tt,
           with_effects (effects w3 ++ [ConsoleLog "Inventory synced from server"]) w3)
        else (Throw QuotaExceededError, w2)
      else (Throw QuotaExceededError, w1)
    else (Ret tt, w).
Proof.
  intros Hmap Hst. destruct w as [tok ses ch last syncing q ls st po fe ef pif].
  simpl in Hst. subst st.
  unfold store_inventory, when, bind, lift, State_get, field, gets. simpl.
  rewrite Hmap. simpl.
  destruct (text_differs _ _); [ | reflexivity].
  cbv zeta. unfold run, broadcastChange, localStorage_setItem, bind, gets, modify,
    when, effect, ret. simpl.
  destruct (storage_accepts ls STORAGE_KEY _); [ | reflexivity].
  simpl.
  destruct (storage_accepts _ VERSION_KEY _); [ | reflexivity].
  destruct ch; reflexivity.
Qed.

Lemma request_resume_keeps_State_state fo :
  keeps (@State_state num) (request_resume fo).
Proof. keeps_auto. Qed.

Lemma request_resume_keeps_pendingChanges fo :
  keeps (@pendingChanges num) (request_resume fo).
Proof. keeps_auto. Qed.

Lemma request_resume_keeps_posted fo : keeps (@posted num) (request_resume fo).
Proof. keeps_auto. Qed.

(** X9. A pull that brings no records changes nothing.  When the request
    fails, or the response is not a success, or its body is not an array,
    or one of its rows cannot be mapped, the snapshot in memory, local
    storage, the version, the channel and the queue are as before the pull
    settled: no part of a response is ever applied.  The flag is cleared
    all the same. *)
Theorem failed_pull_changes_nothing fo now iso (w : World num) :
  pulled_records fo = None ->
  let w' := run (pullFromServer_resume fo now iso) w in
  State_state w' = State_state w /\
  persistent_unchanged w w' /\
  pendingChanges w' = pendingChanges w /\
  isSyncing w' = false.
Proof.
  intros Hnone w'. subst w'. rewrite resume_after_request.
  unfold persistent_unchanged.
  set (w1 := with_pulls_in_flight _ w).
  pose proof (request_resume_keeps_localStorage fo w1) as Hls.
  pose proof (request_resume_keeps_lastSyncTimestamp fo w1) as Hts.
  pose proof (request_resume_keeps_posted fo w1) as Hpo.
  pose proof (request_resume_keeps_State_state fo w1) as Hst.
  pose proof (request_resume_keeps_pendingChanges fo w1) as Hq.
  destruct (request_resume fo w1) as [[v | e] w2] eqn:Hreq; simpl in *.
  - assert (exists r, store_inventory now iso v w2 = (r, w2)) as [r ->].
    { destruct (isArray v) eqn:Harr;
        [ | eexists; apply store_inventory_not_rows, Harr].
      destruct v as [ | | | | | rows | ]; try discriminate.
      destruct (request_resume_returns _ _ _ _ Hreq) as [Hnull | (status & -> & Hok)];
        [discriminate | ].
      simpl in Hnone. rewrite Hok in Hnone.
      destruct (map_local_item rows) as [items | e] eqn:Hmap; [discriminate | ].
      eexists. apply store_inventory_bad_rows, Hmap. }
    destruct r; simpl; rewrite Hls, Hts, Hpo, Hst, Hq; auto.
  - rewrite Hls, Hts, Hpo, Hst, Hq. auto.
Qed.

Lemma resume_on_rows fo now iso items (w : World num) :
  pulled_records fo = Some items ->
  exists rows,
    map_local_item rows = Ret items /\
    run (pullFromServer_resume fo now iso) w
    = with_isSyncing false
        match store_inventory now iso (JArr rows)
                (with_pulls_in_flight (pred (pulls_in_flight w)) w) with
        | (Ret _, w3) => w3
        | (Throw e, w3) => pull_warning e w3
        end.
Proof.
  intros Hp. destruct (pulled_records_Some _ _ Hp) as (status & rows & -> & Hok & Hmap).
  exists rows. split; [exact Hmap | ].
  rewrite resume_after_request, (request_resume_ok _ _ _ Hok). reflexivity.
Qed.

(** After a pull settled with records, the records in memory print like
    them, whether or not storage took the snapshot. *)
Lemma resume_memory fo now iso items props (w : World num) :
  pulled_records fo = Some items ->
  State_state w = JObj props ->
  exists cur,
    local_records (run (pullFromServer_resume fo now iso) w) = Ret cur /\
    stringify cur = stringify (JArr items).
Proof.
  intros Hp Hst.
  destruct (resume_on_rows fo now iso items w Hp) as (rows & Hmap & ->).
  set (w1 := with_pulls_in_flight _ w).
  rewrite (store_inventory_rows now iso rows items props w1 Hmap Hst).
  unfold local_records.
  destruct (text_differs _ _) eqn:Hdiff.
  - exists (JArr items). split; [ | reflexivity]. cbv zeta.
    destruct (storage_accepts (localStorage w1) STORAGE_KEY _);
      [ destruct (storage_accepts _ VERSION_KEY _) | ]; simpl;
      try (rewrite broadcastChange_run;
           destruct (storage_accepts _ VERSION_KEY _); simpl);
      rewrite assoc_get_set; reflexivity.
  - apply text_differs_false in Hdiff.
    eexists. split; [ | exact Hdiff]. simpl. rewrite Hst. reflexivity.
Qed.

(** X10. A pull applied twice changes nothing the second time.  Once a
    pull has settled with records, the records in memory print like them,
    so a further pull that brings the same records writes no storage,
    keeps the version, posts nothing and leaves memory alone, whatever
    the clock reads by then. *)
Theorem pull_twice_is_pull_once fo now iso items props (w : World num) :
  pulled_records fo = Some items ->
  State_state w = JObj props ->
  let w1 := run (pullFromServer_resume fo now iso) w in
  forall fo2 now2 iso2,
    pulled_records fo2 = Some items ->
    let w2 := run (pullFromServer_resume fo2 now2 iso2) w1 in
    persistent_unchanged w1 w2 /\ State_state w2 = State_state w1.
Proof.
  intros Hp Hst w1 fo2 now2 iso2 Hp2 w2. subst w1 w2.
  destruct (resume_memory fo now iso items props w Hp Hst) as (cur & Hcur & Hsame).
  rewrite (resume_same_content fo2 now2 iso2 items cur _ Hp2 Hcur Hsame).
  unfold persistent_unchanged. simpl. auto.
Qed.

(** X11. After an accepted pull memory and storage agree.  When a pull
    brings records that print differently from the local ones and storage
    takes both writes, the records in memory are the new ones, the stored
    snapshot is the text of the snapshot in memory, the stored marker
    parses to the version of the context, which is the clock reading, one
    [inventory_sync] message with that version is posted if a channel is
    open, and the queue and the requests sent are untouched. *)
Theorem accepted_pull_is_consistent fo now iso items props (w : World num) :
  STORAGE_KEY <> VERSION_KEY ->
  pulled_records fo = Some items ->
  State_state w = JObj props ->
  stringify (default JUndefined (assoc_get "inventory" props))
    <> stringify (JArr items) ->
  let state' := JObj (assoc_set "inventory" (JArr items) props) in
  storage_accepts (localStorage w) STORAGE_KEY (text_arg (stringify state')) = true ->
  storage_accepts (<[STORAGE_KEY := text_arg (stringify state')]> (localStorage w))
    VERSION_KEY (Z_toString now) = true ->
  let w' := run (pullFromServer_resume fo now iso) w in
  local_records w' = Ret (JArr items) /\
  localStorage w' !! STORAGE_KEY = Some (text_arg (stringify (State_state w'))) /\
  parseInt_or_0 (localStorage w' !! VERSION_KEY) = lastSyncTimestamp w' /\
  lastSyncTimestamp w' = now /\
  posted w' = (posted w ++ if channel w then [inventory_sync now iso] else [])%list /\
  effects w' = (effects w ++ [ConsoleLog "Inventory synced from server"])%list /\
  pendingChanges w' = pendingChanges w /\
  fetched w' = fetched w.
Proof.
  intros Hkeys Hp Hst Hdiff state' Hacc1 Hacc2 w'. subst w'.
  destruct (resume_on_rows fo now iso items w Hp) as (rows & Hmap & ->).
  set (w1 := with_pulls_in_flight _ w).
  rewrite (store_inventory_rows now iso rows items props w1 Hmap Hst).
  apply text_differs_true in Hdiff. rewrite Hdiff. cbv zeta.
  change (localStorage w1) with (localStorage w).
  subst state'. rewrite Hacc1.
  match goal with
  | |- context [storage_accepts ?m VERSION_KEY ?t] =>
      replace (storage_accepts m VERSION_KEY t) with true by (symmetry; exact Hacc2)
  end.
  rewrite broadcastChange_run.
  match goal with
  | |- context [storage_accepts ?m VERSION_KEY ?t] =>
      replace (storage_accepts m VERSION_KEY t) with true by (symmetry; exact Hacc2)
  end.
  unfold local_records, inventory_sync. simpl.
  rewrite assoc_get_set, lookup_insert_eq, parseInt_or_0_Z_toString.
  rewrite lookup_insert_ne by congruence. rewrite lookup_insert_eq.
  repeat split; reflexivity.
Qed.

(** X12. A pull whose snapshot storage refuses.  The records in memory
    are already replaced when the write throws: memory holds the new
    records while local storage, the version and the channel are as
    before, and the failure is only logged.  Further pulls of the same
    records do not repair it: they find memory up to date and write
    nothing. *)
Theorem pull_storage_failure fo now iso items props (w : World num) :
  pulled_records fo = Some items ->
  State_state w = JObj props ->
  stringify (default JUndefined (assoc_get "inventory" props))
    <> stringify (JArr items) ->
  let state' := JObj (assoc_set "inventory" (JArr items) props) in
  storage_accepts (localStorage w) STORAGE_KEY (text_arg (stringify state')) = false ->
  let w' := run (pullFromServer_resume fo now iso) w in
  State_state w' = state' /\
  persistent_unchanged w w' /\
  effects w'
  = (effects w ++ [ConsoleWarn ("Failed to pull from server: " +:+ QuotaExceededError)])%list /\
  isSyncing w' = false /\
  (forall fo2 now2 iso2,
      pulled_records fo2 = Some items ->
      persistent_unchanged w (run (pullFromServer_resume fo2 now2 iso2) w')).
Proof.
  intros Hp Hst Hdiff state' Hacc w'.
  destruct (resume_memory fo now iso items props w Hp Hst) as (cur & Hcur & Hsame).
  fold w' in Hcur.
  assert (forall fo2 now2 iso2,
             pulled_records fo2 = Some items ->
             persistent_unchanged w' (run (pullFromServer_resume fo2 now2 iso2) w'))
      as Hagain.
  { intros fo2 now2 iso2 Hp2.
    rewrite (resume_same_content fo2 now2 iso2 items cur w' Hp2 Hcur Hsame).
    unfold persistent_unchanged. simpl. auto. }
  assert (w' = with_isSyncing false
                 (pull_warning QuotaExceededError
                    (with_State_state state'
                       (with_pulls_in_flight (pred (pulls_in_flight w)) w)))) as Hw'.
  { subst w'. destruct (resume_on_rows fo now iso items w Hp) as (rows & Hmap & ->).
    set (w1 := with_pulls_in_flight _ w).
    rewrite (store_inventory_rows now iso rows items props w1 Hmap Hst).
    apply text_differs_true in Hdiff. rewrite Hdiff. cbv zeta.
    change (localStorage w1) with (localStorage w).
    subst state'. rewrite Hacc. reflexivity. }
  assert (persistent_unchanged w w') as Hsame'
      by (rewrite Hw'; unfold persistent_unchanged; simpl; auto).
  split; [rewrite Hw'; reflexivity | ].
  split; [exact Hsame' | ].
  split; [rewrite Hw'; reflexivity | ].
  split; [rewrite Hw'; reflexivity | ].
  intros fo2 now2 iso2 Hp2.
  destruct (Hagain fo2 now2 iso2 Hp2) as (H1 & H2 & H3).
  destruct Hsame' as (H4 & H5 & H6).
  unfold persistent_unchanged. rewrite H1, H2, H3. auto.
Qed.

(** ** Pushes *)

Lemma request_resume_settled fo (w : World num) :
  (request_resume fo w).1 = settled fo.
Proof.
  unfold settled, result, request_resume, try_catch, bind, lift, throw, ret, effect,
    modify, clearToken, sessionStorage_removeItem.
  destruct fo as [e | status payload]; simpl.
  - destruct (String.eqb e "Failed to fetch"); reflexivity.
  - destruct (status =? 401); simpl; [reflexivity | ].
    destruct (negb (response_ok status)); simpl.
    + destruct (get_prop _ "error"); simpl;
        [destruct (ToString _); simpl | ];
        match goal with
        | |- context [String.eqb ?m "Failed to fetch"] =>
            destruct (String.eqb m "Failed to fetch")
        end; reflexivity.
    + destruct payload as [v | e]; simpl; [reflexivity | ].
      destruct (String.eqb e "Failed to fetch"); reflexivity.
Qed.

Lemma pushToServer_blocked fo now act item (w : World num) :
  may_push w = false -> pushToServer fo now act item w = (Ret JNull, w).
Proof.
  intros Hno. unfold pushToServer, bind, gets. rewrite Hno. reflexivity.
Qed.

Lemma pushToServer_beside fo now act item :
  keeps beside_push (pushToServer fo now act item).
Proof. keeps_auto. Qed.

Lemma pushToServer_returns fo now act item (w : World num) :
  exists v, (pushToServer fo now act item w).1 = Ret v.
Proof.
  destruct (may_push w) eqn:Hpush.
  - rewrite (pushToServer_run _ _ _ _ _ Hpush).
    destruct (submission act item) as [[r | ] | e]; simpl; eauto.
    destruct (request_resume fo _) as [[v | e] w2]; simpl; eauto.
  - rewrite (pushToServer_blocked _ _ _ _ _ Hpush). eauto.
Qed.

(** X13. [pushToServer] never throws and sends at most one request:
    whatever the action, the item and the fate of the request, it returns
    a value, the requests sent grow by at most one, and the queue either
    stays as it is or, with null returned, grows by this change stamped
    with the clock reading.  Local storage, the version, the snapshot in
    memory and the channel are not touched. *)
Theorem pushToServer_never_throws fo now act item (w : World num) :
  let w' := run (pushToServer fo now act item) w in
  (exists v,
      result (pushToServer fo now act item) w = Ret v /\
      (pendingChanges w' = pendingChanges w \/
       v = JNull /\
       pendingChanges w'
       = (pendingChanges w ++
          [ {| action := act; itemData := item; timestamp := now |} ])%list)) /\
  (fetched w' = fetched w \/ exists call, fetched w' = (fetched w ++ [call])%list) /\
  beside_push w' = beside_push w.
Proof.
  cbv zeta. split; [ | split]; [ | | apply pushToServer_beside].
  - unfold result, run. destruct (may_push w) eqn:Hpush.
    + rewrite (pushToServer_run _ _ _ _ _ Hpush).
      destruct (submission act item) as [[r | ] | e]; simpl; eauto.
      set (w1 := with_fetched _ w).
      pose proof (request_resume_keeps_pendingChanges fo w1) as Hq.
      destruct (request_resume fo w1) as [[v | e] w2]; simpl in *; rewrite Hq; eauto.
    + rewrite (pushToServer_blocked _ _ _ _ _ Hpush). eauto.
  - unfold run. destruct (may_push w) eqn:Hpush.
    + rewrite (pushToServer_run _ _ _ _ _ Hpush).
      destruct (submission act item) as [[r | ] | e]; simpl; eauto.
      set (w1 := with_fetched _ w).
      pose proof (request_resume_keeps_fetched fo w1) as Hf.
      destruct (request_resume fo w1) as [[v | e] w2]; simpl in *; rewrite Hf; eauto.
    + rewrite (pushToServer_blocked _ _ _ _ _ Hpush). eauto.
Qed.

(** ** Drains *)

Lemma may_push_token (w w' : World num) : token w' = token w -> may_push w' = may_push w.
Proof. unfold may_push, has_token. intros ->. reflexivity. Qed.

Lemma headers_of_token (w w' : World num) :
  token w' = token w -> headers_of w' = headers_of w.
Proof. unfold headers_of, has_token. intros ->. reflexivity. Qed.

(** One push of a drain whose response is not 401. *)
Lemma push_settles fo now (c : change num) r (w : World num) :
  may_push w = true ->
  submission (action c) (itemData c) = Ret (Some r) ->
  (forall payload, fo <> Response 401 payload) ->
  let w' := run (pushToServer fo now (action c) (itemData c)) w in
  pendingChanges w'
  = (pendingChanges w ++ match settled fo with
                         | Throw _ => [queued_again c now]
                         | Ret _ => []
                         end)%list /\
  fetched w' = (fetched w ++ [call_for (headers_of w) r])%list /\
  token w' = token w.
Proof.
  intros Hpush Hsub Hfo w'. subst w'. unfold run.
  rewrite (pushToServer_run _ _ _ _ _ Hpush), Hsub.
  set (w1 := with_fetched _ w).
  pose proof (request_resume_keeps_pendingChanges fo w1) as Hq.
  pose proof (request_resume_keeps_fetched fo w1) as Hf.
  pose proof (request_resume_settled fo w1) as Hs.
  destruct (request_resume_keeps_credential fo w1 Hfo) as [Htok _].
  destruct (request_resume fo w1) as [[v | e] w2]; simpl in *;
    rewrite <- Hs, Hq, Hf, Htok; simpl; rewrite ?app_nil_r; auto.
Qed.

Lemma for_changes_settles env hs (q : list (change num)) calls :
  Forall2 (fun c call => expected_call hs c = Some call) q calls ->
  forall i (w : World num),
    may_push w = true ->
    headers_of w = hs ->
    (forall j payload, (j < length q)%nat -> (env (i + j)%nat).1 <> Response 401 payload) ->
    let w' := run (for_changes env i q) w in
    pendingChanges w' = (pendingChanges w ++ requeued env i q)%list /\
    fetched w' = (fetched w ++ calls)%list /\
    token w' = token w.
Proof.
  induction 1 as [ | c call q calls Hc Hq IH]; intros i w Hpush Hhs Henv; simpl.
  - rewrite !app_nil_r. auto.
  - unfold expected_call in Hc.
    destruct (submission (action c) (itemData c)) as [[r | ] | e] eqn:Hsub;
      try discriminate.
    injection Hc as Hcall.
    assert (forall payload, (env i).1 <> Response 401 payload) as Hfo.
    { intros payload. specialize (Henv 0%nat payload ltac:(simpl; lia)).
      rewrite Nat.add_0_r in Henv. exact Henv. }
    destruct (push_settles (env i).1 (env i).2 c r w Hpush Hsub Hfo)
      as (Hq1 & Hf1 & Ht1).
    unfold run, bind in *.
    destruct (pushToServer (env i).1 (env i).2 (action c) (itemData c) w)
      as [[v | e] w1] eqn:Hrun; simpl in *.
    + destruct (IH (S i) w1) as (Hq2 & Hf2 & Ht2).
      * rewrite (may_push_token w w1 Ht1). exact Hpush.
      * rewrite (headers_of_token w w1 Ht1). exact Hhs.
      * intros j payload Hj. replace (S i + j)%nat with (i + S j)%nat by lia.
        apply Henv. lia.
      * rewrite Hq2, Hf2, Ht2, Hq1, Hf1, Ht1, Hhs, Hcall, <- !app_assoc. auto.
    + destruct (pushToServer_returns (env i).1 (env i).2 (action c) (itemData c) w)
        as [v Hv].
      rewrite Hrun in Hv. discriminate.
Qed.

(** X14. A drain queues again exactly the changes whose request threw.
    When the engine may push, every queued change stands for a request and
    no response is a 401, [retryPendingChanges] sends the requests of all
    queued changes, one each and in order, and leaves in the queue the
    changes whose request threw, in their original order and stamped with
    the time of the failure; changes whose request returned, be it with
    the null of a network failure, are gone. *)
Theorem drain_requeues_failures (w : World num) env calls :
  may_push w = true ->
  Forall2 (fun c call => expected_call (headers_of w) c = Some call)
    (pendingChanges w) calls ->
  (forall i payload,
      (i < length (pendingChanges w))%nat -> (env i).1 <> Response 401 payload) ->
  let w' := run (retryPendingChanges env) w in
  pendingChanges w' = requeued env 0 (pendingChanges w) /\
  fetched w' = (fetched w ++ calls)%list /\
  token w' = token w.
Proof.
  intros Hpush Hcalls Henv w'. subst w'.
  unfold run, retryPendingChanges, bind, gets, modify.
  destruct (pendingChanges w) as [ | c q] eqn:Hq.
  - inversion Hcalls. simpl. rewrite Hq, app_nil_r. auto.
  - set (w0 := with_pendingChanges [] w).
    destruct (for_changes_settles env (headers_of w) (c :: q) calls Hcalls 0%nat w0)
      as (Hq1 & Hf1 & Ht1).
    + exact Hpush.
    + reflexivity.
    + intros j payload Hj. apply Henv, Hj.
    + unfold run in *. cbv iota beta. rewrite Hq1, Hf1, Ht1. auto.
Qed.

Lemma for_changes_blocked env (q : list (change num)) : forall i (w : World num),
  may_push w = false -> for_changes env i q w = (Ret tt, w).
Proof.
  induction q as [ | c q IH]; intros i w Hno; simpl; [reflexivity | ].
  unfold bind. rewrite (pushToServer_blocked _ _ _ _ _ Hno). apply IH, Hno.
Qed.

Lemma drain_blocked (w : World num) env :
  may_push w = false ->
  run (retryPendingChanges env) w = with_pendingChanges [] w.
Proof.
  intros Hno. unfold run, retryPendingChanges, bind, gets, modify.
  destruct (pendingChanges w) as [ | c q] eqn:Hq.
  - simpl. destruct w; simpl in *; subst; reflexivity.
  - cbv iota beta. rewrite for_changes_blocked; [reflexivity | exact Hno].
Qed.

(** X15. A drain without the right to push discards the queue.  When the
    API is off or no token is held, [retryPendingChanges] empties the
    queue, sends nothing and queues nothing again: the waiting changes are
    lost, and nothing else in the world changes. *)
Theorem drain_without_token_discards (w : World num) env :
  may_push w = false ->
  run (retryPendingChanges env) w = with_pendingChanges [] w.
Proof. apply drain_blocked. Qed.

Lemma drain_expired (w : World num) env c rest r payload :
  may_push w = true ->
  pendingChanges w = c :: rest ->
  submission (action c) (itemData c) = Ret (Some r) ->
  (env 0%nat).1 = Response 401 payload ->
  let w' := run (retryPendingChanges env) w in
  pendingChanges w' = [queued_again c (env 0%nat).2] /\
  fetched w' = (fetched w ++ [call_for (headers_of w) r])%list /\
  token w' = None.
Proof.
  intros Hpush Hq Hsub Hfo w'. subst w'.
  unfold run, retryPendingChanges, bind, gets, modify. rewrite Hq.
  cbv iota beta. simpl for_changes. unfold bind.
  set (w0 := with_pendingChanges [] w).
  rewrite (pushToServer_run _ _ _ _ _ (Hpush : may_push w0 = true)), Hsub, Hfo.
  rewrite request_resume_401. cbv iota beta.
  rewrite for_changes_blocked;
    [ | unfold may_push, has_token; simpl; apply andb_false_r].
  simpl. auto.
Qed.

(** X16. A 401 in a drain costs the rest of the queue.  When the request
    of the first queued change is answered with 401, the token is cleared
    and that change is queued again; every later change of the queue is
    then skipped, because no token is held any more, and is neither sent
    nor queued again. *)
Theorem expired_session_drops_queue (w : World num) env c rest r payload :
  may_push w = true ->
  pendingChanges w = c :: rest ->
  submission (action c) (itemData c) = Ret (Some r) ->
  (env 0%nat).1 = Response 401 payload ->
  let w' := run (retryPendingChanges env) w in
  pendingChanges w' = [queued_again c (env 0%nat).2] /\
  fetched w' = (fetched w ++ [call_for (headers_of w) r])%list /\
  token w' = None.
Proof. apply drain_expired. Qed.

(** ** The life of a queued change *)

Lemma requeued_keys env (q : list (change num)) : forall i,
  (forall j, exists e, settled (env j).1 = Throw e) ->
  map change_key (requeued env i q) = map change_key q.
Proof.
  induction q as [ | c q IH]; intros i Hthrow; simpl; [reflexivity | ].
  destruct (Hthrow i) as [e ->]. simpl. rewrite (IH (S i) Hthrow). reflexivity.
Qed.

Lemma sendable_calls hs (q : list (change num)) :
  Forall sendable q ->
  exists calls, Forall2 (fun c call => expected_call hs c = Some call) q calls.
Proof.
  induction 1 as [ | c q [r Hsub] _ [calls IH]].
  - exists []. constructor.
  - exists (call_for hs r :: calls). constructor; [ | exact IH].
    unfold expected_call. rewrite Hsub. reflexivity.
Qed.

Lemma sendable_keys (q q' : list (change num)) :
  map change_key q' = map change_key q -> Forall sendable q -> Forall sendable q'.
Proof.
  revert q. induction q' as [ | c' q' IH]; intros q Hkeys Hall; [constructor | ].
  destruct q as [ | c q]; [discriminate | ].
  inversion Hall as [ | ? ? [r Hsub] Hrest]; subst.
  injection Hkeys as Hact Hitem Hkeys.
  constructor; [ | exact (IH q Hkeys Hrest)].
  exists r. unfold change_key in *. rewrite Hact, Hitem. exact Hsub.
Qed.

(** A drain all of whose requests throw, none with a 401. *)
Lemma failing_drain_keeps env (w : World num) :
  may_push w = true ->
  Forall sendable (pendingChanges w) ->
  (forall i, exists e, settled (env i).1 = Throw e) ->
  (forall i payload, (env i).1 <> Response 401 payload) ->
  let w' := run (retryPendingChanges env) w in
  map change_key (pendingChanges w') = map change_key (pendingChanges w) /\
  may_push w' = true.
Proof.
  intros Hpush Hall Hthrow Hno401 w'. subst w'.
  unfold run, retryPendingChanges, bind, gets, modify.
  destruct (pendingChanges w) as [ | c q] eqn:Hq.
  - simpl. rewrite Hq. auto.
  - destruct (sendable_calls (headers_of w) (c :: q) Hall) as [calls Hcalls].
    set (w0 := with_pendingChanges [] w).
    destruct (for_changes_settles env (headers_of w) (c :: q) calls Hcalls 0%nat w0)
      as (Hq1 & _ & Ht1).
    + exact Hpush.
    + reflexivity.
    + intros j payload _. apply Hno401.
    + unfold run in *. cbv iota beta. rewrite Hq1. split.
      * apply (requeued_keys env (c :: q) 0%nat Hthrow).
      * rewrite (may_push_token w0 _ Ht1). exact Hpush.
Qed.

Lemma failing_drains_keep env n (w : World num) :
  may_push w = true ->
  Forall sendable (pendingChanges w) ->
  (forall i, exists e, settled (env i).1 = Throw e) ->
  (forall i payload, (env i).1 <> Response 401 payload) ->
  map change_key (pendingChanges (drain_times env n w)) = map change_key (pendingChanges w) /\
  may_push (drain_times env n w) = true.
Proof.
  intros Hpush Hall Hthrow Hno401. induction n as [ | n [IHq IHp]]; simpl.
  - auto.
  - destruct (failing_drain_keeps env (drain_times env n w) IHp
                (sendable_keys _ _ IHq Hall) Hthrow Hno401) as [Hq Hp].
    split; [congruence | exact Hp].
Qed.

(** C7, as the code has it.  A change whose request succeeds is not put
    back in the queue and its result is returned; a change whose request
    throws is put back at the end of the queue with the same action and
    item data and the time of the failure, and the caller gets null.  The
    queue entry counts no attempts and nothing bounds how often this
    repeats: while the engine may push and the requests keep throwing
    with a status other than 401, the queue holds the same changes in the
    same order after any number of drains.  A 401 is different: the change
    is queued again, the token is cleared, and the next drain empties the
    queue without sending anything. *)
Theorem push_lifecycle (w : World num) now act item r :
  may_push w = true ->
  submission act item = Ret (Some r) ->
  (forall status v,
      response_ok status = true ->
      let c := pushToServer (Response status (BodyJson v)) now act item in
      result c w = Ret v /\ pendingChanges (run c w) = pendingChanges w) /\
  (forall fo e,
      (forall w1 : World num, result (request_resume fo) w1 = Throw e) ->
      let c := pushToServer fo now act item in
      result c w = Ret JNull /\
      pendingChanges (run c w)
      = (pendingChanges w ++
         [ {| action := act; itemData := item; timestamp := now |} ])%list) /\
  (forall n env,
      rejects (env 0%nat).1 ->
      pendingChanges w = [ {| action := act; itemData := item; timestamp := now |} ] ->
      exists t,
        pendingChanges (drain_times env n w)
        = [ {| action := act; itemData := item; timestamp := t |} ]) /\
  (forall n env,
      (forall i, exists e, settled (env i).1 = Throw e) ->
      (forall i payload, (env i).1 <> Response 401 payload) ->
      Forall sendable (pendingChanges w) ->
      map change_key (pendingChanges (drain_times env n w))
      = map change_key (pendingChanges w)) /\
  (forall env payload rest,
      pendingChanges w
      = {| action := act; itemData := item; timestamp := now |} :: rest ->
      (env 0%nat).1 = Response 401 payload ->
      pendingChanges (drain_times env 1 w)
      = [ {| action := act; itemData := item; timestamp := (env 0%nat).2 |} ] /\
      token (drain_times env 1 w) = None /\
      pendingChanges (drain_times env 2 w) = [] /\
      fetched (drain_times env 2 w) = fetched (drain_times env 1 w)).
Proof.
  intros Hpush Hsub. split; [ | split; [ | split; [ | split]]].
  - intros status v Hok c. subst c. unfold result, run.
    rewrite (push_success status v now act item r w Hpush Hsub Hok). auto.
  - intros fo e Hfo c. subst c. unfold result, run.
    rewrite (pushToServer_run _ _ _ _ _ Hpush), Hsub.
    set (w1 := with_fetched _ w).
    specialize (Hfo w1). unfold result in Hfo.
    assert (pendingChanges (request_resume fo w1).2 = pendingChanges w1) as Hkeep
        by (apply (ltac:(keeps_auto) : keeps (@pendingChanges num) (request_resume fo))).
    destruct (request_resume fo w1) as [[v | e'] w2]; simpl in *; [discriminate | ].
    injection Hfo as ->. rewrite Hkeep. auto.
  - intros n env Hrej Hq.
    apply (failing_drains_never_drop env
             {| action := act; itemData := item; timestamp := now |} r n w
             Hpush Hq Hsub Hrej).
  - intros n env Hthrow Hno401 Hall.
    apply (failing_drains_keep env n w Hpush Hall Hthrow Hno401).
  - intros env payload rest Hq Hfo.
    destruct (drain_expired w env
                {| action := act; itemData := item; timestamp := now |} rest r payload
                Hpush Hq Hsub Hfo) as (Hq1 & _ & Htok).
    change (drain_times env 1 w) with (run (retryPendingChanges env) w).
    change (drain_times env 2 w)
      with (run (retryPendingChanges env) (run (retryPendingChanges env) w)).
    split; [exact Hq1 | ]. split; [exact Htok | ].
    rewrite (drain_blocked (run (retryPendingChanges env) w) env).
    + auto.
    + unfold may_push, has_token. rewrite Htok. apply andb_false_r.
Qed.

(** ** A page that does not use the API *)

Lemma handle_keeps_fetched_offline e :
  USE_API = false -> keeps (@fetched num) (handle e).
Proof.
  intros Hoff w.
  destruct e as [now iso act d | m | key newValue | | | fo now iso].
  - apply (ltac:(keeps_auto) : keeps (@fetched num) (broadcastChange now iso act d)).
  - apply (ltac:(keeps_auto) : keeps (@fetched num) (handleSyncMessage m)).
  - apply (ltac:(keeps_auto)
           : keeps (@fetched num) (handle (StorageEvent key newValue))).
  - change ((handle VisibilityVisible w).2) with (run checkForUpdates w).
    rewrite checkForUpdates_run. cbv zeta. rewrite Hoff. simpl.
    apply (ltac:(unfold check_version; keeps_auto)
           : keeps (@fetched num) check_version).
  - simpl. rewrite begin_blocked; [reflexivity | ].
    unfold may_pull. rewrite Hoff. reflexivity.
  - apply (ltac:(keeps_auto)
           : keeps (@fetched num) (handle (PullSettled fo now iso))).
Qed.

(** X17. Local-only mode.  On a page whose [USE_API] is false the engine
    never calls the server: no sequence of events sends a request, a push
    returns null at once without queueing the change, and a drain sends
    nothing. *)
Theorem local_only_sends_nothing (w : World num) :
  USE_API = false ->
  (forall es, fetched (run_events w es) = fetched w) /\
  (forall fo now act item, pushToServer fo now act item w = (Ret JNull, w)) /\
  (forall env, fetched (run (retryPendingChanges env) w) = fetched w).
Proof.
  intros Hoff.
  assert (forall x : World num, may_push x = false) as Hno
      by (intros x; unfold may_push; rewrite Hoff; reflexivity).
  split; [ | split].
  - intros es. revert w. induction es as [ | e es IH]; intros w; simpl.
    + reflexivity.
    + rewrite IH. apply (handle_keeps_fetched_offline e Hoff).
  - intros fo now act item. apply pushToServer_blocked, Hno.
  - intros env. unfold run, retryPendingChanges, bind, gets, modify.
    destruct (pendingChanges w) as [ | c q]; [reflexivity | ].
    cbv iota beta. rewrite for_changes_blocked; [reflexivity | apply Hno].
Qed.

(** ** The queue and the events *)

Lemma handle_keeps_pendingChanges e : keeps (@pendingChanges num) (handle e).
Proof. keeps_auto. Qed.

(** X18. No event touches the queue.  Local mutations, channel messages,
    storage events, visibility events, timer ticks and settling pulls
    leave [pendingChanges] exactly as it is: queued changes are neither
    sent nor dropped until [retryPendingChanges] is called. *)
Theorem events_keep_queue (w : World num) es :
  pendingChanges (run_events w es) = pendingChanges w.
Proof.
  revert w. induction es as [ | e es IH]; intros w; simpl.
  - reflexivity.
  - rewrite IH. apply handle_keeps_pendingChanges.
Qed.

(** ** Coming back to a tab *)

Lemma check_version_newer v (w : World num) :
  localStorage w !! VERSION_KEY = Some (Z_toString v) ->
  lastSyncTimestamp w < v ->
  run check_version w
  = with_effects (effects w ++ [ConsoleLog "Updates detected on tab focus"; AppRefresh])
      (with_lastSyncTimestamp v w).
Proof.
  intros Hstored Hlt.
  unfold run, check_version, localStorage_getItem, bind, gets, when, effect, modify.
  simpl. rewrite Hstored, parseInt_or_0_Z_toString.
  destruct (lastSyncTimestamp w <? v) eqn:Hltb; [ | lia].
  simpl. rewrite <- app_assoc. reflexivity.
Qed.

(** X19. A tab that missed the notifications catches up when it becomes
    visible.  If storage holds a marker, an integer that a double holds
    exactly, newer than the version of the context, the visibility check takes that version and refreshes the
    view once, and it starts a pull exactly when one may start; a second
    visibility check right after refreshes nothing. *)
Theorem visibility_catches_up (w : World num) v :
  exactly_parsed v ->
  localStorage w !! VERSION_KEY = Some (Z_toString v) ->
  lastSyncTimestamp w < v ->
  let w' := step w VisibilityVisible in
  lastSyncTimestamp w' = v /\
  effects w'
  = (effects w ++ [ConsoleLog "Updates detected on tab focus"; AppRefresh])%list /\
  fetched w' = (fetched w ++ if may_pull w then [inventory_call w] else [])%list /\
  lastSyncTimestamp (step w' VisibilityVisible) = v /\
  effects (step w' VisibilityVisible) = effects w'.
Proof.
  intros _ Hstored Hlt w'.
  assert (lastSyncTimestamp w' = v /\
          effects w'
          = (effects w ++ [ConsoleLog "Updates detected on tab focus"; AppRefresh])%list /\
          fetched w' = (fetched w ++ if may_pull w then [inventory_call w] else [])%list /\
          localStorage w' = localStorage w) as (Hv & Hef & Hfe & Hls).
  { subst w'. unfold step, handle. rewrite checkForUpdates_run. cbv zeta.
    rewrite (check_version_newer v w Hstored Hlt).
    set (w1 := with_effects _ _).
    assert (may_pull w1 = may_pull w) as Hpull by reflexivity.
    unfold run.
    destruct (USE_API && has_token w1) eqn:Hgo.
    - destruct (may_pull w) eqn:Hmay.
      + rewrite (begin_starts w1 Hpull). simpl. auto.
      + rewrite (begin_blocked w1 Hpull). simpl. rewrite app_nil_r. auto.
    - assert (may_pull w = false) as ->.
      { unfold may_pull. change (has_token w) with (has_token w1).
        rewrite Hgo. reflexivity. }
      simpl. rewrite app_nil_r. auto. }
  split; [exact Hv | ]. split; [exact Hef | ]. split; [exact Hfe | ].
  unfold step, handle. rewrite checkForUpdates_run. cbv zeta.
  assert (run check_version w' = w') as ->.
  { unfold run. rewrite check_version_current; [reflexivity | ].
    rewrite Hls, Hstored, parseInt_or_0_Z_toString. lia. }
  destruct (USE_API && has_token w'); [ | auto].
  unfold run. rewrite begin_keeps_lastSyncTimestamp, begin_keeps_effects. auto.
Qed.

(** ** Requests carry the token *)

Lemma headers_of_authorized (w : World num) call :
  has_token w = true -> headers call = headers_of w -> authorized call.
Proof.
  unfold has_token, headers_of, authorized. intros Hheld ->.
  destruct (token w) as [t | ] eqn:Htok; [ | discriminate].
  exists t. split.
  - intros ->. discriminate.
  - unfold has_token. rewrite Htok, Hheld. simpl. auto.
Qed.

Lemma begin_authorized (w : World num) :
  Forall authorized (fetched w) -> Forall authorized (fetched (run pullFromServer_begin w)).
Proof.
  intros Hall. unfold run. destruct (may_pull w) eqn:Hpull.
  - rewrite (begin_starts w Hpull). simpl.
    apply Forall_app. split; [exact Hall | ].
    constructor; [ | constructor].
    apply (headers_of_authorized w); [ | reflexivity].
    unfold may_pull in Hpull. destruct USE_API, (has_token w); simpl in *; congruence.
  - rewrite (begin_blocked w Hpull). exact Hall.
Qed.

Lemma step_authorized (w : World num) e :
  Forall authorized (fetched w) -> Forall authorized (fetched (step w e)).
Proof.
  intros Hall. unfold step.
  destruct e as [now iso act d | m | key newValue | | | fo now iso].
  - unfold run. rewrite (ltac:(keeps_auto)
             : keeps (@fetched num) (handle (LocalMutation now iso act d))).
    exact Hall.
  - unfold run. rewrite (ltac:(keeps_auto) : keeps (@fetched num) (handle (ChannelMessage m))).
    exact Hall.
  - unfold run. rewrite (ltac:(keeps_auto)
             : keeps (@fetched num) (handle (StorageEvent key newValue))).
    exact Hall.
  - unfold handle. rewrite checkForUpdates_run. cbv zeta.
    assert (Forall authorized (fetched (run check_version w))) as Hall1.
    { unfold run.
      rewrite (ltac:(unfold check_version; keeps_auto)
               : keeps (@fetched num) check_version). exact Hall. }
    destruct (USE_API && has_token (run check_version w));
      [apply begin_authorized | ]; exact Hall1.
  - apply begin_authorized, Hall.
  - unfold run. rewrite (ltac:(keeps_auto)
             : keeps (@fetched num) (handle (PullSettled fo now iso))).
    exact Hall.
Qed.

Lemma push_authorized fo now act item (w : World num) :
  Forall authorized (fetched w) ->
  Forall authorized (fetched (run (pushToServer fo now act item) w)).
Proof.
  intros Hall. unfold run. destruct (may_push w) eqn:Hpush.
  - rewrite (pushToServer_run _ _ _ _ _ Hpush).
    destruct (submission act item) as [[r | ] | e]; simpl; try exact Hall.
    set (w1 := with_fetched _ w).
    pose proof (request_resume_keeps_fetched fo w1) as Hf.
    assert (Forall authorized (fetched w1)) as Hall1.
    { subst w1. simpl. apply Forall_app. split; [exact Hall | ].
      constructor; [ | constructor].
      apply (headers_of_authorized w); [ | reflexivity].
      unfold may_push in Hpush. destruct USE_API, (has_token w); simpl in *; congruence. }
    destruct (request_resume fo w1) as [[v | e] w2]; simpl in *; rewrite Hf; exact Hall1.
  - rewrite (pushToServer_blocked _ _ _ _ _ Hpush). exact Hall.
Qed.

Lemma for_changes_authorized env (q : list (change num)) : forall i (w : World num),
  Forall authorized (fetched w) ->
  Forall authorized (fetched (run (for_changes env i q) w)).
Proof.
  induction q as [ | c q IH]; intros i w Hall; simpl; [exact Hall | ].
  pose proof (push_authorized (env i).1 (env i).2 (action c) (itemData c) w Hall) as Hp.
  destruct (pushToServer_returns (env i).1 (env i).2 (action c) (itemData c) w)
    as [v Hv].
  unfold run, bind in *.
  destruct (pushToServer (env i).1 (env i).2 (action c) (itemData c) w) as [[v' | e] w1];
    simpl in *; [ | discriminate].
  apply IH, Hp.
Qed.

(** X20. The engine never calls the server without the token.  If every
    request sent so far carried a bearer token, so does every request sent
    after any sequence of events, after a push and after a drain: pulls and
    pushes are sent only while a non-empty token is held, and each carries
    it in its [Authorization] header. *)
Theorem engine_requests_carry_token (w : World num) :
  Forall authorized (fetched w) ->
  (forall es, Forall authorized (fetched (run_events w es))) /\
  (forall fo now act item,
      Forall authorized (fetched (run (pushToServer fo now act item) w))) /\
  (forall env, Forall authorized (fetched (run (retryPendingChanges env) w))).
Proof.
  intros Hall. split; [ | split].
  - intros es. revert w Hall. induction es as [ | e es IH]; intros w Hall; simpl.
    + exact Hall.
    + apply IH, step_authorized, Hall.
  - intros fo now act item. apply push_authorized, Hall.
  - intros env. unfold run, retryPendingChanges, bind, gets, modify.
    destruct (pendingChanges w) as [ | c q]; [exact Hall | ].
    cbv iota beta. apply (for_changes_authorized env (c :: q) 0%nat). exact Hall.
Qed.

(** ** From a pulled record to a push *)

(** X21. A record made by a pull can be pushed back.  For a row the pull
    could map, the record is accepted by each of the three actions of
    [pushToServer]: [add] posts to the inventory a payload that names the
    properties as the server does, carries the row's type, serial and
    grade and the parsed buying price, and has status [available];
    [update] puts to the path of the row's id, with the override reason
    of the row if it had one and none otherwise; [sell] posts to the
    [sell] path of that id. *)
Theorem pulled_record_can_be_pushed (row x : value) :
  local_item row = Ret x ->
  exists idv,
    get_prop row "id" = Ret idv /\
    (exists r,
        submission "add" x = Ret (Some r) /\
        pr_method r = "POST" /\ pr_endpoint r = "/api/inventory" /\
        get_prop (pr_payload r) "status" = Ret (JStr "available") /\
        get_prop (pr_payload r) "type" = get_prop row "type" /\
        get_prop (pr_payload r) "serial" = get_prop row "serial" /\
        get_prop (pr_payload r) "visual_grade" = get_prop row "visual_grade" /\
        (forall p, get_prop row "buy_price" = Ret p ->
                   get_prop (pr_payload r) "buy_price" = parseFloat p)) /\
    (exists r,
        submission "update" x = Ret (Some r) /\
        pr_method r = "PUT" /\
        pr_endpoint r = "/api/inventory/" +:+ toString idv /\
        (forall reason,
            get_prop row "price_override_reason" = Ret reason ->
            get_prop (pr_payload r) "price_override_reason"
            = Ret (if truthy reason then reason else JUndefined))) /\
    (exists r,
        submission "sell" x = Ret (Some r) /\
        pr_method r = "POST" /\
        pr_endpoint r = "/api/inventory/" +:+ toString idv +:+ "/sell").
Proof.
  intros Hrow.
  destruct (local_item_Ret row x Hrow)
    as (props & idv & buy & base_sell & current & sell & -> & Hid & Htext &
        Hbuy & _ & _ & _ & Hx).
  rewrite Hx in Hrow. injection Hrow as <-.
  exists idv. split; [simpl; rewrite Hid; reflexivity | ].
  split; [ | split];
    (eexists; split; [reflexivity | ]; repeat split; try reflexivity).
  - intros p [= <-]. simpl. symmetry. exact Hbuy.
  - intros reason [= <-]. simpl.
    destruct (truthy (default JUndefined (assoc_get "price_override_reason" props)));
      reflexivity.
Qed.

End Properties.

(** * The theorems on the sample page *)

#[local] Existing Instance integer_numbers.
#[local] Existing Instance online_page.

(** ** C1 *)

(** Counterexample to C1 as stated: the local snapshot is at version 3000
    with record C; a pull settles with a candidate of version 2500 whose
    records differ; the candidate is accepted, the records are replaced
    and the version is restamped. *)
Lemma stale_pull_is_accepted :
  let w := world_C in
  let w' := run_events w [TimerTick; PullSettled (deliver stale_candidate) 3100 iso_time] in
  cand_version stale_candidate <= lastSyncTimestamp w /\
  local_records w = Ret (JArr [local_record rowC]) /\
  local_records w' = Ret (JArr [local_record rowA]) /\
  State_state w' <> State_state w /\
  lastSyncTimestamp w = 3000 /\
  lastSyncTimestamp w' = 3100 /\
  localStorage w !! VERSION_KEY = Some "3000" /\
  localStorage w' !! VERSION_KEY = Some "3100".
Proof.
  cbv zeta. repeat split; try (vm_compute; reflexivity).
  - vm_compute. discriminate.
  - vm_compute. discriminate.
Qed.

Lemma pull_accepts_by_content_witness :
  let w' := run (pullFromServer_resume (deliver stale_candidate) 3100 iso_time) world_C in
  map_local_item (cand_rows stale_candidate) = Ret [local_record rowA] /\
  local_records world_C = Ret (JArr [local_record rowC]) /\
  stringify (JArr [local_record rowC]) <> stringify (JArr [local_record rowA]) /\
  State_state w' = JObj [("inventory", JArr [local_record rowA])] /\
  lastSyncTimestamp w' = 3100.
Proof.
  cbv zeta.
  assert (stringify (JArr [local_record rowC]) <> stringify (JArr [local_record rowA]))
    as Hdiff by (vm_compute; discriminate).
  split; [reflexivity | split; [reflexivity | split; [exact Hdiff | ] ] ].
  destruct (proj2 (pull_accepts_by_content (page := online_page)
                     world_C stale_candidate 3100 iso_time
                     [local_record rowA] (JArr [local_record rowC]) eq_refl eq_refl)
              Hdiff (JObj [("inventory", JArr [local_record rowA])]) eq_refl)
    as (Hst & Hboth & _).
  split; [exact Hst | exact (proj2 (Hboth eq_refl eq_refl))].
Defined.

(** ** C2 *)

(** Counterexample to C2 as stated: two mutations within the same
    millisecond get the same marker, and a clock reading behind the
    stored marker yields a marker below it. *)
Lemma clock_tie_repeats_marker :
  let w1 := run (broadcastChange 5000 iso_time "inventory_add" (JObj [])) world_C in
  let w2 := run (broadcastChange 5000 iso_time "inventory_update" (JObj [])) w1 in
  let w3 := run (broadcastChange 2000 iso_time "inventory_add" (JObj [])) world_C in
  lastSyncTimestamp w1 = 5000 /\
  lastSyncTimestamp w2 = 5000 /\
  map version (posted w2) = [5000; 5000] /\
  parseInt_or_0 (localStorage world_C !! VERSION_KEY) = 3000 /\
  lastSyncTimestamp w3 = 2000 /\
  localStorage w3 !! VERSION_KEY = Some "2000".
Proof. cbv zeta. repeat split; vm_compute; reflexivity. Qed.

Lemma broadcastChange_stamps_clock_witness :
  storage_accepts (localStorage world_C) VERSION_KEY (Z_toString 5000) = true /\
  lastSyncTimestamp (run (broadcastChange 5000 iso_time "inventory_add" (JObj [])) world_C)
  = 5000.
Proof.
  split; [reflexivity | ].
  exact (proj1 (broadcastChange_stamps_clock world_C 5000 iso_time "inventory_add"
                  (JObj []) eq_refl)).
Defined.

(** ** C3 *)

(** Counterexample to C3 as stated: a message stamped 5000 is applied,
    then a local mutation is stamped by a clock reading 4000; the version
    the context holds goes from 5000 down to 4000. *)
Lemma version_decreases_behind_clock :
  let e1 := ChannelMessage message_5000 in
  let e2 := LocalMutation 4000 iso_time "inventory_update" (JObj []) in
  lastSyncTimestamp (run_events world_C [e1]) = 5000 /\
  lastSyncTimestamp (run_events world_C [e1; e2]) = 4000.
Proof. cbv zeta. split; vm_compute; reflexivity. Qed.

Lemma lastSyncTimestamp_monotone_witness :
  let es1 := [ChannelMessage message_5000; TimerTick] in
  let es2 := [PullSettled (NetError "net::ERR_FAILED") 4000 iso_time;
              LocalMutation 6000 iso_time "inventory_update" (JObj []);
              TimerTick;
              PullSettled (deliver stale_candidate) 6100 iso_time] in
  stamps_not_behind world_C (es1 ++ es2) /\
  lastSyncTimestamp (run_events world_C es1) = 5000 /\
  lastSyncTimestamp (run_events world_C (es1 ++ es2)) = 6100 /\
  lastSyncTimestamp (run_events world_C es1)
  <= lastSyncTimestamp (run_events world_C (es1 ++ es2)).
Proof.
  cbv zeta.
  assert (stamps_not_behind world_C
            ([ChannelMessage message_5000; TimerTick] ++
             [PullSettled (NetError "net::ERR_FAILED") 4000 iso_time;
              LocalMutation 6000 iso_time "inventory_update" (JObj []);
              TimerTick;
              PullSettled (deliver stale_candidate) 6100 iso_time])) as Hst.
  { vm_compute. repeat split; discriminate. }
  split; [exact Hst | split; [reflexivity | split; [reflexivity | ] ] ].
  exact (lastSyncTimestamp_monotone world_C _ _ Hst).
Defined.

(** ** C4 *)

Lemma pull_idempotent_witness :
  pulled_records (deliver same_candidate) = Some [local_record rowC] /\
  local_records world_C = Ret (JArr [local_record rowC]) /\
  persistent_unchanged world_C
    (run (pullFromServer_resume (deliver same_candidate) 3100 iso_time) world_C).
Proof.
  split; [reflexivity | split; [reflexivity | ] ].
  exact (proj1 (proj1 pull_idempotent world_C (deliver same_candidate) 3100 iso_time
                  [local_record rowC] (JArr [local_record rowC])
                  eq_refl eq_refl eq_refl)).
Defined.

(** ** C5 *)

Lemma single_flight_pulls_witness :
  single_flight world_C /\
  (pulls_in_flight (run_events world_C busy_events) <= 1)%nat /\
  length (fetched (run_events world_C busy_events)) = 2%nat.
Proof.
  split; [reflexivity | split; [ | reflexivity] ].
  exact (proj1 (proj2 (single_flight_pulls world_C busy_events eq_refl))).
Defined.

(** ** C6 *)

(** C6, where the code fails it.  The network is down while the queue is
    drained: the request is sent,
    [request] swallows the failure and returns null, [pushToServer] takes
    that for a result, and the change is gone from the queue.  Had the
    server answered with an error status instead, the change would have
    been queued again. *)
Lemma network_failure_loses_change :
  let w' := run (retryPendingChanges network_down) world_one in
  may_push world_one = true /\
  pendingChanges world_one = [one_change] /\
  length (fetched w') = 1%nat /\
  In (ConsoleWarn "Network error - using local fallback") (effects w') /\
  pendingChanges w' = [] /\
  pendingChanges (run (retryPendingChanges always_500) world_one)
  = [sample_change "add" 1 "iPhone A" 4000].
Proof.
  cbv zeta. repeat split; try (vm_compute; reflexivity).
  vm_compute. left. reflexivity.
Qed.

(** ** C7 *)

(** Counterexample to C7 as stated: a change the server rejects is never
    dropped, however many drains are run, and the caller of the failing
    push gets null, not an error. *)
Lemma rejected_change_is_retried_forever :
  result (pushToServer (Response 500 (BodyBad "Unexpected token")) 2000
            (action one_change) (itemData one_change)) world_queue
  = Ret JNull /\
  ~ (exists n, pendingChanges (drain_times always_500 n world_one) = []).
Proof.
  split; [vm_compute; reflexivity | ].
  intros [n Hn].
  assert (exists r, submission (action one_change) (itemData one_change) = Ret (Some r))
    as [r Hsub] by (eexists; reflexivity).
  destruct (failing_drains_never_drop (page := online_page)
              always_500 one_change r n world_one eq_refl eq_refl Hsub)
    as [[t Hq] _].
  - exists 500, "Unexpected token". repeat split.
  - rewrite Hq in Hn. discriminate.
Qed.

Lemma push_lifecycle_witness :
  may_push world_one = true /\
  (exists r, submission (action one_change) (itemData one_change) = Ret (Some r)) /\
  (forall status v,
      response_ok status = true ->
      let c := pushToServer (Response status (BodyJson v)) 2000
                 (action one_change) (itemData one_change) in
      result c world_one = Ret v /\
      pendingChanges (run c world_one) = pendingChanges world_one) /\
  map change_key (pendingChanges (drain_times always_500 3 world_one))
  = map change_key (pendingChanges world_one) /\
  pendingChanges (drain_times always_401 2 world_one) = [].
Proof.
  assert (exists r, submission (action one_change) (itemData one_change) = Ret (Some r))
    as Hsub by (eexists; reflexivity).
  split; [reflexivity | split; [exact Hsub | ] ].
  destruct Hsub as [r Hsub].
  destruct (push_lifecycle (page := online_page) world_one 2000
              (action one_change) (itemData one_change) r eq_refl Hsub)
    as (Hok & _ & _ & Hkeep & Hdrop).
  split; [exact Hok | split].
  - apply (Hkeep 3%nat always_500).
    + intros i. eexists. reflexivity.
    + intros i payload. discriminate.
    + constructor; [ | constructor]. eexists. reflexivity.
  - exact (proj1 (proj2 (proj2 (Hdrop always_401
                                  (BodyJson (JObj [("error", JStr "Unauthorized")]))
                                  [] eq_refl eq_refl)))).
Defined.

(** ** C8 *)



(** ** C10 *)

Lemma pull_always_clears_isSyncing_witness :
  may_pull world_C = true /\
  isSyncing (run pullFromServer_begin world_C) = true /\
  isSyncing (run (pullFromServer (NetError "net::ERR_FAILED") 3100 iso_time) world_C)
  = false.
Proof.
  split; [reflexivity | ].
  destruct (pull_always_clears_isSyncing (page := online_page) world_C eq_refl)
    as (Hbegin & _ & Hend).
  split; [exact Hbegin | apply Hend].
Defined.

(** ** X1 *)

Lemma request_contract_witness :
  result (request (Response 201 (BodyJson (JArr [rowA]))) "/api/inventory"
            {| opt_method := "GET"; opt_body := None |}) world_C
  = Ret (JArr [rowA]) /\
  (JArr [rowA] = JNull \/
   exists status,
     Response 201 (BodyJson (JArr [rowA])) = Response status (BodyJson (JArr [rowA])) /\
     response_ok status = true).
Proof.
  split; [reflexivity | ].
  exact (proj1 (request_contract (page := online_page) "/api/inventory"
                  {| opt_method := "GET"; opt_body := None |} world_C)
           (Response 201 (BodyJson (JArr [rowA]))) (JArr [rowA]) eq_refl).
Defined.

(** ** X4 *)

Lemma request_error_text_witness :
  (409 =? 401) = false /\
  response_ok 409 = false /\
  result (request (Response 409 duplicate_serial) "/api/inventory" post_options) world_C
  = Throw "Serial already exists" /\
  result (request (Response 409 (BodyJson (JObj [("error", JStr "Failed to fetch")])))
            "/api/inventory" post_options) world_C
  = Ret JNull.
Proof.
  destruct (request_error_text (page := online_page) 409 "/api/inventory" post_options
              world_C eq_refl eq_refl) as (_ & _ & Hmsg & Hquirk & _).
  split; [reflexivity | split; [reflexivity | split] ].
  - apply (Hmsg [("error", JStr "Serial already exists")] "Serial already exists" eq_refl);
      discriminate.
  - apply (Hquirk [("error", JStr "Failed to fetch")] eq_refl).
Defined.

(** ** X5 *)

Lemma own_broadcast_reads_back_witness :
  let w' := run (broadcastChange 5000 iso_time "inventory_add" (JObj [])) world_C in
  storage_accepts (localStorage world_C) VERSION_KEY (Z_toString 5000) = true /\
  parseInt_or_0 (localStorage w' !! VERSION_KEY) = lastSyncTimestamp w' /\
  lastSyncTimestamp w' = 5000 /\
  effects (run checkForUpdates w') = effects w'.
Proof.
  cbv zeta. split; [reflexivity | ].
  destruct (own_broadcast_reads_back (page := online_page) world_C 5000 iso_time
              "inventory_add" (JObj []) eq_refl) as (Hread & Hlast & _ & Hef & _).
  split; [exact Hread | split; [exact Hlast | exact Hef] ].
Defined.

(** ** X6 *)

Lemma sibling_notified_once_witness :
  let by_storage := StorageEvent VERSION_KEY (Some (Z_toString 5000)) in
  lastSyncTimestamp world_C < version message_5000 /\
  lastSyncTimestamp (run_events world_C [ChannelMessage message_5000; by_storage]) = 5000 /\
  lastSyncTimestamp (run_events world_C [by_storage; ChannelMessage message_5000]) = 5000 /\
  effects (run_events world_C [by_storage; ChannelMessage message_5000])
  = [ConsoleLog "Storage sync detected"; AppRefresh; ToastInfo "Data synchronized"].
Proof.
  cbv zeta.
  assert (lastSyncTimestamp world_C < version message_5000) as Hlt by reflexivity.
  destruct (sibling_notified_once (page := online_page) world_C message_5000 Hlt)
    as (H1 & H2 & _ & H4 & _).
  split; [exact Hlt | split; [exact H1 | split; [exact H2 | exact H4] ] ].
Defined.

(** ** X7 *)

Lemma init_establishes_version_witness :
  exactly_parsed 3000 /\
  localStorage world_C !! VERSION_KEY = Some (Z_toString 3000) /\
  lastSyncTimestamp (run (init true 7000) world_C) = 3000 /\
  lastSyncTimestamp (run (init true 7000) (with_localStorage ∅ world_C)) = 7000.
Proof.
  destruct (init_establishes_version (page := online_page) world_C true 7000)
    as (_ & Hstored & _).
  destruct (init_establishes_version (page := online_page)
              (with_localStorage ∅ world_C) true 7000) as (_ & _ & Hfresh & _).
  assert (exactly_parsed 3000) as Hsafe by (vm_compute; discriminate).
  split; [exact Hsafe | split; [reflexivity | split] ].
  - exact (proj2 (Hstored 3000 Hsafe eq_refl)).
  - exact (proj2 (Hfresh (or_introl eq_refl))).
Defined.

(** ** X8 *)


(** ** X9 *)

Lemma failed_pull_changes_nothing_witness :
  let w' := run (pullFromServer_resume (NetError "Failed to fetch") 3100 iso_time)
              world_C in
  pulled_records (NetError "Failed to fetch" : fetch_outcome (option Z)) = None /\
  State_state w' = State_state world_C /\
  persistent_unchanged world_C w'.
Proof.
  cbv zeta. split; [reflexivity | ].
  destruct (failed_pull_changes_nothing (page := online_page)
              (NetError "Failed to fetch") 3100 iso_time world_C eq_refl)
    as (Hst & Hsame & _).
  split; [exact Hst | exact Hsame].
Defined.

(** ** X10 *)

Lemma pull_twice_is_pull_once_witness :
  let w1 := run (pullFromServer_resume (deliver stale_candidate) 3100 iso_time) world_C in
  let w2 := run (pullFromServer_resume (deliver stale_candidate) 3200 iso_time) w1 in
  pulled_records (deliver stale_candidate) = Some [local_record rowA] /\
  lastSyncTimestamp w1 = 3100 /\
  persistent_unchanged w1 w2 /\
  State_state w2 = State_state w1.
Proof.
  cbv zeta. split; [reflexivity | split; [reflexivity | ] ].
  exact (pull_twice_is_pull_once (page := online_page)
           (deliver stale_candidate) 3100 iso_time [local_record rowA]
           [("inventory", JArr [local_record rowC])] world_C eq_refl eq_refl
           (deliver stale_candidate) 3200 iso_time eq_refl).
Defined.

(** ** X11 *)

Lemma accepted_pull_is_consistent_witness :
  let w' := run (pullFromServer_resume (deliver stale_candidate) 3100 iso_time) world_C in
  pulled_records (deliver stale_candidate) = Some [local_record rowA] /\
  local_records w' = Ret (JArr [local_record rowA]) /\
  localStorage w' !! STORAGE_KEY = Some (text_arg (stringify (State_state w'))) /\
  parseInt_or_0 (localStorage w' !! VERSION_KEY) = lastSyncTimestamp w' /\
  posted w' = [inventory_sync 3100 iso_time].
Proof.
  cbv zeta.
  assert (stringify (default JUndefined
                       (assoc_get "inventory" [("inventory", JArr [local_record rowC])]))
          <> stringify (JArr [local_record rowA])) as Hdiff
      by (vm_compute; discriminate).
  assert (STORAGE_KEY <> VERSION_KEY) as Hkeys by discriminate.
  destruct (accepted_pull_is_consistent (page := online_page)
              (deliver stale_candidate) 3100 iso_time [local_record rowA]
              [("inventory", JArr [local_record rowC])] world_C
              Hkeys eq_refl eq_refl Hdiff eq_refl eq_refl)
    as (Hrec & Hsnap & Hver & _ & Hpost & _).
  split; [reflexivity | ].
  split; [exact Hrec | split; [exact Hsnap | split; [exact Hver | exact Hpost] ] ].
Defined.

(** ** X12 *)

Lemma pull_storage_failure_witness :
  let w' := run (@pullFromServer_resume (option Z) integer_numbers full_page
                   (deliver stale_candidate) 3100 iso_time) world_C in
  pulled_records (deliver stale_candidate) = Some [local_record rowA] /\
  State_state w' = JObj [("inventory", JArr [local_record rowA])] /\
  persistent_unchanged world_C w' /\
  localStorage w' !! (@STORAGE_KEY full_page) = None.
Proof.
  cbv zeta.
  assert (stringify (default JUndefined
                       (assoc_get "inventory" [("inventory", JArr [local_record rowC])]))
          <> stringify (JArr [local_record rowA])) as Hdiff
      by (vm_compute; discriminate).
  destruct (pull_storage_failure (page := full_page)
              (deliver stale_candidate) 3100 iso_time [local_record rowA]
              [("inventory", JArr [local_record rowC])] world_C
              eq_refl eq_refl Hdiff eq_refl)
    as (Hst & Hsame & _).
  split; [reflexivity | split; [exact Hst | split; [exact Hsame | ] ] ].
  destruct Hsame as (Hls & _). rewrite Hls. reflexivity.
Defined.

(** ** X14 *)

Lemma drain_requeues_failures_witness :
  let w' := run (retryPendingChanges first_rejected) world_queue in
  may_push world_queue = true /\
  requeued first_rejected 0 queue_AC = [sample_change "add" 1 "iPhone A" 4000] /\
  pendingChanges w' = requeued first_rejected 0 (pendingChanges world_queue) /\
  fetched w' = calls_AC.
Proof.
  cbv zeta.
  assert (Forall2 (fun c call => expected_call (headers_of world_queue) c = Some call)
            (pendingChanges world_queue) calls_AC) as Hcalls
      by (repeat constructor).
  assert (forall i payload,
             (i < length (pendingChanges world_queue))%nat ->
             (first_rejected i).1 <> Response 401 payload) as Henv
      by (intros i payload _; destruct i; discriminate).
  destruct (drain_requeues_failures (page := online_page)
              world_queue first_rejected calls_AC eq_refl Hcalls Henv)
    as (Hq & Hf & _).
  split; [reflexivity | split; [reflexivity | split; [exact Hq | exact Hf] ] ].
Defined.

(** ** X15 *)

Lemma drain_without_token_discards_witness :
  may_push world_logged_out = false /\
  pendingChanges world_logged_out = queue_AC /\
  run (retryPendingChanges always_ok) world_logged_out
  = with_pendingChanges [] world_logged_out.
Proof.
  split; [reflexivity | split; [reflexivity | ] ].
  exact (drain_without_token_discards (page := online_page)
           world_logged_out always_ok eq_refl).
Defined.

(** ** X16 *)

Lemma expired_session_drops_queue_witness :
  let w' := run (retryPendingChanges always_401) world_queue in
  pendingChanges world_queue = queue_AC /\
  pendingChanges w' = [sample_change "add" 1 "iPhone A" 4000] /\
  map url (fetched w') = ["/api/inventory"] /\
  token w' = None.
Proof.
  cbv zeta.
  assert (exists r,
             submission (action (sample_change "add" 1 "iPhone A" 2000))
               (itemData (sample_change "add" 1 "iPhone A" 2000)) = Ret (Some r))
    as [r Hsub] by (eexists; reflexivity).
  destruct (expired_session_drops_queue (page := online_page)
              world_queue always_401 (sample_change "add" 1 "iPhone A" 2000)
              [sample_change "update" 3 "iPhone C" 2100] r
              (BodyJson (JObj [("error", JStr "Unauthorized")]))
              eq_refl eq_refl Hsub eq_refl) as (Hq & _ & Htok).
  split; [reflexivity | split; [exact Hq | split; [reflexivity | exact Htok] ] ].
Defined.

(** ** X17 *)

Lemma local_only_sends_nothing_witness :
  @USE_API offline_page = false /\
  fetched (@run_events (option Z) integer_numbers offline_page world_C busy_events) = [] /\
  @pushToServer (option Z) integer_numbers offline_page (NetError "Failed to fetch") 4000
    (action one_change) (itemData one_change) world_one
  = (Ret JNull, world_one).
Proof.
  destruct (local_only_sends_nothing (page := offline_page) world_C eq_refl)
    as (Hev & _).
  destruct (local_only_sends_nothing (page := offline_page) world_one eq_refl)
    as (_ & Hpush & _).
  split; [reflexivity | split; [exact (Hev busy_events) | apply Hpush] ].
Defined.

(** ** X19 *)

Lemma visibility_catches_up_witness :
  let w' := step world_behind VisibilityVisible in
  exactly_parsed 5000 /\
  localStorage world_behind !! VERSION_KEY = Some (Z_toString 5000) /\
  lastSyncTimestamp world_behind = 3000 /\
  lastSyncTimestamp w' = 5000 /\
  effects w' = [ConsoleLog "Updates detected on tab focus"; AppRefresh] /\
  effects (step w' VisibilityVisible) = effects w'.
Proof.
  cbv zeta.
  assert (lastSyncTimestamp world_behind < 5000) as Hlt by reflexivity.
  assert (exactly_parsed 5000) as Hsafe by (vm_compute; discriminate).
  destruct (visibility_catches_up (page := online_page) world_behind 5000 Hsafe
              eq_refl Hlt)
    as (Hv & Hef & _ & _ & Hagain).
  split; [exact Hsafe | split; [reflexivity | split; [reflexivity | ] ] ].
  split; [exact Hv | split; [exact Hef | exact Hagain] ].
Defined.

(** ** X20 *)

Lemma engine_requests_carry_token_witness :
  Forall authorized (fetched world_C) /\
  length (fetched (run_events world_C busy_events)) = 2%nat /\
  Forall authorized (fetched (run_events world_C busy_events)) /\
  Forall authorized (fetched (run (retryPendingChanges always_401) world_queue)).
Proof.
  assert (Forall authorized (fetched world_C)) as Hnone by constructor.
  assert (Forall authorized (fetched world_queue)) as Hnone' by constructor.
  split; [exact Hnone | split; [reflexivity | split] ].
  - exact (proj1 (engine_requests_carry_token (page := online_page) world_C Hnone)
             busy_events).
  - exact (proj2 (proj2 (engine_requests_carry_token (page := online_page)
                           world_queue Hnone')) always_401).
Defined.

(** ** X21 *)

Lemma pulled_record_can_be_pushed_witness :
  local_item rowA = Ret (local_record rowA) /\
  (exists r,
      submission "update" (local_record rowA) = Ret (Some r) /\
      pr_method r = "PUT" /\ pr_endpoint r = "/api/inventory/1") /\
  (exists r,
      submission "sell" (local_record rowA) = Ret (Some r) /\
      pr_method r = "POST" /\ pr_endpoint r = "/api/inventory/1/sell").
Proof.
  destruct (pulled_record_can_be_pushed (numbers := integer_numbers)
              rowA (local_record rowA) eq_refl)
    as (idv & Hid & _ & (r1 & Hsub1 & Hm1 & He1 & _) & (r2 & Hsub2 & Hm2 & He2)).
  injection Hid as <-.
  split; [reflexivity | split].
  - exists r1. split; [exact Hsub1 | split; [exact Hm1 | exact He1] ].
  - exists r2. split; [exact Hsub2 | split; [exact Hm2 | exact He2] ].
Defined.
